(** * ISZ-tool: a shallow embedding of [isz-tool.py] and its specification

    The development follows the Python source top-down: byte and integer
    helpers, the [ctypes] records ([ISZ_header], [ISZ_sdt]), the object
    model of class [ISZ_File] (class-level attributes shared by every
    instance, instance attributes created on first assignment), the methods
    that open a container, and the methods that read, decompress and verify
    blocks.  Line numbers in comments refer to [src/isz-tool.py]. *)

From Stdlib Require Import ZArith String Ascii List Bool Lia.
From Stdlib Require Import Strings.Byte DecimalString DecimalN.
Import ListNotations.

Local Open Scope Z_scope.

(* ================================================================= *)
(** ** Bytes and Python integers *)

Definition bytes := list byte.

(** The integer a [bytes]/[bytearray] element denotes (0..255). *)
Definition byte_val (b : byte) : Z := Z.of_N (Byte.to_N b).

(** Storing an integer into a [bytearray] cell.  Every store of the program
    is in [range(256)] (see [byte_of_Z_val]); the reduction keeps the function total. *)
Definition byte_of_Z (z : Z) : byte :=
  match Byte.of_N (Z.to_N (z mod 256)) with
  | Some b => b
  | None => x00
  end.

(** [range(a, b)]. *)
Definition range (a b : Z) : list Z :=
  map (fun k => a + Z.of_nat k) (seq 0 (Z.to_nat (b - a))).

(** [l[i]] with Python's negative indices; [None] is [IndexError]. *)
Definition py_index {A : Type} (l : list A) (i : Z) : option A :=
  let n := Z.of_nat (length l) in
  if 0 <=? i then nth_error l (Z.to_nat i)
  else if - n <=? i then nth_error l (Z.to_nat (n + i))
  else None.

(** [len(x)] as a Python integer. *)
Definition len {A : Type} (l : list A) : Z := Z.of_nat (length l).

(** [data[off:off+n]] for non-negative [off], [n]. *)
Definition slice {A : Type} (l : list A) (off n : nat) : list A :=
  firstn n (skipn off l).

(** [a == b] on byte strings. *)
Fixpoint bytes_eqb (a b : bytes) : bool :=
  match a, b with
  | [], [] => true
  | x :: a', y :: b' => Byte.eqb x y && bytes_eqb a' b'
  | _, _ => false
  end.

(** Little-endian unsigned value of a byte string. *)
Fixpoint le_uint (bs : bytes) : Z :=
  match bs with
  | [] => 0
  | b :: rest => byte_val b + 256 * le_uint rest
  end.

(** Two's-complement reading of a [w]-bit pattern, as [ctypes] signed
    fields do on load and on store. *)
Definition to_signed (w : Z) (z : Z) : Z :=
  (z + 2 ^ (w - 1)) mod 2 ^ w - 2 ^ (w - 1).

Definition le_int (w : Z) (bs : bytes) : Z := to_signed w (le_uint bs).

(* ================================================================= *)
(** ** Exceptions and the three effect layers *)

(** The exceptions the program raises itself carry what their message
    names; the others are the interpreter's. *)
Inductive exn : Type :=
| HeaderShortRead (byte_read : Z)   (* 64: 'Error while reading the ISZ header ...' *)
| InvalidSignature                  (* 67 *)
| VersionNotSupported               (* 70 *)
| PointerSizeNotImplemented         (* 138 *)
| NamingConventionNotFound          (* 185 *)
| IszExtensionRequired              (* 187 *)
| SegmentNotFound (seg_id : Z)      (* 196: 'Unable to find segment number %d' *)
| NotFirstSegment                   (* 241 *)
| UnableToReadBlock (block_id : Z)  (* 290: 'Unable to read block %d' *)
| SegmentOfBlockNotFound (block_id : Z) (* 294 *)
| WrongDataSize                     (* 328 *)
| CRCError                          (* 364 *)
| IndexError
| ValueError
| TypeError
| AttributeError
| FileNotFoundError (name : string)
| OSError
| CodecError
| OutOfFuel.

Inductive result (A : Type) : Type :=
| Ok (a : A)
| Raise (e : exn).
Arguments Ok {A} a.
Arguments Raise {A} e.

Definition bindR {A B} (r : result A) (k : A -> result B) : result B :=
  match r with
  | Ok a => k a
  | Raise e => Raise e
  end.

Definition of_option {A} (o : option A) (e : exn) : result A :=
  match o with
  | Some a => Ok a
  | None => Raise e
  end.

Declare Scope res_scope.
Delimit Scope res_scope with res.
Notation "x <- m ;; k" := (bindR m (fun x => k))
  (at level 61, m at next level, right associativity) : res_scope.
Notation "' pat <- m ;; k" := (bindR m (fun x => match x with pat => k end))
  (at level 61, pat pattern, m at next level, right associativity) : res_scope.

(** What a method does to the outside: reads of segment files and writes to
    the extracted image, in program order. *)
Inductive event : Type :=
| EvRead (name : string) (offset size : Z)   (* read_data: open, seek, read *)
| EvCreate (name : string)                   (* open(filename, 'wb') *)
| EvWrite (name : string) (data : bytes)     (* iso_fp.write(data) *)
| EvClose (name : string).

(** Methods that only read the handle: a result (or the exception raised) and
    the events performed up to there. *)
Definition IO (A : Type) : Type := (result A * list event)%type.

Definition retIO {A} (a : A) : IO A := (Ok a, []).
Definition raiseIO {A} (e : exn) : IO A := (Raise e, []).
Definition liftIO {A} (r : result A) : IO A := (r, []).
Definition emit (ev : event) : IO unit := (Ok tt, [ev]).

Definition bindIO {A B} (m : IO A) (k : A -> IO B) : IO B :=
  match m with
  | (Ok a, t1) => let (r, t2) := k a in (r, t1 ++ t2)
  | (Raise e, t1) => (Raise e, t1)
  end.

Declare Scope io_scope.
Delimit Scope io_scope with io.
Notation "x <- m ;; k" := (bindIO m (fun x => k))
  (at level 61, m at next level, right associativity) : io_scope.
Notation "' pat <- m ;; k" := (bindIO m (fun x => match x with pat => k end))
  (at level 61, pat pattern, m at next level, right associativity) : io_scope.
Notation "m ;;; k" := (bindIO m (fun _ => k))
  (at level 61, right associativity) : io_scope.

(** [for x in l: acc = body(x, acc)] in [IO]. *)
Fixpoint forIO {A S} (l : list A) (body : A -> S -> IO S) (s : S) : IO S :=
  match l with
  | [] => retIO s
  | x :: rest => bindIO (body x s) (fun s' => forIO rest body s')
  end.

(* ================================================================= *)
(** ** The obfuscation codec (lines 113-122) *)

Definition code : list Z := [0xb6; 0x8c; 0xa5; 0xde].

(** The loop [for i in range(len(data)): data[i] = data[i] ^ code[i%4]],
    from index [i] on. *)
Fixpoint xor_from (i : nat) (data : bytes) : bytes :=
  match data with
  | [] => []
  | b :: rest =>
      byte_of_Z (Z.lxor (byte_val b) (nth (i mod 4)%nat code 0)) :: xor_from (S i) rest
  end.

Definition xor_obfuscate (data : bytes) : bytes := xor_from 0 data.

(* ================================================================= *)
(** ** The [ctypes] records (lines 27-94) *)

(** An [ISZ_header] object is its 64-byte buffer ([_pack_ = 1], little
    endian); a field is a view of the bytes at its offset. *)
Definition ISZ_header := bytes.

Definition field (h : ISZ_header) (off n : nat) : Z := le_uint (slice h off n).

Definition signature (h : ISZ_header) : bytes := slice h 0 4.
Definition header_size (h : ISZ_header) : Z := field h 4 1.
Definition version_number (h : ISZ_header) : Z := field h 5 1.
Definition volume_serial_number (h : ISZ_header) : Z := field h 6 4.
Definition sector_size (h : ISZ_header) : Z := field h 10 2.
Definition total_sectors (h : ISZ_header) : Z := field h 12 4.
Definition encryption_type (h : ISZ_header) : Z := field h 16 1.
Definition segment_size (h : ISZ_header) : Z := to_signed 64 (field h 17 8).
Definition nblock (h : ISZ_header) : Z := field h 25 4.
Definition block_size (h : ISZ_header) : Z := field h 29 4.
Definition pointer_length (h : ISZ_header) : Z := field h 33 1.
Definition file_seg_number (h : ISZ_header) : Z := to_signed 8 (field h 34 1).
Definition chunk_pointers_offset (h : ISZ_header) : Z := field h 35 4.
Definition segment_pointers_offset (h : ISZ_header) : Z := field h 39 4.
Definition data_offset (h : ISZ_header) : Z := field h 43 4.
Definition reserved (h : ISZ_header) : Z := field h 47 1.
Definition checksum1 (h : ISZ_header) : Z := field h 48 4.
Definition size1 (h : ISZ_header) : Z := field h 52 4.
Definition unknown2 (h : ISZ_header) : Z := field h 56 4.
Definition checksum2 (h : ISZ_header) : Z := field h 60 4.

Definition get_uncompressed_size (h : ISZ_header) : Z :=
  sector_size h * total_sectors h.

(** b'IsZ!' *)
Definition isz_magic : bytes := [x49; x73; x5a; x21].

(** Segment Definition Table entry: the values its five signed fields hold. *)
Record ISZ_sdt : Type := mk_sdt {
  sdt_size : Z;               (* size, c_int64 *)
  number_of_chunks : Z;       (* c_int32 *)
  first_chunck_number : Z;    (* c_int32 *)
  chunk_offset : Z;           (* c_int32 *)
  left_size : Z               (* c_int32 *)
}.

(** Assigning Python integers to the fields of a fresh [ISZ_sdt()]: [ctypes]
    keeps the low bits of each value and reads them back signed. *)
Definition sdt_assign (size nchunks first offset left : Z) : ISZ_sdt :=
  mk_sdt (to_signed 64 size) (to_signed 32 nchunks) (to_signed 32 first)
         (to_signed 32 offset) (to_signed 32 left).

(** [ISZ_sdt.from_buffer_copy(data)]: [ValueError] on fewer than 24 bytes. *)
Definition sdt_from_buffer_copy (data : bytes) : result ISZ_sdt :=
  if (length data <? 24)%nat then Raise ValueError
  else Ok (mk_sdt (le_int 64 (slice data 0 8)) (le_int 32 (slice data 8 4))
                  (le_int 32 (slice data 12 4)) (le_int 32 (slice data 16 4))
                  (le_int 32 (slice data 20 4))).

(** [StorageMethods] (lines 96-97). *)
Definition Zeros : Z := 0.
Definition Data : Z := 1.
Definition Zlib : Z := 2.
Definition Bzip2 : Z := 3.

(** A chunk pointer is the tuple [(data_type, data_size)]. *)
Definition pointer : Type := (Z * Z)%type.

(* ================================================================= *)
(** ** Strings: slices, suffixes and ['%0Nd'] *)

(** [s[:-n]] for [n > 0]. *)
Definition drop_last (n : nat) (s : string) : string :=
  substring 0 (String.length s - n) s.

(** [s.endswith(suffix)]. *)
Definition endswith (s suffix : string) : bool :=
  (String.length suffix <=? String.length s)%nat &&
  String.eqb (substring (String.length s - String.length suffix)
                        (String.length suffix) s) suffix.

Definition digits (n : N) : string := NilEmpty.string_of_uint (N.to_uint n).

Fixpoint zeros_str (n : nat) : string :=
  match n with
  | O => EmptyString
  | S k => String "0" (zeros_str k)
  end.

Definition zfill (w : nat) (s : string) : string :=
  (zeros_str (w - String.length s) ++ s)%string.

(** ['%0wd' % n]. *)
Definition fmt_0d (w : nat) (n : Z) : string :=
  if n <? 0 then ("-" ++ zfill (w - 1) (digits (Z.to_N (- n))))%string
  else zfill w (digits (Z.to_N n)).

(** The four bound methods [self.name_generator] can hold (lines 160-173),
    as functions of [self.filename]. *)
Inductive namegen : Type := NG_1 | NG_2 | NG_3 | NG_no_change.

Definition name_generator_1 (filename : string) (seg_id : Z) : string :=
  if negb (seg_id =? 0) then (drop_last 4 filename ++ ".i" ++ fmt_0d 2 seg_id)%string
  else filename.

Definition name_generator_2 (filename : string) (seg_id : Z) : string :=
  (drop_last 11 filename ++ ".part" ++ fmt_0d 2 (seg_id + 1) ++ ".isz")%string.

Definition name_generator_3 (filename : string) (seg_id : Z) : string :=
  (drop_last 12 filename ++ ".part" ++ fmt_0d 3 (seg_id + 1) ++ ".isz")%string.

Definition name_generator_no_change (filename : string) (seg_id : Z) : string :=
  filename.

Definition call_namegen (ng : namegen) : string -> Z -> string :=
  match ng with
  | NG_1 => name_generator_1
  | NG_2 => name_generator_2
  | NG_3 => name_generator_3
  | NG_no_change => name_generator_no_change
  end.

(* ================================================================= *)
(** ** The object model of class [ISZ_File] (lines 99-104) *)

(** An open binary file: its content and the stream position. *)
Record file : Type := mk_file { f_data : bytes; f_pos : nat }.

(** The attributes an instance holds itself.  [isz_segments] and
    [chunk_pointers] start out absent ([None]): until the first assignment
    [self.isz_segments = ...] a lookup finds the list object of the class.
    [fp] and [filename] default to the class's immutable [None];
    [name_generator] exists only once assigned. *)
Record ISZ_File : Type := mk_ISZ_File {
  own_isz_segments : option (list ISZ_sdt);
  own_chunk_pointers : option (list pointer);
  fp : option file;
  filename : option string;
  name_generator : option namegen
}.

Definition new_ISZ_File : ISZ_File := mk_ISZ_File None None None None None.

(** The interpreter state the class touches: the three mutable objects
    created once by the class body -- [isz_header = ISZ_header()],
    [isz_segments = []], [chunk_pointers = []] -- and every instance, by
    identity. *)
Record World : Type := mk_World {
  cls_isz_header : ISZ_header;
  cls_isz_segments : list ISZ_sdt;
  cls_chunk_pointers : list pointer;
  objects : nat -> ISZ_File
}.

Definition initial_world : World :=
  mk_World (repeat x00 64) [] [] (fun _ => new_ISZ_File).

(** Attribute lookup [self.isz_header], [self.isz_segments],
    [self.chunk_pointers]: the instance first, then the class.  No instance
    ever assigns [isz_header]. *)
Definition isz_header (w : World) (self : nat) : ISZ_header := cls_isz_header w.

Definition isz_segments (w : World) (self : nat) : list ISZ_sdt :=
  match own_isz_segments (objects w self) with
  | Some l => l
  | None => cls_isz_segments w
  end.

Definition chunk_pointers (w : World) (self : nat) : list pointer :=
  match own_chunk_pointers (objects w self) with
  | Some l => l
  | None => cls_chunk_pointers w
  end.

Definition set_object (self : nat) (o : ISZ_File) (w : World) : World :=
  mk_World (cls_isz_header w) (cls_isz_segments w) (cls_chunk_pointers w)
           (fun i => if Nat.eqb i self then o else objects w i).

Definition set_header (h : ISZ_header) (w : World) : World :=
  mk_World h (cls_isz_segments w) (cls_chunk_pointers w) (objects w).

Definition set_fp (self : nat) (f : option file) (w : World) : World :=
  let o := objects w self in
  set_object self (mk_ISZ_File (own_isz_segments o) (own_chunk_pointers o) f
                               (filename o) (name_generator o)) w.

Definition set_filename (self : nat) (s : string) (w : World) : World :=
  let o := objects w self in
  set_object self (mk_ISZ_File (own_isz_segments o) (own_chunk_pointers o) (fp o)
                               (Some s) (name_generator o)) w.

Definition set_name_generator (self : nat) (ng : namegen) (w : World) : World :=
  let o := objects w self in
  set_object self (mk_ISZ_File (own_isz_segments o) (own_chunk_pointers o) (fp o)
                               (filename o) (Some ng)) w.

(** [self.isz_segments = l] and [self.chunk_pointers = l]: rebind on the instance. *)
Definition assign_isz_segments (self : nat) (l : list ISZ_sdt) (w : World) : World :=
  let o := objects w self in
  set_object self (mk_ISZ_File (Some l) (own_chunk_pointers o) (fp o)
                               (filename o) (name_generator o)) w.

Definition assign_chunk_pointers (self : nat) (l : list pointer) (w : World) : World :=
  let o := objects w self in
  set_object self (mk_ISZ_File (own_isz_segments o) (Some l) (fp o)
                               (filename o) (name_generator o)) w.

(** [self.isz_segments.append(seg)] and [self.chunk_pointers.append(tup)]:
    mutate the list object the lookup finds, the class's when the instance
    has none of its own. *)
Definition append_isz_segment (self : nat) (seg : ISZ_sdt) (w : World) : World :=
  match own_isz_segments (objects w self) with
  | Some l => assign_isz_segments self (l ++ [seg]) w
  | None => mk_World (cls_isz_header w) (cls_isz_segments w ++ [seg])
                     (cls_chunk_pointers w) (objects w)
  end.

Definition append_chunk_pointer (self : nat) (tup : pointer) (w : World) : World :=
  match own_chunk_pointers (objects w self) with
  | Some l => assign_chunk_pointers self (l ++ [tup]) w
  | None => mk_World (cls_isz_header w) (cls_isz_segments w)
                     (cls_chunk_pointers w ++ [tup]) (objects w)
  end.

(** Methods that mutate the handle: state passing with exceptions; the state
    reached when an exception is raised is kept, as in Python. *)
Definition M (A : Type) : Type := World -> result A * World.

Definition retM {A} (a : A) : M A := fun w => (Ok a, w).
Definition raiseM {A} (e : exn) : M A := fun w => (Raise e, w).
Definition liftM {A} (r : result A) : M A := fun w => (r, w).
Definition getM {A} (f : World -> A) : M A := fun w => (Ok (f w), w).
Definition modifyM (f : World -> World) : M unit := fun w => (Ok tt, f w).

Definition bindM {A B} (m : M A) (k : A -> M B) : M B :=
  fun w => match m w with
           | (Ok a, w') => k a w'
           | (Raise e, w') => (Raise e, w')
           end.

Declare Scope st_scope.
Delimit Scope st_scope with st.
Notation "x <- m ;; k" := (bindM m (fun x => k))
  (at level 61, m at next level, right associativity) : st_scope.
Notation "m ;;; k" := (bindM m (fun _ => k))
  (at level 61, right associativity) : st_scope.

(** [for x in l: body(x)] in [M]. *)
Fixpoint forM {A} (l : list A) (body : A -> M unit) : M unit :=
  match l with
  | [] => retM tt
  | x :: rest => bindM (body x) (fun _ => forM rest body)
  end.

(** [for x in l: body(x)] for checks that only read. *)
Fixpoint forR {A} (l : list A) (body : A -> result unit) : result unit :=
  match l with
  | [] => Ok tt
  | x :: rest => bindR (body x) (fun _ => forR rest body)
  end.

(* ================================================================= *)
(** ** The program, over its external collaborators *)

Section Program.

(** The file system: the content of every file that exists.  The segment
    files do not change while a container is in use. *)
Variable fs : string -> option bytes.

(** [zlib.crc32(data, value)], [zlib.decompress] and [bz2.decompress]; [None]
    is the codec's own error. *)
Variable zlib_crc32 : bytes -> Z -> Z.
Variable zlib_decompress : bytes -> option bytes.
Variable bz2_decompress : bytes -> option bytes.

(** [os.path.exists(name)] *)
Definition path_exists (name : string) : bool :=
  match fs name with
  | Some _ => true
  | None => false
  end.

(* ----------------------------------------------------------------- *)
(** *** Opening a container (lines 106-245) *)

Local Open Scope st_scope.

(** [self.fp.seek(offset)] for the unsigned header offsets, and
    [self.fp.read(n)] for [n >= 0]. *)
Definition fp_seek (self : nat) (offset : Z) : M unit := fun w =>
  match fp (objects w self) with
  | None => (Raise AttributeError, w)
  | Some f => (Ok tt, set_fp self (Some (mk_file (f_data f) (Z.to_nat offset))) w)
  end.

Definition fp_read (self : nat) (n : Z) : M bytes := fun w =>
  match fp (objects w self) with
  | None => (Raise AttributeError, w)
  | Some f =>
      let data := slice (f_data f) (f_pos f) (Z.to_nat n) in
      (Ok data, set_fp self (Some (mk_file (f_data f) (f_pos f + length data))) w)
  end.

(** Lines 106-111. *)
Definition close_file (self : nat) : M unit :=
  modifyM (set_fp self None) ;;;
  modifyM (assign_isz_segments self []) ;;;
  modifyM (assign_chunk_pointers self []).

(** [ISZ_header.read_header] (lines 60-70), called on the header object of
    the class with [f] the [fp] of instance [self]; [f.readinto(self)]
    overwrites the leading bytes of the header buffer with what it read. *)
Definition read_header (self : nat) : M unit :=
  data <- fp_read self 64 ;;
  modifyM (fun w => set_header (data ++ skipn (length data) (cls_isz_header w)) w) ;;;
  let byte_read := len data in
  if negb (byte_read =? 64) then raiseM (HeaderShortRead byte_read)
  else
    hdr <- getM (fun w => isz_header w self) ;;
    if negb (bytes_eqb (signature hdr) isz_magic) then raiseM InvalidSignature
    else if negb (version_number hdr =? 1) then raiseM VersionNotSupported
    else retM tt.

(** Lines 147-150 on [data = data2[i*3:(i+1)*3]]; [data[2]] raises
    [IndexError] on a slice cut short by the end of the table. *)
Definition unpack_pointer (data : bytes) : result pointer :=
  match data with
  | d0 :: d1 :: d2 :: _ =>
      let val := byte_val d2 * 256 * 256 + byte_val d1 * 256 + byte_val d0 in
      let data_type := Z.shiftr val 22 in
      let data_size := Z.land val 0x3fffff in
      Ok (data_type, data_size)
  | _ => Raise IndexError
  end.

(** One turn of the loop of lines 145-151, on the de-obfuscated table. *)
Definition unpack_loop_body (self : nat) (data2 : bytes) (i : Z) : M unit :=
  tup <- liftM (unpack_pointer (slice data2 (Z.to_nat (i * 3)) 3)) ;;
  modifyM (append_chunk_pointer self tup).

(** Lines 124-151. *)
Definition read_chunk_pointers (self : nat) : M unit :=
  hdr <- getM (fun w => isz_header w self) ;;
  if chunk_pointers_offset hdr =? 0 then
    modifyM (append_chunk_pointer self (1, size1 hdr))
  else if negb (pointer_length hdr =? 3) then raiseM PointerSizeNotImplemented
  else
    let table_size := pointer_length hdr * nblock hdr in
    fp_seek self (chunk_pointers_offset hdr) ;;;
    data <- fp_read self table_size ;;
    let data2 := xor_obfuscate data in
    forM (range 0 (nblock hdr)) (unpack_loop_body self data2).

(** [self.name_generator(seg_id)] (lines 189-190); the generators index or
    return [self.filename]. *)
Definition get_segment_name (w : World) (self : nat) (seg_id : Z) : result string :=
  (ng <- of_option (name_generator (objects w self)) AttributeError ;;
   fname <- of_option (filename (objects w self)) TypeError ;;
   Ok (call_namegen ng fname seg_id))%res.

(** The loop of lines 181-185 over the remaining generators. *)
Fixpoint try_name_generators (self : nat) (fname : string) (ngs : list namegen) : M unit :=
  match ngs with
  | [] => raiseM NamingConventionNotFound
  | ng :: rest =>
      if path_exists (call_namegen ng fname 1) then modifyM (set_name_generator self ng)
      else try_name_generators self fname rest
  end.

(** Lines 175-187. *)
Definition detect_file_naming_convention (self : nat) : M unit :=
  fname <- (fun w => (of_option (filename (objects w self)) AttributeError, w)) ;;
  if endswith fname ".isz" then try_name_generators self fname [NG_1; NG_2; NG_3]
  else raiseM IszExtensionRequired.

(** Lines 192-196. *)
Definition check_segment_names (w : World) (self : nat) : result unit :=
  forR (range 0 (len (isz_segments w self))) (fun i =>
    (name <- get_segment_name w self i ;;
     if negb (path_exists name) then Raise (SegmentNotFound i) else Ok tt)%res).

(** Lines 198-204. *)
Definition read_segment (self : nat) : M ISZ_sdt :=
  data <- fp_read self 24 ;;
  let data := xor_obfuscate data in
  liftM (sdt_from_buffer_copy data).

(** The loop of lines 221-223.  Every turn but the last consumes 24 bytes of
    the file, so [fuel] = the file's length is never exhausted
    ([read_segments_loop_fuel]). *)
Fixpoint read_segments_loop (fuel : nat) (self : nat) (seg : ISZ_sdt) : M unit :=
  if sdt_size seg =? 0 then retM tt
  else
    match fuel with
    | O => raiseM OutOfFuel
    | S fuel' =>
        modifyM (append_isz_segment self seg) ;;;
        seg' <- read_segment self ;;
        read_segments_loop fuel' self seg'
    end.

(** Lines 208-223: the table itself. *)
Definition read_segment_table (self : nat) : M unit :=
  hdr <- getM (fun w => isz_header w self) ;;
  if segment_pointers_offset hdr =? 0 then
    let uniq_seg := sdt_assign 0 (nblock hdr) 0 (data_offset hdr) 0 in
    modifyM (append_isz_segment self uniq_seg)
  else
    fp_seek self (segment_pointers_offset hdr) ;;;
    seg <- read_segment self ;;
    fuel <- getM (fun w => match fp (objects w self) with
                           | Some f => length (f_data f)
                           | None => O
                           end) ;;
    read_segments_loop fuel self seg.

(** Lines 225-228: the choice of the name generator. *)
Definition select_convention (self : nat) : M unit :=
  segs <- getM (fun w => isz_segments w self) ;;
  if 1 <? len segs then detect_file_naming_convention self
  else modifyM (set_name_generator self NG_no_change).

(** Lines 225-230: the naming convention and the presence of every segment. *)
Definition resolve_segment_names (self : nat) : M unit :=
  select_convention self ;;;
  (fun w => (check_segment_names w self, w)).

(** Lines 206-230. *)
Definition read_segments (self : nat) : M unit :=
  read_segment_table self ;;;
  resolve_segment_names self.

(** Lines 232-245. *)
Definition open_isz_file (self : nat) (name : string) : M unit :=
  close_file self ;;;
  modifyM (set_filename self name) ;;;
  data <- liftM (of_option (fs name) (FileNotFoundError name)) ;;
  modifyM (set_fp self (Some (mk_file data 0))) ;;;
  read_header self ;;;
  hdr <- getM (fun w => isz_header w self) ;;
  if negb (file_seg_number hdr =? 0) then raiseM NotFirstSegment
  else
    read_segments self ;;;
    read_chunk_pointers self.

Local Close Scope st_scope.

(* ----------------------------------------------------------------- *)
(** *** Locating and reading a block (lines 247-294) *)

Local Open Scope io_scope.

(** [fp.seek(offset); fp.read(size)] on a file of the given content:
    a negative seek is refused, [read(-1)] reads to the end of the file and
    a smaller size is refused. *)
Definition file_read (content : bytes) (offset size : Z) : result bytes :=
  if offset <? 0 then Raise OSError
  else if size <? -1 then Raise ValueError
  else
    let rest := skipn (Z.to_nat offset) content in
    Ok (if size =? -1 then rest else firstn (Z.to_nat size) rest).

(** Lines 247-255. *)
Definition read_data (w : World) (self : nat) (seg_id offset size : Z) : IO bytes :=
  name <- liftIO (get_segment_name w self seg_id) ;;
  content <- liftIO (of_option (fs name) (FileNotFoundError name)) ;;
  emit (EvRead name offset size) ;;;
  liftIO (file_read content offset size).

(** Lines 273-276: the loop [for i in range(first_chunck_number, block_id)]
    over the indices still to visit. *)
Fixpoint block_offset (ptrs : list pointer) (ids : list Z) (cur_offset : Z) : result Z :=
  match ids with
  | [] => Ok cur_offset
  | i :: rest =>
      ('(block_type2, block_size2) <- of_option (py_index ptrs i) IndexError ;;
       block_offset ptrs rest
         (if negb (block_type2 =? Zeros) then cur_offset + block_size2 else cur_offset))%res
  end.

(** Lines 278-292: the reads, once segment and offset are known. *)
Definition read_block (w : World) (self : nat) (block_id block_size : Z)
    (seg_id : Z) (segment : ISZ_sdt) (cur_offset : Z) : IO bytes :=
  let last_block_id := first_chunck_number segment + number_of_chunks segment - 1 in
  let size_to_read :=
    if block_id =? last_block_id then block_size - left_size segment else block_size in
  data <- read_data w self seg_id cur_offset size_to_read ;;
  data <- (if (block_id =? last_block_id) && negb (left_size segment =? 0) then
             data2 <- read_data w self (seg_id + 1) 64 (left_size segment) ;;
             retIO (data ++ data2)
           else retIO data) ;;
  if negb (len data =? block_size) then raiseIO (UnableToReadBlock block_id)
  else retIO data.

(** Lines 262-294: the scan of the segments from index [seg_id] on. *)
Fixpoint scan_segments (w : World) (self : nat) (block_id block_size : Z)
    (segs : list ISZ_sdt) (seg_id : Z) : IO bytes :=
  match segs with
  | [] => raiseIO (SegmentOfBlockNotFound block_id)
  | segment :: rest =>
      let first_block_id := first_chunck_number segment in
      let last_block_id := first_chunck_number segment + number_of_chunks segment - 1 in
      if (first_block_id <=? block_id) && (block_id <=? last_block_id) then
        cur_offset <- liftIO (block_offset (chunk_pointers w self)
                                (range (first_chunck_number segment) block_id)
                                (chunk_offset segment)) ;;
        read_block w self block_id block_size seg_id segment cur_offset
      else scan_segments w self block_id block_size rest (seg_id + 1)
  end.

(** Lines 257-294. *)
Definition get_block (w : World) (self : nat) (block_id : Z) : IO bytes :=
  ' (block_type, block_size) <-
     liftIO (of_option (py_index (chunk_pointers w self) block_id) IndexError) ;;
  scan_segments w self block_id block_size (isz_segments w self) 0.

(* ----------------------------------------------------------------- *)
(** *** Decompression (lines 296-317) *)

(** Lines 313-316: [data[0] = ord('B'); data[1] = ord('Z'); data[2] = ord('h')]. *)
Definition restore_bzip2_header (data : bytes) : result bytes :=
  match data with
  | _ :: _ :: _ :: rest => Ok (x42 :: x5a :: x68 :: rest)
  | _ => Raise IndexError
  end.

(** Lines 296-317.  [Ok None] is the method falling off its end (it returns
    Python's [None]) for a tag outside the four storage methods. *)
Definition decompress_block (w : World) (self : nat) (block_id : Z) : IO (option bytes) :=
  ' (data_type, size) <-
     liftIO (of_option (py_index (chunk_pointers w self) block_id) IndexError) ;;
  if data_type =? Zeros then
    if size <? 0 then raiseIO ValueError
    else retIO (Some (repeat x00 (Z.to_nat size)))
  else
    data <- get_block w self block_id ;;
    if data_type =? Data then retIO (Some data)
    else if data_type =? Zlib then
      out <- liftIO (of_option (zlib_decompress data) CodecError) ;;
      retIO (Some out)
    else if data_type =? Bzip2 then
      data <- liftIO (restore_bzip2_header data) ;;
      out <- liftIO (of_option (bz2_decompress data) CodecError) ;;
      retIO (Some out)
    else retIO None.

(* ----------------------------------------------------------------- *)
(** *** Verification and extraction (lines 319-364) *)

(** [~crc & 0xffffffff] *)
Definition crc_final (crc : Z) : Z := Z.land (Z.lnot crc) 0xffffffff.

(** [crc = zlib.crc32(data, crc) & 0xffffffff] *)
Definition crc_step (data : bytes) (crc : Z) : Z :=
  Z.land (zlib_crc32 data crc) 0xffffffff.

(** Lines 324-329: one turn of the loop, from accumulator [crc]. *)
Definition verify_body (w : World) (self : nat) (block_id : Z) (crc : Z) : IO Z :=
  ' (data_type, size) <-
     liftIO (of_option (py_index (chunk_pointers w self) block_id) IndexError) ;;
  if negb (data_type =? 0) then
    data <- get_block w self block_id ;;
    if negb (len data =? size) then raiseIO WrongDataSize
    else retIO (crc_step data crc)
  else retIO crc.

(** Lines 319-333. *)
Definition verify_isz_file (w : World) (self : nat) : IO bool :=
  crc <- forIO (range 0 (len (chunk_pointers w self))) (verify_body w self) 0 ;;
  let crc := crc_final crc in
  retIO (crc =? checksum2 (isz_header w self)).

(** Lines 340-341: one turn of the loop; [zlib.crc32(None, crc)] is a
    [TypeError]. *)
Definition uncompress_body (w : World) (self : nat) (block_id : Z) (crc : Z) : IO Z :=
  data <- decompress_block w self block_id ;;
  match data with
  | Some data => retIO (crc_step data crc)
  | None => raiseIO TypeError
  end.

(** Lines 335-345. *)
Definition verify_uncompress_isz_file (w : World) (self : nat) : IO bool :=
  crc <- forIO (range 0 (len (chunk_pointers w self))) (uncompress_body w self) 0 ;;
  let crc := crc_final crc in
  retIO (crc =? checksum1 (isz_header w self)).

Local Close Scope io_scope.

End Program.

(* ----------------------------------------------------------------- *)
(** *** Extraction (lines 347-364) *)

Section Extraction.
Variable fs : string -> option bytes.
Variable zlib_crc32 : bytes -> Z -> Z.
Variable zlib_decompress : bytes -> option bytes.
Variable bz2_decompress : bytes -> option bytes.

(** The buffer of the file object [open(filename, 'wb')] returns: of the
    bytes handed to [iso_fp.write] so far, call by call, how many have
    reached the file; the others wait in the buffer for a later write or for
    [iso_fp.close()]. *)
Variable flushed : list bytes -> nat.

Local Open Scope io_scope.

(** The file system while [iso_fp] is open: line 350 has created or truncated
    the file called [filename], which holds what has been flushed of the
    writes made so far; every other file is as it was.  [read_data] opens
    the segment files by name (line 250), so this is what a block read
    sees. *)
Definition fs_while_extracting (filename : string) (writes : list bytes)
    : string -> option bytes :=
  fun name =>
    if String.eqb name filename then Some (firstn (flushed writes) (concat writes))
    else fs name.

(** Lines 355-357: one turn of the loop, from the accumulator [crc] and the
    writes made so far; [iso_fp.write(None)] is a [TypeError]. *)
Definition extract_body (w : World) (self : nat) (filename : string)
    (block_id : Z) (st : Z * list bytes) : IO (Z * list bytes) :=
  let (crc, writes) := st in
  data <- decompress_block (fs_while_extracting filename writes)
            zlib_decompress bz2_decompress w self block_id ;;
  match data with
  | Some data =>
      emit (EvWrite filename data) ;;;
      retIO (crc_step zlib_crc32 data crc, writes ++ [data])
  | None => raiseIO TypeError
  end.

(** Lines 347-364.  [EvCreate] is the [open] of line 350, the [EvWrite]
    events are what is handed to the image, in order. *)
Definition extract_to (w : World) (self : nat) (filename : string) : IO unit :=
  emit (EvCreate filename) ;;;
  st <- forIO (range 0 (len (chunk_pointers w self))) (extract_body w self filename)
          (0, []) ;;
  emit (EvClose filename) ;;;
  let crc := crc_final (fst st) in
  if negb (crc =? checksum1 (isz_header w self)) then raiseIO CRCError
  else retIO tt.

Local Close Scope io_scope.

End Extraction.

(** The bytes written to file [name] along a trace, and the trace's reads. *)
Fixpoint written (name : string) (t : list event) : bytes :=
  match t with
  | [] => []
  | EvWrite n data :: rest =>
      if String.eqb n name then data ++ written name rest else written name rest
  | _ :: rest => written name rest
  end.

Definition is_read (ev : event) : bool :=
  match ev with
  | EvRead _ _ _ => true
  | _ => false
  end.

Definition reads (t : list event) : list event := filter is_read t.

(* ================================================================= *)
(** ** The command line (lines 413-421) *)

(** The destination [main] extracts to for [isz2iso]: the optional argument
    when it is given and not empty ([if not dest_iso] holds for [None] and
    for the empty string), else the source name with [.isz] replaced by
    [.iso], or with [.iso] added when it has no [.isz] suffix. *)
Definition isz2iso_dest_iso (src_isz : string) (dest_iso : option string) : string :=
  let derived :=
    if endswith src_isz ".isz" then (drop_last 4 src_isz ++ ".iso")%string
    else (src_isz ++ ".iso")%string in
  match dest_iso with
  | None => derived
  | Some d => if String.eqb d "" then derived else d
  end.

(* ================================================================= *)
(** ** Concrete collaborators and sample containers *)

Module Examples.

(** CRC-32 (reflected polynomial 0xEDB88320), as [zlib.crc32(data, value)]. *)
Definition crc32_bit (c : Z) : Z :=
  if Z.testbit c 0 then Z.lxor (Z.shiftr c 1) 0xEDB88320 else Z.shiftr c 1.

Definition crc32_byte (c : Z) (b : byte) : Z :=
  Nat.iter 8 crc32_bit (Z.lxor c (byte_val b)).

Definition crc32 (data : bytes) (value : Z) : Z :=
  Z.lxor (fold_left crc32_byte data (Z.lxor (Z.land value 0xffffffff) 0xffffffff))
         0xffffffff.

(** Stand-ins for the two decompressors: a stream is accepted when it starts
    with the codec's magic, and its payload is what follows. *)
Definition toy_zlib (data : bytes) : option bytes :=
  match data with
  | x78 :: rest => Some rest
  | _ => None
  end.

Definition toy_bz2 (data : bytes) : option bytes :=
  match data with
  | x42 :: x5a :: x68 :: rest => Some rest
  | _ => None
  end.

(** A writer that flushes whole buffers of 8192 bytes. *)
Definition flush_8k (writes : list bytes) : nat :=
  let n := N.of_nat (length (concat writes)) in N.to_nat (n - n mod 8192)%N.

(** [n] little-endian bytes of [z]. *)
Fixpoint le_bytes (n : nat) (z : Z) : bytes :=
  match n with
  | O => []
  | S k => byte_of_Z z :: le_bytes k (z / 256)
  end.

(** A version-1 first-segment header with the given table offsets, counts
    and checksums. *)
Definition mk_header (n_block ptr_len cpo spo d_off crc1 sz1 crc2 : Z) : bytes :=
  isz_magic ++ le_bytes 1 64 ++ le_bytes 1 1 ++ le_bytes 4 0 ++ le_bytes 2 2048
    ++ le_bytes 4 0 ++ le_bytes 1 0 ++ le_bytes 8 0 ++ le_bytes 4 n_block
    ++ le_bytes 4 0 ++ le_bytes 1 ptr_len ++ le_bytes 1 0 ++ le_bytes 4 cpo
    ++ le_bytes 4 spo ++ le_bytes 4 d_off ++ le_bytes 1 0 ++ le_bytes 4 crc1
    ++ le_bytes 4 sz1 ++ le_bytes 4 0 ++ le_bytes 4 crc2.

(** The packed, obfuscated chunk pointer table of the given pointers. *)
Definition pack_pointers (ptrs : list pointer) : bytes :=
  xor_obfuscate
    (flat_map (fun p => le_bytes 3 (Z.lor (Z.shiftl (fst p) 22) (snd p))) ptrs).

(** An obfuscated segment table entry. *)
Definition pack_sdt (s : ISZ_sdt) : bytes :=
  xor_obfuscate (le_bytes 8 (sdt_size s) ++ le_bytes 4 (number_of_chunks s)
                 ++ le_bytes 4 (first_chunck_number s) ++ le_bytes 4 (chunk_offset s)
                 ++ le_bytes 4 (left_size s)).

(** A file system holding the listed files. *)
Fixpoint fs_of (files : list (string * bytes)) (name : string) : option bytes :=
  match files with
  | [] => None
  | (n, c) :: rest => if String.eqb n name then Some c else fs_of rest name
  end.

(** A single-file container without tables whose header declares 2^31
    blocks, followed by five bytes of data. *)
Definition huge_file : bytes :=
  mk_header 2147483648 3 0 0 64 0 5 0 ++ [x01; x02; x03; x04; x05].

Definition huge_fs : string -> option bytes := fs_of [("huge.isz"%string, huge_file)].

Definition huge_world : World :=
  snd (open_isz_file huge_fs 0 "huge.isz" initial_world).

(** A single-file container without tables: one Raw-Data block of three
    bytes at offset 64, with consistent checksums. *)
Definition plain_file : bytes :=
  mk_header 1 3 0 0 64 2856550370 3 2856550370 ++ [x01; x02; x03].

(** A second one, of four bytes. *)
Definition other_file : bytes :=
  mk_header 1 3 0 0 64 2670479226 4 2670479226 ++ [x04; x05; x06; x07].

(** A container in two segment files.  Blocks: Zeros(8), Data(4), Data(6),
    Zlib(3).  [disk.isz] holds the header, the segment table at 64, the chunk
    pointer table at 136 and, from 148 on, block 1 and the first four bytes
    of block 2; [disk.i01] holds, after its own 64-byte header, the two
    leftover bytes of block 2 and block 3. *)
Definition disk_pointers : list pointer := [(Zeros, 8); (Data, 4); (Data, 6); (Zlib, 3)].

Definition disk_seg0 : ISZ_sdt := mk_sdt 156 3 0 148 2.
Definition disk_seg1 : ISZ_sdt := mk_sdt 69 1 3 66 0.

Definition disk_isz : bytes :=
  mk_header 4 3 136 64 148 429941832 13 640607786
    ++ pack_sdt disk_seg0 ++ pack_sdt disk_seg1 ++ pack_sdt (mk_sdt 0 0 0 0 0)
    ++ pack_pointers disk_pointers
    ++ [x01; x02; x03; x04] ++ [x05; x06; x07; x08].

Definition disk_i01 : bytes :=
  mk_header 4 3 0 0 64 0 0 0 ++ [x09; x0a] ++ [x78; x0b; x0c].

Definition sample_fs : string -> option bytes :=
  fs_of [("plain.isz"%string, plain_file); ("other.isz"%string, other_file);
         ("disk.isz"%string, disk_isz); ("disk.i01"%string, disk_i01)].

(** Handle 0 opened on [disk.isz]; handle 0 on [plain.isz], then handle 1 on
    [other.isz]. *)
Definition disk_world : World :=
  snd (open_isz_file sample_fs 0 "disk.isz" initial_world).

Definition plain_world : World :=
  snd (open_isz_file sample_fs 0 "plain.isz" initial_world).

Definition both_world : World :=
  snd (open_isz_file sample_fs 1 "other.isz" plain_world).

(** The state in which [open_isz_file] parses the tables of [disk.isz]. *)
Definition disk_header_read : World :=
  snd (read_header 0 (set_fp 0 (Some (mk_file disk_isz 0))
                        (set_filename 0 "disk.isz" (snd (close_file 0 initial_world))))).

(** ... once the segment table is parsed, and once the segment names are
    resolved (the state in which the chunk pointer table is parsed). *)
Definition disk_table_read : World := snd (read_segment_table 0 disk_header_read).

Definition disk_segments_read : World :=
  snd (read_segments sample_fs 0 disk_header_read).

(** A single-file container with a chunk pointer table at 64 and its data
    from 73 on: a Raw-Data block of two bytes, a Bzip2 block of two bytes,
    and a Raw-Data block of four bytes of which the file holds only one. *)
Definition cut_pointers : list pointer := [(Data, 2); (Bzip2, 2); (Data, 4)].

Definition cut_isz : bytes :=
  mk_header 3 3 64 0 73 0 8 0 ++ pack_pointers cut_pointers
    ++ [x01; x02] ++ [x42; x5a] ++ [x03].

(** Files an open rejects: one cut inside its header, one without the
    signature, one of version 2, and one whose header is that of a later
    segment. *)
Definition short_isz : bytes := firstn 40 plain_file.
Definition text_isz : bytes := repeat x20 64.
Definition v2_isz : bytes := firstn 5 plain_file ++ [x02] ++ skipn 6 plain_file.
Definition part_i01 : bytes := firstn 34 plain_file ++ [x01] ++ skipn 35 plain_file.

Definition edge_fs : string -> option bytes :=
  fs_of [("cut.isz"%string, cut_isz); ("short.isz"%string, short_isz);
         ("text.isz"%string, text_isz); ("v2.isz"%string, v2_isz);
         ("part.i01"%string, part_i01)].

Definition cut_world : World :=
  snd (open_isz_file edge_fs 0 "cut.isz" initial_world).

(** The two-segment container again, its files named by the second
    convention. *)
Definition parts_fs : string -> option bytes :=
  fs_of [("set.part01.isz"%string, disk_isz); ("set.part02.isz"%string, disk_i01)].

Definition parts_world : World :=
  snd (open_isz_file parts_fs 0 "set.part01.isz" initial_world).

(** The states in which its segment table and its segment names are
    handled. *)
Definition parts_header_read : World :=
  snd (read_header 0 (set_fp 0 (Some (mk_file disk_isz 0))
                        (set_filename 0 "set.part01.isz"
                           (snd (close_file 0 initial_world))))).

Definition parts_table_read : World := snd (read_segment_table 0 parts_header_read).

End Examples.

(* ================================================================= *)
(** ** The specification's vocabulary *)

(** The packed pointer of block [i] in a de-obfuscated table, as the
    specification words it: the little-endian 24-bit value of the bytes at
    positions 3i..3i+2, top two bits the method tag, low 22 bits the size. *)
Definition packed_value (table : bytes) (i : Z) : Z :=
  le_uint (slice table (Z.to_nat (3 * i)) 3).

Definition pointer_at (table : bytes) (i : Z) : pointer :=
  (Z.shiftr (packed_value table i) 22, Z.land (packed_value table i) 0x3FFFFF).

Definition pointer_in_bounds (p : pointer) : Prop :=
  0 <= fst p <= 3 /\ 0 <= snd p <= 4194303.

(** The numerals [NN] and [NNN] of the segment names: two and three decimal
    digits, zero-padded. *)
Definition decimal_digit (d : Z) : ascii := ascii_of_nat (48 + Z.to_nat d).

Definition two_digits (k : Z) : string :=
  String (decimal_digit (k / 10)) (String (decimal_digit (k mod 10)) EmptyString).

Definition three_digits (k : Z) : string :=
  String (decimal_digit (k / 100)) (two_digits (k mod 100)).

(** [tail] is what stripping the last [n] characters takes off the name
    [kept ++ tail]: its last [n] characters, or all of a shorter name. *)
Definition strips (n : nat) (kept tail : string) : Prop :=
  String.length tail = n \/ (kept = EmptyString /\ (String.length tail < n)%nat).

(** The naming convention the detection step settles on for a table of [n]
    descriptors, as the specification words it: none is needed for a single
    file; otherwise the base name must end in [.isz] and the rule chosen is
    the first of the three, in order, whose name for segment 1 exists. *)
Definition convention_selected (fs : string -> option bytes) (fname : string)
    (n : Z) (ng : namegen) : Prop :=
  match ng with
  | NG_no_change => n <= 1
  | NG_1 =>
      1 < n /\ endswith fname ".isz" = true /\
      path_exists fs (name_generator_1 fname 1) = true
  | NG_2 =>
      1 < n /\ endswith fname ".isz" = true /\
      path_exists fs (name_generator_1 fname 1) = false /\
      path_exists fs (name_generator_2 fname 1) = true
  | NG_3 =>
      1 < n /\ endswith fname ".isz" = true /\
      path_exists fs (name_generator_1 fname 1) = false /\
      path_exists fs (name_generator_2 fname 1) = false /\
      path_exists fs (name_generator_3 fname 1) = true
  end.

(** The descriptor stored in the [i]-th 24-byte record counted from offset
    [off] of a file: the record de-obfuscated on its own, read as an
    [ISZ_sdt]. *)
Definition descriptor_at (content : bytes) (off i : nat) : result ISZ_sdt :=
  sdt_from_buffer_copy (xor_obfuscate (slice content (off + 24 * i) 24)).

(** Block [block_id] lies in the segment's block range. *)
Definition in_segment (segment : ISZ_sdt) (block_id : Z) : Prop :=
  first_chunck_number segment <= block_id
  <= first_chunck_number segment + number_of_chunks segment - 1.

(** The descriptor the locator's scan stops at: the first one, in table
    order, whose range contains the block. *)
Definition located (segs : list ISZ_sdt) (block_id : Z) (seg_id : nat)
    (segment : ISZ_sdt) : Prop :=
  nth_error segs seg_id = Some segment /\
  in_segment segment block_id /\
  forall j s, (j < seg_id)%nat -> nth_error segs j = Some s -> ~ in_segment s block_id.

(** The sum of the declared sizes of exactly those blocks in [first ..
    block_id - 1] whose method tag is not Zeros. *)
Definition preceding_stored_size (ptrs : list pointer) (first block_id : Z) : Z :=
  fold_right Z.add 0
    (map snd
       (filter (fun p => negb (fst p =? Zeros))
          (slice ptrs (Z.to_nat first) (Z.to_nat (block_id - first))))).

(** Block [i] has a pointer whose method tag is not Zeros. *)
Definition is_stored (ptrs : list pointer) (i : Z) : bool :=
  match py_index ptrs i with
  | Some (data_type, _) => negb (data_type =? Zeros)
  | None => false
  end.

(** The destination names none of the files a block read may open: the
    segment files 0..n-1 of the table and the file after the last, from which
    leftover bytes of the last segment would be read. *)
Definition not_a_segment_file (w : World) (self : nat) (filename : string) : Prop :=
  forall seg_id,
    0 <= seg_id <= len (isz_segments w self) ->
    get_segment_name w self seg_id <> Ok filename.

(** Extraction as the specification words it: the destination is a stream of
    its own, to which each decompressed block is appended; the segment files
    are read as they are. *)
Definition stream_body (fs : string -> option bytes) (zlib_crc32 : bytes -> Z -> Z)
    (zlib_decompress bz2_decompress : bytes -> option bytes)
    (w : World) (self : nat) (filename : string) (block_id : Z) (crc : Z) : IO Z :=
  bindIO (decompress_block fs zlib_decompress bz2_decompress w self block_id) (fun data =>
    match data with
    | Some data =>
        bindIO (emit (EvWrite filename data)) (fun _ =>
          retIO (crc_step zlib_crc32 data crc))
    | None => raiseIO TypeError
    end).

Definition extract_stream (fs : string -> option bytes) (zlib_crc32 : bytes -> Z -> Z)
    (zlib_decompress bz2_decompress : bytes -> option bytes)
    (w : World) (self : nat) (filename : string) : IO unit :=
  bindIO (emit (EvCreate filename)) (fun _ =>
  bindIO (forIO (range 0 (len (chunk_pointers w self)))
            (stream_body fs zlib_crc32 zlib_decompress bz2_decompress w self filename) 0)
         (fun crc =>
  bindIO (emit (EvClose filename)) (fun _ =>
    if negb (crc_final crc =? checksum1 (isz_header w self)) then raiseIO CRCError
    else retIO tt))).

(** A running CRC32 over a sequence of blocks: each block is folded in with
    the accumulator so far as the seed. *)
Definition running_crc (crc32 : bytes -> Z -> Z) (blocks : list bytes) (crc : Z) : Z :=
  fold_left (fun acc data => Z.land (crc32 data acc) 0xffffffff) blocks crc.

(* ================================================================= *)
(** ** Observations used in the proofs *)

(** [keeps proj m]: running [m] leaves the observation [proj] of the state
    as it was, whether [m] returns or raises. *)
Definition keeps {X A} (proj : World -> X) (m : M A) : Prop :=
  forall w r w', m w = (r, w') -> proj w' = proj w.

(** [m] performs nothing but reads. *)
Definition reads_only {A} (m : IO A) : Prop := reads (snd m) = snd m.

(** The state in which [open_isz_file] calls [read_header]. *)
Definition opened (self : nat) (name : string) (data : bytes) (w : World) : World :=
  set_fp self (Some (mk_file data 0))
    (set_filename self name
       (assign_chunk_pointers self []
          (assign_isz_segments self [] (set_fp self None w)))).

(** What handle [other] may observe of the tables, as long as [self] has
    list objects of its own to append to. *)
Definition tables_seen (self other : nat) (w : World)
  : option (ISZ_File * list ISZ_sdt * list pointer) :=
  match own_isz_segments (objects w self), own_chunk_pointers (objects w self) with
  | Some _, Some _ => Some (objects w other, cls_isz_segments w, cls_chunk_pointers w)
  | _, _ => None
  end.

(** [m] raises nothing but exceptions satisfying [allowed]. *)
Definition raises_only {A} (allowed : exn -> bool) (m : IO A) : Prop :=
  forall e, fst m = Raise e -> allowed e = true.

(** The exceptions of the block locator, and those left once the handle has
    its file name and name generator. *)
Definition locator_exn (e : exn) : bool :=
  match e with
  | IndexError | ValueError | OSError | TypeError | AttributeError
  | FileNotFoundError _ | SegmentOfBlockNotFound _ | UnableToReadBlock _ => true
  | _ => false
  end.

Definition opened_locator_exn (e : exn) : bool :=
  match e with
  | IndexError | ValueError | OSError
  | FileNotFoundError _ | SegmentOfBlockNotFound _ | UnableToReadBlock _ => true
  | _ => false
  end.

Definition opened_decompress_exn (e : exn) : bool :=
  match e with
  | CodecError => true
  | _ => opened_locator_exn e
  end.

Definition opened_extract_exn (e : exn) : bool :=
  match e with
  | CRCError => true
  | _ => opened_decompress_exn e
  end.

(** [named w self]: the handle has its file name and its name generator. *)
Definition named (w : World) (self : nat) : Prop :=
  (exists fname, filename (objects w self) = Some fname) /\
  (exists ng, name_generator (objects w self) = Some ng).

(** A chunk pointer as a successful open leaves it: a tag among the four
    storage methods and a non-negative size. *)
Definition pointer_ok (p : pointer) : Prop := 0 <= fst p <= 3 /\ 0 <= snd p.

(** Two states in which handle [self] is the same but for its name
    generator: the same header object content, the same list objects of its
    own, the same open file and file name. *)
Definition same_handle (self : nat) (w1 w2 : World) : Prop :=
  cls_isz_header w1 = cls_isz_header w2 /\
  (exists segs, own_isz_segments (objects w1 self) = Some segs /\
                own_isz_segments (objects w2 self) = Some segs) /\
  (exists ptrs, own_chunk_pointers (objects w1 self) = Some ptrs /\
                own_chunk_pointers (objects w2 self) = Some ptrs) /\
  fp (objects w1 self) = fp (objects w2 self) /\
  filename (objects w1 self) = filename (objects w2 self).

(** What the traversals read of a handle. *)
Definition same_tables (self : nat) (w1 w2 : World) : Prop :=
  isz_header w1 self = isz_header w2 self /\
  isz_segments w1 self = isz_segments w2 self /\
  chunk_pointers w1 self = chunk_pointers w2 self /\
  filename (objects w1 self) = filename (objects w2 self) /\
  name_generator (objects w1 self) = name_generator (objects w2 self).

(** [m] cannot tell such states apart. *)
Definition agrees {A} (self : nat) (m : M A) : Prop :=
  forall w1 w2, same_handle self w1 w2 ->
    fst (m w1) = fst (m w2) /\ same_handle self (snd (m w1)) (snd (m w2)).

(** The generator lines 225-228 settle on, from the file name and the
    number of descriptors. *)
Definition choose_convention (fs : string -> option bytes) (fname : option string)
    (n : Z) : result namegen :=
  if 1 <? n then
    match fname with
    | None => Raise AttributeError
    | Some fname =>
        if endswith fname ".isz" then
          if path_exists fs (name_generator_1 fname 1) then Ok NG_1
          else if path_exists fs (name_generator_2 fname 1) then Ok NG_2
          else if path_exists fs (name_generator_3 fname 1) then Ok NG_3
          else Raise NamingConventionNotFound
        else Raise IszExtensionRequired
    end
  else Ok NG_no_change.

(* ================================================================= *)
(** ** Bytes, ranges and Python indexing *)

Lemma byte_val_range (b : byte) : 0 <= byte_val b < 256.
Proof.
  unfold byte_val. pose proof (Byte.to_N_bounded b). lia.
Qed.

Lemma byte_of_Z_val (z : Z) : 0 <= z < 256 -> byte_val (byte_of_Z z) = z.
Proof.
  intros Hz. unfold byte_of_Z, byte_val.
  rewrite Z.mod_small by lia.
  destruct (Byte.of_N (Z.to_N z)) eqn:E.
  - apply Byte.to_of_N in E. rewrite E. lia.
  - apply Byte.of_N_None_iff in E. lia.
Qed.

Lemma byte_of_Z_byte_val (b : byte) : byte_of_Z (byte_val b) = b.
Proof.
  unfold byte_of_Z. pose proof (byte_val_range b) as Hb.
  rewrite Z.mod_small by lia. unfold byte_val.
  rewrite N2Z.id, Byte.of_to_N. reflexivity.
Qed.

(** XOR of two values below [2^n] stays below [2^n]. *)
Lemma lxor_below (n a b : Z) :
  0 <= n -> 0 <= a < 2 ^ n -> 0 <= b < 2 ^ n -> 0 <= Z.lxor a b < 2 ^ n.
Proof.
  intros Hn Ha Hb.
  assert (Hnn : 0 <= Z.lxor a b) by (apply Z.lxor_nonneg; lia).
  split; [exact Hnn|].
  destruct (Z.eq_dec (Z.lxor a b) 0) as [E|E].
  - rewrite E. apply Z.pow_pos_nonneg; lia.
  - apply Z.log2_lt_pow2; [lia|].
    eapply Z.le_lt_trans; [apply Z.log2_lxor; lia|].
    apply Z.max_lub_lt.
    + destruct (Z.eq_dec a 0) as [->|]; [simpl; destruct (Z.eq_dec n 0); [|lia]|apply Z.log2_lt_pow2; lia].
      subst n. simpl in *. assert (b = 0) by lia. subst b. simpl in E. lia.
    + destruct (Z.eq_dec b 0) as [->|]; [simpl; destruct (Z.eq_dec n 0); [|lia]|apply Z.log2_lt_pow2; lia].
      subst n. simpl in *. assert (a = 0) by lia. subst a. simpl in E. lia.
Qed.

Lemma code_nth_range (i : nat) : 0 <= nth (i mod 4) code 0 < 256.
Proof.
  assert (H : (i mod 4 < 4)%nat) by (apply Nat.mod_upper_bound; lia).
  destruct (i mod 4)%nat as [|[|[|[|k]]]]; simpl; lia.
Qed.

Lemma xor_cell_val (b : byte) (i : nat) :
  byte_val (byte_of_Z (Z.lxor (byte_val b) (nth (i mod 4) code 0)))
  = Z.lxor (byte_val b) (nth (i mod 4) code 0).
Proof.
  apply byte_of_Z_val.
  apply (lxor_below 8); [lia| apply byte_val_range | apply code_nth_range].
Qed.

Lemma xor_from_length (data : bytes) : forall i, length (xor_from i data) = length data.
Proof.
  induction data as [|b rest IH]; intros i; simpl; [reflexivity|].
  now rewrite IH.
Qed.

Lemma xor_from_involutive (data : bytes) :
  forall i, xor_from i (xor_from i data) = data.
Proof.
  induction data as [|b rest IH]; intros i; cbn [xor_from]; [reflexivity|].
  rewrite IH, xor_cell_val.
  rewrite Z.lxor_assoc, Z.lxor_nilpotent, Z.lxor_0_r, byte_of_Z_byte_val.
  reflexivity.
Qed.

Lemma xor_from_nth (data : bytes) :
  forall i k b, nth_error data k = Some b ->
    exists b', nth_error (xor_from i data) k = Some b' /\
               byte_val b' = Z.lxor (byte_val b) (nth ((i + k) mod 4) code 0).
Proof.
  induction data as [|d rest IH]; intros i k b H.
  - destruct k; discriminate.
  - destruct k as [|k]; cbn [xor_from nth_error] in *.
    + injection H as ->. eexists; split; [reflexivity|].
      rewrite Nat.add_0_r. apply xor_cell_val.
    + destruct (IH (S i) k b H) as [b' [H1 H2]].
      exists b'. split; [exact H1|].
      rewrite H2. now replace (S i + k)%nat with (i + S k)%nat by lia.
Qed.

(** C6: the codec XORs the byte at every position [i] with [code[i mod 4]],
    [code = (0xB6, 0x8C, 0xA5, 0xDE)]; applying it twice gives the input
    back, and the output is as long as the input. *)
Theorem xor_obfuscate_self_inverse :
  code = [0xB6; 0x8C; 0xA5; 0xDE] /\
  (forall x : bytes, xor_obfuscate (xor_obfuscate x) = x) /\
  (forall x : bytes, length (xor_obfuscate x) = length x) /\
  (forall (x : bytes) (i : nat) (b : byte),
     nth_error x i = Some b ->
     exists b', nth_error (xor_obfuscate x) i = Some b' /\
                byte_val b' = Z.lxor (byte_val b) (nth (i mod 4) code 0)).
Proof.
  split; [reflexivity|].
  split; [intros x; apply xor_from_involutive|].
  split; [intros x; apply xor_from_length|].
  intros x i b H. exact (xor_from_nth x 0 i b H).
Qed.

Lemma range_nil (a b : Z) : b <= a -> range a b = [].
Proof.
  intros H. unfold range. replace (Z.to_nat (b - a)) with O by lia. reflexivity.
Qed.

Lemma range_cons (a b : Z) : a < b -> range a b = a :: range (a + 1) b.
Proof.
  intros H. unfold range.
  replace (Z.to_nat (b - a)) with (S (Z.to_nat (b - (a + 1)))) by lia.
  cbn [seq map]. f_equal; [lia|].
  rewrite <- seq_shift, map_map. apply map_ext. intros k. lia.
Qed.

Lemma range_snoc (a b : Z) : a <= b -> range a (b + 1) = range a b ++ [b].
Proof.
  intros H. unfold range.
  replace (Z.to_nat (b + 1 - a)) with (Z.to_nat (b - a) + 1)%nat by lia.
  rewrite seq_app, map_app. cbn [seq map Nat.add]. do 2 f_equal. lia.
Qed.

Lemma in_range (a b i : Z) : In i (range a b) <-> a <= i < b.
Proof.
  unfold range. rewrite in_map_iff. split.
  - intros [k [<- Hk]]. apply in_seq in Hk. lia.
  - intros H. exists (Z.to_nat (i - a)). split; [lia|]. apply in_seq. lia.
Qed.

Lemma range_length (a b : Z) : length (range a b) = Z.to_nat (b - a).
Proof.
  unfold range. now rewrite length_map, length_seq.
Qed.

Lemma py_index_nonneg {A} (l : list A) (i : Z) :
  0 <= i -> py_index l i = nth_error l (Z.to_nat i).
Proof.
  intros H. unfold py_index. destruct (0 <=? i) eqn:E; [reflexivity|lia].
Qed.

Lemma slice_length {A} (l : list A) (off n : nat) :
  (off + n <= length l)%nat -> length (slice l off n) = n.
Proof.
  intros H. unfold slice. rewrite length_firstn, length_skipn. lia.
Qed.

(* ================================================================= *)
(** ** The chunk pointer table *)

Lemma le_uint_3 (d0 d1 d2 : byte) :
  le_uint [d0; d1; d2] = byte_val d2 * 256 * 256 + byte_val d1 * 256 + byte_val d0.
Proof.
  cbn [le_uint]. lia.
Qed.

Lemma packed_bounds (v : Z) :
  0 <= v < 2 ^ 24 -> pointer_in_bounds (Z.shiftr v 22, Z.land v 0x3fffff).
Proof.
  intros Hv. unfold pointer_in_bounds. cbn [fst snd].
  rewrite Z.shiftr_div_pow2 by lia.
  change 0x3fffff with (Z.ones 22). rewrite Z.land_ones by lia.
  change (2 ^ 22) with 4194304. change (2 ^ 24) with 16777216 in Hv.
  pose proof (Z.mod_pos_bound v 4194304 ltac:(lia)).
  assert (v / 4194304 < 4) by (apply Z.div_lt_upper_bound; lia).
  assert (0 <= v / 4194304) by (apply Z.div_pos; lia).
  change (Z.ones 22) with 4194303. lia.
Qed.

Lemma unpack_pointer_bounds (data : bytes) (p : pointer) :
  unpack_pointer data = Ok p -> pointer_in_bounds p.
Proof.
  destruct data as [|d0 [|d1 [|d2 rest]]]; try discriminate.
  cbn [unpack_pointer]. intros H. injection H as <-.
  apply packed_bounds.
  pose proof (byte_val_range d0). pose proof (byte_val_range d1).
  pose proof (byte_val_range d2). change (2 ^ 24) with 16777216. lia.
Qed.

Lemma unpack_pointer_at (table : bytes) (i : Z) :
  0 <= i -> 3 * i + 3 <= len table ->
  unpack_pointer (slice table (Z.to_nat (i * 3)) 3) = Ok (pointer_at table i).
Proof.
  intros Hi Hlen. unfold pointer_at, packed_value.
  replace (Z.to_nat (i * 3)) with (Z.to_nat (3 * i)) by lia.
  assert (L : length (slice table (Z.to_nat (3 * i)) 3) = 3%nat)
    by (apply slice_length; unfold len in Hlen; lia).
  destruct (slice table (Z.to_nat (3 * i)) 3) as [|d0 [|d1 [|d2 [|]]]]; try discriminate.
  cbn [unpack_pointer]. now rewrite le_uint_3.
Qed.

Lemma chunk_pointers_append (self : nat) (p : pointer) (w : World) :
  chunk_pointers (append_chunk_pointer self p w) self = chunk_pointers w self ++ [p].
Proof.
  unfold append_chunk_pointer, chunk_pointers.
  destruct (own_chunk_pointers (objects w self)) eqn:E; cbn.
  - now rewrite Nat.eqb_refl.
  - now rewrite E.
Qed.

Lemma chunk_pointers_set_fp (self self' : nat) (f : option file) (w : World) :
  chunk_pointers (set_fp self' f w) self = chunk_pointers w self.
Proof.
  unfold chunk_pointers, set_fp. cbn.
  destruct (Nat.eqb_spec self self') as [->|]; reflexivity.
Qed.

Lemma header_set_fp (self self' : nat) (f : option file) (w : World) :
  isz_header (set_fp self' f w) self = isz_header w self.
Proof. reflexivity. Qed.

Lemma unpack_loop_ok (self : nat) (table : bytes) (ids : list Z) :
  forall w,
    (forall i, In i ids -> 0 <= i /\ 3 * i + 3 <= len table) ->
    exists w',
      forM ids (unpack_loop_body self table) w = (Ok tt, w') /\
      chunk_pointers w' self = chunk_pointers w self ++ map (pointer_at table) ids.
Proof.
  induction ids as [|i rest IH]; intros w H.
  - exists w. split; [reflexivity|]. now rewrite app_nil_r.
  - destruct (H i (or_introl eq_refl)) as [Hi Hl].
    destruct (IH (append_chunk_pointer self (pointer_at table i) w)) as [w' [E1 E2]].
    { intros j Hj. apply H. now right. }
    exists w'. split.
    + cbn [forM]. unfold bindM at 1. unfold unpack_loop_body at 1.
      unfold bindM at 1, liftM, modifyM. rewrite (unpack_pointer_at table i Hi Hl).
      exact E1.
    + rewrite E2, chunk_pointers_append, <- app_assoc. reflexivity.
Qed.

Lemma unpack_loop_bounds (self : nat) (table : bytes) (ids : list Z) :
  forall w r w',
    forM ids (unpack_loop_body self table) w = (r, w') ->
    exists added,
      chunk_pointers w' self = chunk_pointers w self ++ added /\
      Forall pointer_in_bounds added.
Proof.
  induction ids as [|i rest IH]; intros w r w' H.
  - injection H as <- <-. exists []. split; [now rewrite app_nil_r|constructor].
  - cbn [forM] in H. unfold bindM at 1, unpack_loop_body at 1 in H.
    unfold bindM at 1, liftM, modifyM in H.
    destruct (unpack_pointer (slice table (Z.to_nat (i * 3)) 3)) as [p|e] eqn:E.
    + destruct (IH _ _ _ H) as [added [A1 A2]].
      exists (p :: added). split.
      * rewrite A1, chunk_pointers_append, <- app_assoc. reflexivity.
      * constructor; [eapply unpack_pointer_bounds; eassumption|exact A2].
    + injection H as <- <-. exists []. split; [now rewrite app_nil_r|constructor].
Qed.

Lemma read_chunk_pointers_unfold (self : nat) (w : World) (f : file) :
  chunk_pointers_offset (isz_header w self) <> 0 ->
  pointer_length (isz_header w self) = 3 ->
  fp (objects w self) = Some f ->
  exists w1,
    chunk_pointers w1 self = chunk_pointers w self /\
    read_chunk_pointers self w =
      forM (range 0 (nblock (isz_header w self)))
           (unpack_loop_body self
              (xor_obfuscate
                 (slice (f_data f) (Z.to_nat (chunk_pointers_offset (isz_header w self)))
                        (Z.to_nat (3 * nblock (isz_header w self)))))) w1.
Proof.
  intros Hoff Hlen Hfp.
  unfold read_chunk_pointers, bindM at 1, getM.
  apply Z.eqb_neq in Hoff. rewrite Hoff, Hlen. cbn [Z.eqb Pos.eqb negb].
  unfold bindM at 1, fp_seek. rewrite Hfp.
  unfold bindM at 1, fp_read.
  match goal with |- context [fp (objects ?w' self)] =>
    replace (fp (objects w' self)) with (Some (mk_file (f_data f)
              (Z.to_nat (chunk_pointers_offset (isz_header w self)))))
      by (unfold set_fp, set_object; cbn; now rewrite Nat.eqb_refl)
  end.
  cbn [f_data f_pos].
  eexists. split; [|reflexivity].
  now rewrite !chunk_pointers_set_fp.
Qed.

(** C8: with a chunk pointer table present ([chunk_pointers_offset <> 0]),
    parsing fails unless the declared pointer width is 3; otherwise the
    pointer of every block [i] is decoded from the de-obfuscated bytes at
    3i..3i+2 as a little-endian 24-bit value [v], tag [v >> 22] and size
    [v & 0x3FFFFF]; whatever is decoded has a tag in 0..3 and a size of at
    most 4,194,303. *)
Theorem read_chunk_pointers_packed (self : nat) (w : World) :
  chunk_pointers_offset (isz_header w self) <> 0 ->
  (pointer_length (isz_header w self) <> 3 ->
     read_chunk_pointers self w = (Raise PointerSizeNotImplemented, w)) /\
  (forall f table,
     pointer_length (isz_header w self) = 3 ->
     fp (objects w self) = Some f ->
     table = xor_obfuscate
               (slice (f_data f) (Z.to_nat (chunk_pointers_offset (isz_header w self)))
                      (Z.to_nat (3 * nblock (isz_header w self)))) ->
     len table = 3 * nblock (isz_header w self) ->
     exists w',
       read_chunk_pointers self w = (Ok tt, w') /\
       chunk_pointers w' self =
         chunk_pointers w self
           ++ map (pointer_at table) (range 0 (nblock (isz_header w self)))) /\
  (forall r w',
     read_chunk_pointers self w = (r, w') ->
     exists added,
       chunk_pointers w' self = chunk_pointers w self ++ added /\
       Forall pointer_in_bounds added).
Proof.
  intros Hoff. split; [|split].
  - intros Hlen. unfold read_chunk_pointers, bindM, getM.
    apply Z.eqb_neq in Hoff, Hlen. now rewrite Hoff, Hlen.
  - intros f table Hlen Hfp -> Hfull.
    destruct (read_chunk_pointers_unfold self w f Hoff Hlen Hfp) as [w1 [E1 E2]].
    rewrite E2, <- E1. apply unpack_loop_ok.
    intros i Hi. apply in_range in Hi. lia.
  - intros r w' H.
    destruct (Z.eq_dec (pointer_length (isz_header w self)) 3) as [Hlen|Hlen].
    + destruct (fp (objects w self)) as [f|] eqn:Hfp.
      * destruct (read_chunk_pointers_unfold self w f Hoff Hlen Hfp) as [w1 [E1 E2]].
        rewrite E2 in H. rewrite <- E1. eapply unpack_loop_bounds; eassumption.
      * unfold read_chunk_pointers, bindM at 1, getM in H.
        apply Z.eqb_neq in Hoff. rewrite Hoff, Hlen in H. cbn [Z.eqb Pos.eqb negb] in H.
        unfold bindM at 1, fp_seek in H. rewrite Hfp in H.
        injection H as <- <-. exists []. split; [now rewrite app_nil_r|constructor].
    + unfold read_chunk_pointers, bindM, getM in H.
      apply Z.eqb_neq in Hoff, Hlen. rewrite Hoff, Hlen in H.
      injection H as <- <-. exists []. split; [now rewrite app_nil_r|constructor].
Qed.

(* ================================================================= *)
(** ** Frame reasoning for the methods that mutate the handle *)

Section Keeps.
Context {X : Type} (proj : World -> X).

Lemma keeps_ret {A} (a : A) : keeps proj (retM a).
Proof. intros w r w' H. now injection H as <- <-. Qed.

Lemma keeps_raise {A} (e : exn) : keeps proj (@raiseM A e).
Proof. intros w r w' H. now injection H as <- <-. Qed.

Lemma keeps_lift {A} (x : result A) : keeps proj (liftM x).
Proof. intros w r w' H. now injection H as <- <-. Qed.

Lemma keeps_get {A} (f : World -> A) : keeps proj (getM f).
Proof. intros w r w' H. now injection H as <- <-. Qed.

Lemma keeps_read {A} (f : World -> result A) : keeps proj (fun w => (f w, w)).
Proof. intros w r w' H. now injection H as <- <-. Qed.

Lemma keeps_modify (f : World -> World) :
  (forall w, proj (f w) = proj w) -> keeps proj (modifyM f).
Proof. intros Hf w r w' H. injection H as <- <-. apply Hf. Qed.

Lemma keeps_bind {A B} (m : M A) (k : A -> M B) :
  keeps proj m -> (forall a, keeps proj (k a)) -> keeps proj (bindM m k).
Proof.
  intros Hm Hk w r w' H. unfold bindM in H.
  destruct (m w) as [[a|e] w1] eqn:E.
  - rewrite (Hk a _ _ _ H). eapply Hm; eassumption.
  - injection H as <- <-. eapply Hm; eassumption.
Qed.

Lemma keeps_forM {A} (l : list A) (body : A -> M unit) :
  (forall a, keeps proj (body a)) -> keeps proj (forM l body).
Proof.
  intros Hb. induction l as [|a rest IH]; cbn [forM].
  - apply keeps_ret.
  - apply keeps_bind; [apply Hb|intros _; exact IH].
Qed.

Variable self : nat.
Hypothesis proj_set_fp : forall f w, proj (set_fp self f w) = proj w.

Lemma keeps_fp_seek (offset : Z) : keeps proj (fp_seek self offset).
Proof.
  intros w r w' H. unfold fp_seek in H.
  destruct (fp (objects w self)); injection H as <- <-; [apply proj_set_fp|reflexivity].
Qed.

Lemma keeps_fp_read (n : Z) : keeps proj (fp_read self n).
Proof.
  intros w r w' H. unfold fp_read in H.
  destruct (fp (objects w self)); injection H as <- <-; [apply proj_set_fp|reflexivity].
Qed.

Lemma keeps_read_segment : keeps proj (read_segment self).
Proof.
  unfold read_segment. apply keeps_bind; [apply keeps_fp_read|intros; apply keeps_lift].
Qed.

Hypothesis proj_append_segment :
  forall seg w, proj (append_isz_segment self seg w) = proj w.

Lemma keeps_read_segments_loop (fuel : nat) :
  forall seg, keeps proj (read_segments_loop fuel self seg).
Proof.
  induction fuel as [|fuel IH]; intros seg; cbn [read_segments_loop];
    destruct (sdt_size seg =? 0); try apply keeps_ret; try apply keeps_raise.
  apply keeps_bind; [now apply keeps_modify|intros _].
  apply keeps_bind; [apply keeps_read_segment|exact IH].
Qed.

Lemma keeps_read_segment_table : keeps proj (read_segment_table self).
Proof.
  unfold read_segment_table. apply keeps_bind; [apply keeps_get|intros hdr].
  destruct (segment_pointers_offset hdr =? 0); [now apply keeps_modify|].
  apply keeps_bind; [apply keeps_fp_seek|intros _].
  apply keeps_bind; [apply keeps_read_segment|intros seg].
  apply keeps_bind; [apply keeps_get|intros fuel].
  apply keeps_read_segments_loop.
Qed.

Hypothesis proj_set_name_generator :
  forall ng w, proj (set_name_generator self ng w) = proj w.

Lemma keeps_try_name_generators fs (fname : string) (ngs : list namegen) :
  keeps proj (try_name_generators fs self fname ngs).
Proof.
  induction ngs as [|ng rest IH]; cbn [try_name_generators].
  - apply keeps_raise.
  - destruct (path_exists fs (call_namegen ng fname 1)); [now apply keeps_modify|exact IH].
Qed.

Lemma keeps_resolve_segment_names fs : keeps proj (resolve_segment_names fs self).
Proof.
  unfold resolve_segment_names, select_convention.
  apply keeps_bind; [|intros _; apply keeps_read].
  apply keeps_bind; [apply keeps_get|intros segs].
  destruct (1 <? len segs); [|now apply keeps_modify].
  unfold detect_file_naming_convention.
  apply keeps_bind; [apply keeps_read|intros fname].
  destruct (endswith fname ".isz"); [apply keeps_try_name_generators|apply keeps_raise].
Qed.

Lemma keeps_read_segments fs : keeps proj (read_segments fs self).
Proof.
  unfold read_segments.
  apply keeps_bind; [apply keeps_read_segment_table|intros _; apply keeps_resolve_segment_names].
Qed.

End Keeps.

Section KeepsMore.
Context {X : Type} (proj : World -> X) (self : nat).
Hypothesis proj_set_fp : forall f w, proj (set_fp self f w) = proj w.

Lemma keeps_read_chunk_pointers :
  (forall p w, proj (append_chunk_pointer self p w) = proj w) ->
  keeps proj (read_chunk_pointers self).
Proof.
  intros Happ. unfold read_chunk_pointers.
  apply keeps_bind; [apply keeps_get|intros hdr].
  destruct (chunk_pointers_offset hdr =? 0); [now apply keeps_modify|].
  destruct (negb (pointer_length hdr =? 3)); [apply keeps_raise|].
  apply keeps_bind; [now apply keeps_fp_seek|intros _].
  apply keeps_bind; [now apply keeps_fp_read|intros data].
  apply keeps_forM. intros i.
  apply keeps_bind; [apply keeps_lift|intros tup; now apply keeps_modify].
Qed.

Lemma keeps_read_header :
  (forall h w, proj (set_header h w) = proj w) ->
  keeps proj (read_header self).
Proof.
  intros Hh. unfold read_header.
  apply keeps_bind; [now apply keeps_fp_read|intros data].
  apply keeps_bind; [apply keeps_modify; intros; apply Hh|intros _].
  destruct (negb (len data =? 64)); [apply keeps_raise|].
  apply keeps_bind; [apply keeps_get|intros hdr].
  destruct (negb (bytes_eqb (signature hdr) isz_magic)); [apply keeps_raise|].
  destruct (negb (version_number hdr =? 1)); [apply keeps_raise|apply keeps_ret].
Qed.

End KeepsMore.

(** What each setter leaves alone. *)
Ltac setter_frame :=
  intros;
  unfold isz_header, isz_segments, chunk_pointers, append_isz_segment,
    append_chunk_pointer, assign_isz_segments, assign_chunk_pointers,
    set_name_generator, set_filename, set_fp, set_header, set_object;
  cbn;
  repeat match goal with
         | |- context [Nat.eqb ?a ?a] => rewrite (Nat.eqb_refl a); cbn
         | |- context [Nat.eqb ?a ?b] => destruct (Nat.eqb_spec a b); subst; cbn
         | |- context [own_isz_segments (objects ?w ?i)] =>
             is_var w; destruct (own_isz_segments (objects w i)) eqn:?; cbn
         | |- context [own_chunk_pointers (objects ?w ?i)] =>
             is_var w; destruct (own_chunk_pointers (objects w i)) eqn:?; cbn
         end;
  try congruence; try reflexivity.

Lemma segments_set_fp self f w : isz_segments (set_fp self f w) self = isz_segments w self.
Proof. setter_frame. Qed.

Lemma segments_set_name_generator self ng w :
  isz_segments (set_name_generator self ng w) self = isz_segments w self.
Proof. setter_frame. Qed.

Lemma segments_append_pointer self p w :
  isz_segments (append_chunk_pointer self p w) self = isz_segments w self.
Proof. setter_frame. Qed.

Lemma segments_append self seg w :
  isz_segments (append_isz_segment self seg w) self = isz_segments w self ++ [seg].
Proof. setter_frame. Qed.

Lemma segments_set_header self h w :
  isz_segments (set_header h w) self = isz_segments w self.
Proof. setter_frame. Qed.

Lemma pointers_set_name_generator self ng w :
  chunk_pointers (set_name_generator self ng w) self = chunk_pointers w self.
Proof. setter_frame. Qed.

Lemma pointers_append_segment self seg w :
  chunk_pointers (append_isz_segment self seg w) self = chunk_pointers w self.
Proof. setter_frame. Qed.

Lemma pointers_set_header self h w :
  chunk_pointers (set_header h w) self = chunk_pointers w self.
Proof. setter_frame. Qed.

Lemma bindM_ok {A B} (m : M A) (k : A -> M B) (w : World) (b : B) (w' : World) :
  bindM m k w = (Ok b, w') ->
  exists a w1, m w = (Ok a, w1) /\ k a w1 = (Ok b, w').
Proof.
  unfold bindM. destruct (m w) as [[a|e] w1]; [|discriminate].
  intros H. now exists a, w1.
Qed.

(* ================================================================= *)
(** ** Opening a container: the tables of a handle *)

Lemma opened_tables self name data w :
  isz_segments (opened self name data w) self = [] /\
  chunk_pointers (opened self name data w) self = [].
Proof. unfold opened. split; setter_frame. Qed.

(** A successful [open_isz_file], step by step. *)
Lemma open_isz_file_ok fs self name w w' :
  open_isz_file fs self name w = (Ok tt, w') ->
  exists data w1 w2,
    fs name = Some data /\
    read_header self (opened self name data w) = (Ok tt, w1) /\
    file_seg_number (isz_header w1 self) = 0 /\
    read_segments fs self w1 = (Ok tt, w2) /\
    read_chunk_pointers self w2 = (Ok tt, w').
Proof.
  intros H. unfold open_isz_file, close_file, bindM, modifyM, liftM, getM in H.
  destruct (fs name) as [data|] eqn:Efs; cbn [of_option] in H; [|discriminate H].
  change (set_fp self (Some (mk_file data 0)) _) with (opened self name data w) in H.
  destruct (read_header self (opened self name data w)) as [[[]|e1] w1] eqn:E1;
    [|discriminate H].
  destruct (file_seg_number (isz_header w1 self) =? 0) eqn:Eseg; cbn [negb] in H;
    [|discriminate H].
  destruct (read_segments fs self w1) as [[[]|e2] w2] eqn:E2; [|discriminate H].
  exists data, w1, w2. repeat split; try assumption.
  now apply Z.eqb_eq.
Qed.

Lemma read_chunk_pointers_synthetic self w :
  chunk_pointers_offset (isz_header w self) = 0 ->
  read_chunk_pointers self w =
    (Ok tt, append_chunk_pointer self (Data, size1 (isz_header w self)) w).
Proof.
  intros H. unfold read_chunk_pointers, bindM, getM. now rewrite H.
Qed.

Lemma read_segment_table_synthetic self w :
  segment_pointers_offset (isz_header w self) = 0 ->
  read_segment_table self w =
    (Ok tt, append_isz_segment self
              (sdt_assign 0 (nblock (isz_header w self)) 0
                          (data_offset (isz_header w self)) 0) w).
Proof.
  intros H. unfold read_segment_table, bindM, getM. now rewrite H.
Qed.

Lemma to_signed_small (w z : Z) : 0 < w -> 0 <= z < 2 ^ (w - 1) -> to_signed w z = z.
Proof.
  intros Hw Hz. unfold to_signed.
  assert (E : 2 ^ w = 2 * 2 ^ (w - 1)).
  { replace w with (Z.succ (w - 1)) at 1 by lia. apply Z.pow_succ_r. lia. }
  rewrite Z.mod_small; lia.
Qed.

Lemma le_uint_nonneg (bs : bytes) : 0 <= le_uint bs.
Proof.
  induction bs as [|b rest IH]; cbn [le_uint]; [lia|].
  pose proof (byte_val_range b). lia.
Qed.

Lemma open_isz_file_tables fs self name w w' :
  open_isz_file fs self name w = (Ok tt, w') ->
  exists w1 w2,
    isz_header w1 self = isz_header w' self /\
    isz_header w2 self = isz_header w' self /\
    isz_segments w1 self = [] /\
    chunk_pointers w2 self = [] /\
    read_segments fs self w1 = (Ok tt, w2) /\
    read_chunk_pointers self w2 = (Ok tt, w').
Proof.
  intros H. destruct (open_isz_file_ok _ _ _ _ _ H) as (data & w1 & w2 & _ & H1 & _ & H2 & H3).
  destruct (opened_tables self name data w) as [S0 P0].
  exists w1, w2.
  assert (Hh3 : isz_header w' self = isz_header w2 self).
  { apply (keeps_read_chunk_pointers (fun w => isz_header w self) self) in H3;
      [exact H3| |]; setter_frame. }
  assert (Hh2 : isz_header w2 self = isz_header w1 self).
  { apply (keeps_read_segments (fun w => isz_header w self) self) in H2;
      [exact H2| | |]; setter_frame. }
  assert (Hs1 : isz_segments w1 self = isz_segments (opened self name data w) self).
  { apply (keeps_read_header (fun w => isz_segments w self) self) in H1;
      [exact H1| |]; setter_frame. }
  assert (Hp1 : chunk_pointers w1 self = chunk_pointers (opened self name data w) self).
  { apply (keeps_read_header (fun w => chunk_pointers w self) self) in H1;
      [exact H1| |]; setter_frame. }
  assert (Hp2 : chunk_pointers w2 self = chunk_pointers w1 self).
  { apply (keeps_read_segments (fun w => chunk_pointers w self) self) in H2;
      [exact H2| | |]; setter_frame. }
  repeat split; try assumption; congruence.
Qed.

(** C7 (as amended): after a successful open, a header with
    [chunk_pointers_offset = 0] gives exactly one chunk pointer, of type
    Raw-Data and of size [size1]; a header with [segment_pointers_offset = 0]
    gives exactly one segment descriptor, with size 0, first block 0,
    leftover 0, and block count and data start the header's [nblock] and
    [data_offset] read as signed 32-bit values -- the header's own values
    whenever both are below 2^31. *)
Theorem open_synthetic_tables fs self name w w' :
  open_isz_file fs self name w = (Ok tt, w') ->
  (chunk_pointers_offset (isz_header w' self) = 0 ->
     chunk_pointers w' self = [(Data, size1 (isz_header w' self))]) /\
  (segment_pointers_offset (isz_header w' self) = 0 ->
     isz_segments w' self =
       [mk_sdt 0 (to_signed 32 (nblock (isz_header w' self))) 0
               (to_signed 32 (data_offset (isz_header w' self))) 0] /\
     (nblock (isz_header w' self) < 2 ^ 31 ->
      data_offset (isz_header w' self) < 2 ^ 31 ->
      isz_segments w' self =
        [mk_sdt 0 (nblock (isz_header w' self)) 0 (data_offset (isz_header w' self)) 0])).
Proof.
  intros H.
  destruct (open_isz_file_tables _ _ _ _ _ H) as (w1 & w2 & Hh1 & Hh2 & S1 & P2 & H2 & H3).
  assert (Hchunk : chunk_pointers_offset (isz_header w' self) = 0 ->
                   chunk_pointers w' self = [(Data, size1 (isz_header w' self))]).
  { intros Hz. rewrite <- Hh2 in Hz |- *.
    rewrite (read_chunk_pointers_synthetic self w2 Hz) in H3. injection H3 as <-.
    now rewrite chunk_pointers_append, P2. }
  assert (Hseg : segment_pointers_offset (isz_header w' self) = 0 ->
     isz_segments w' self =
       [mk_sdt 0 (to_signed 32 (nblock (isz_header w' self))) 0
               (to_signed 32 (data_offset (isz_header w' self))) 0]).
  { intros Hz. rewrite <- Hh1 in Hz |- *.
    unfold read_segments in H2. apply bindM_ok in H2. destruct H2 as ([] & wt & Ht & Hr).
    rewrite (read_segment_table_synthetic self w1 Hz) in Ht. injection Ht as <-.
    apply (keeps_read_chunk_pointers (fun w => isz_segments w self) self) in H3;
      [| setter_frame | setter_frame].
    apply (keeps_resolve_segment_names (fun w => isz_segments w self) self) in Hr;
      [| setter_frame].
    cbv beta in H3, Hr. rewrite H3, Hr, segments_append, S1. reflexivity. }
  split; [exact Hchunk|].
  intros Hz. split; [now apply Hseg|].
  intros Hn Hd. rewrite (Hseg Hz).
  rewrite !to_signed_small; try reflexivity; try lia.
  - split; [apply le_uint_nonneg|exact Hd].
  - split; [apply le_uint_nonneg|exact Hn].
Qed.

(* ================================================================= *)
(** ** Strings: concatenation, suffixes and the decimal format *)

Lemma string_length_app (a b : string) :
  String.length (a ++ b) = (String.length a + String.length b)%nat.
Proof. induction a as [|c a IH]; cbn; [reflexivity|now rewrite IH]. Qed.

Lemma string_app_assoc (a b c : string) : ((a ++ b) ++ c = a ++ (b ++ c))%string.
Proof. induction a as [|x a IH]; cbn; [reflexivity|now rewrite IH]. Qed.

Lemma string_app_inv_head (s a b : string) : (s ++ a = s ++ b)%string -> a = b.
Proof.
  induction s as [|c s IH]; cbn; intros H; [exact H|].
  injection H as H. now apply IH.
Qed.

Lemma string_app_inv_tail (s : string) :
  forall a b : string, (a ++ s = b ++ s)%string -> a = b.
Proof.
  induction a as [|x a IH]; intros [|y b] H; cbn in H.
  - reflexivity.
  - apply (f_equal String.length) in H. cbn in H. rewrite string_length_app in H. lia.
  - apply (f_equal String.length) in H. cbn in H. rewrite string_length_app in H. lia.
  - injection H as -> H. f_equal. now apply IH.
Qed.

Lemma substring_all (s : string) : substring 0 (String.length s) s = s.
Proof. induction s as [|c s IH]; cbn; [reflexivity|now rewrite IH]. Qed.

Lemma substring_app_l (a b : string) : substring 0 (String.length a) (a ++ b) = a.
Proof.
  induction a as [|c a IH]; cbn; [destruct b; reflexivity|now rewrite IH].
Qed.

Lemma substring_split (s : string) :
  forall k, (k <= String.length s)%nat ->
    (substring 0 k s ++ substring k (String.length s - k) s)%string = s.
Proof.
  induction s as [|c s IH]; intros [|k] Hk; cbn in *; try reflexivity; try lia.
  - now rewrite substring_all.
  - rewrite IH by lia. reflexivity.
Qed.

Lemma drop_last_app (a b : string) : drop_last (String.length b) (a ++ b) = a.
Proof.
  unfold drop_last. rewrite string_length_app.
  replace (String.length a + String.length b - String.length b)%nat with (String.length a)
    by lia.
  apply substring_app_l.
Qed.

Lemma endswith_split (s suffix : string) :
  endswith s suffix = true ->
  s = (drop_last (String.length suffix) s ++ suffix)%string.
Proof.
  unfold endswith, drop_last. intros H. apply andb_prop in H. destruct H as [Hl He].
  apply Nat.leb_le in Hl. apply String.eqb_eq in He.
  pose proof (substring_split s (String.length s - String.length suffix) ltac:(lia)) as E.
  replace (String.length s - (String.length s - String.length suffix))%nat
    with (String.length suffix) in E by lia.
  rewrite He in E. now symmetry.
Qed.

Lemma uint_of_zeros (k : nat) (s : string) :
  option_map N.of_uint (NilEmpty.uint_of_string (zeros_str k ++ s))
  = option_map N.of_uint (NilEmpty.uint_of_string s).
Proof.
  induction k as [|k IH]; [reflexivity|].
  rewrite <- IH. cbn [zeros_str append NilEmpty.uint_of_string].
  destruct (NilEmpty.uint_of_string (zeros_str k ++ s)) as [d|]; reflexivity.
Qed.

(** ['%0wd' % n] reads back as [n]. *)
Lemma fmt_0d_value (w : nat) (n : Z) :
  0 <= n ->
  option_map N.of_uint (NilEmpty.uint_of_string (fmt_0d w n)) = Some (Z.to_N n).
Proof.
  intros Hn. unfold fmt_0d. replace (n <? 0) with false by lia.
  unfold zfill. rewrite uint_of_zeros. unfold digits.
  rewrite NilEmpty.usu. cbn [option_map]. now rewrite DecimalN.Unsigned.of_to.
Qed.

Lemma fmt_0d_inj (w : nat) (a b : Z) :
  0 <= a -> 0 <= b -> fmt_0d w a = fmt_0d w b -> a = b.
Proof.
  intros Ha Hb E. pose proof (fmt_0d_value w a Ha) as Va.
  rewrite E, (fmt_0d_value w b Hb) in Va. injection Va as Va. lia.
Qed.

(** The names of two distinct segment indexes under one of the three
    multi-part rules. *)
Lemma call_namegen_inj ng fname i j :
  ng <> NG_no_change -> endswith fname ".isz" = true ->
  0 <= i -> 0 <= j ->
  call_namegen ng fname i = call_namegen ng fname j -> i = j.
Proof.
  intros Hng He Hi Hj E. destruct ng; cbn [call_namegen] in E; [| | |contradiction].
  - unfold name_generator_1 in E.
    assert (Hx : forall k, 0 < k ->
              fname <> (drop_last 4 fname ++ ".i" ++ fmt_0d 2 k)%string).
    { intros k Hk C. rewrite (endswith_split fname ".isz" He) in C at 1.
      cbn [String.length] in C. apply string_app_inv_head in C.
      injection C as C. pose proof (fmt_0d_value 2 k ltac:(lia)) as V.
      rewrite <- C in V. discriminate. }
    destruct (Z.eqb_spec i 0) as [->|Hi0], (Z.eqb_spec j 0) as [->|Hj0]; cbn [negb] in E.
    + reflexivity.
    + exfalso. apply (Hx j); [lia|exact E].
    + exfalso. apply (Hx i); [lia|now symmetry].
    + apply string_app_inv_head in E. apply string_app_inv_head in E.
      now apply (fmt_0d_inj 2).
  - unfold name_generator_2 in E.
    apply string_app_inv_head in E. apply string_app_inv_head in E.
    apply string_app_inv_tail in E. apply (fmt_0d_inj 2) in E; lia.
  - unfold name_generator_3 in E.
    apply string_app_inv_head in E. apply string_app_inv_head in E.
    apply string_app_inv_tail in E. apply (fmt_0d_inj 3) in E; lia.
Qed.

Lemma substring_app_r (a b : string) :
  substring (String.length a) (String.length b) (a ++ b) = b.
Proof. induction a as [|c a IH]; cbn; [apply substring_all|exact IH]. Qed.

Lemma endswith_app (a b : string) : endswith (a ++ b) b = true.
Proof.
  unfold endswith. rewrite string_length_app.
  replace (String.length a + String.length b - String.length b)%nat with (String.length a)
    by lia.
  rewrite substring_app_r, String.eqb_refl.
  replace (String.length b <=? String.length a + String.length b)%nat with true; [reflexivity|].
  symmetry. apply Nat.leb_le. lia.
Qed.

Lemma endswith_iff (s suffix : string) :
  endswith s suffix = true <-> (drop_last (String.length suffix) s ++ suffix)%string = s.
Proof.
  split; intros H.
  - symmetry. now apply endswith_split.
  - rewrite <- H. apply endswith_app.
Qed.


Lemma substring_0_0 (s : string) : substring 0 0 s = EmptyString.
Proof. destruct s; reflexivity. Qed.

Lemma drop_last_strips (n : nat) (kept tail : string) :
  strips n kept tail -> drop_last n (kept ++ tail) = kept.
Proof.
  intros [H | [-> H]].
  - rewrite <- H. apply drop_last_app.
  - cbn [append]. unfold drop_last.
    replace (String.length tail - n)%nat with 0%nat by lia. apply substring_0_0.
Qed.

(** ['%02d'] and ['%03d'] on the numbers that fit: the numerals [NN] and
    [NNN]. *)
Lemma fmt_0d_two_digits (k : Z) : 0 <= k <= 99 -> fmt_0d 2 k = two_digits k.
Proof.
  intros Hk.
  assert (Hall : forallb (fun k => String.eqb (fmt_0d 2 k) (two_digits k)) (range 0 100)
                 = true) by (vm_compute; reflexivity).
  rewrite forallb_forall in Hall. apply String.eqb_eq, Hall, in_range. lia.
Qed.

Lemma fmt_0d_three_digits (k : Z) : 0 <= k <= 999 -> fmt_0d 3 k = three_digits k.
Proof.
  intros Hk.
  assert (Hall : forallb (fun k => String.eqb (fmt_0d 3 k) (three_digits k)) (range 0 1000)
                 = true) by (vm_compute; reflexivity).
  rewrite forallb_forall in Hall. apply String.eqb_eq, Hall, in_range. lia.
Qed.

(* ================================================================= *)
(** ** Segment names *)

Lemma forR_all_ok {A} (l : list A) (body : A -> result unit) :
  (forall x, In x l -> body x = Ok tt) -> forR l body = Ok tt.
Proof.
  induction l as [|x rest IH]; intros H; cbn [forR]; [reflexivity|].
  rewrite (H x (or_introl eq_refl)). cbn [bindR]. apply IH.
  intros y Hy. apply H. now right.
Qed.

Lemma forR_first_raise {A} (l1 l2 : list A) (x : A) (body : A -> result unit) (e : exn) :
  (forall y, In y l1 -> body y = Ok tt) ->
  body x = Raise e ->
  forR (l1 ++ x :: l2) body = Raise e.
Proof.
  induction l1 as [|y rest IH]; intros H Hx; cbn [forR app].
  - now rewrite Hx.
  - rewrite (H y (or_introl eq_refl)). cbn [bindR]. apply IH; [|exact Hx].
    intros z Hz. apply H. now right.
Qed.

Lemma range_split (a b i : Z) :
  a <= i < b -> range a b = range a i ++ i :: range (i + 1) b.
Proof.
  intros H. remember (Z.to_nat (i - a)) as k eqn:Ek.
  revert a Ek H. induction k as [|k IH]; intros a Ek H.
  - assert (a = i) by lia. subst a.
    rewrite (range_nil i i) by lia. now rewrite (range_cons i b) by lia.
  - rewrite (range_cons a b), (range_cons a i) by lia.
    cbn [app]. f_equal. apply IH; lia.
Qed.

Section SegmentNames.
Variable fs : string -> option bytes.

Lemma get_segment_name_selected self ng fname w i :
  filename (objects w self) = Some fname ->
  get_segment_name (set_name_generator self ng w) self i = Ok (call_namegen ng fname i).
Proof.
  intros Hf. unfold get_segment_name, set_name_generator, set_object. cbn.
  rewrite Nat.eqb_refl. cbn. now rewrite Hf.
Qed.

Lemma check_segment_names_present self ng fname w :
  filename (objects w self) = Some fname ->
  (forall i, 0 <= i < len (isz_segments w self) ->
     path_exists fs (call_namegen ng fname i) = true) ->
  check_segment_names fs (set_name_generator self ng w) self = Ok tt.
Proof.
  intros Hf Hall. unfold check_segment_names.
  rewrite segments_set_name_generator.
  apply forR_all_ok. intros i Hi. apply in_range in Hi.
  rewrite (get_segment_name_selected self ng fname w i Hf). cbn [bindR].
  now rewrite (Hall i Hi).
Qed.

Lemma check_segment_names_missing self ng fname w i :
  filename (objects w self) = Some fname ->
  0 <= i < len (isz_segments w self) ->
  path_exists fs (call_namegen ng fname i) = false ->
  (forall j, 0 <= j < i -> path_exists fs (call_namegen ng fname j) = true) ->
  check_segment_names fs (set_name_generator self ng w) self = Raise (SegmentNotFound i).
Proof.
  intros Hf Hi Hmiss Hbefore. unfold check_segment_names.
  rewrite segments_set_name_generator.
  rewrite (range_split 0 (len (isz_segments w self)) i Hi).
  apply forR_first_raise.
  - intros j Hj. apply in_range in Hj.
    rewrite (get_segment_name_selected self ng fname w j Hf). cbn [bindR].
    now rewrite (Hbefore j Hj).
  - rewrite (get_segment_name_selected self ng fname w i Hf). cbn [bindR].
    now rewrite Hmiss.
Qed.

Lemma select_convention_selected self fname w ng :
  filename (objects w self) = Some fname ->
  convention_selected fs fname (len (isz_segments w self)) ng ->
  select_convention fs self w = (Ok tt, set_name_generator self ng w).
Proof.
  intros Hf Hsel. unfold select_convention, bindM, getM.
  destruct ng; cbn [convention_selected] in Hsel.
  1-3: destruct Hsel as [Hn [Hext Hex]]; apply Z.ltb_lt in Hn; rewrite Hn;
       unfold detect_file_naming_convention, bindM; rewrite Hf; cbn [of_option];
       rewrite Hext; cbn [try_name_generators call_namegen].
  - now rewrite Hex.
  - destruct Hex as [-> ->]. reflexivity.
  - destruct Hex as [-> [-> ->]]. reflexivity.
  - apply Z.ltb_ge in Hsel. now rewrite Hsel.
Qed.

Lemma select_convention_no_extension self fname w :
  filename (objects w self) = Some fname ->
  1 < len (isz_segments w self) ->
  endswith fname ".isz" = false ->
  select_convention fs self w = (Raise IszExtensionRequired, w).
Proof.
  intros Hf Hn Hext. unfold select_convention, bindM, getM.
  apply Z.ltb_lt in Hn. rewrite Hn.
  unfold detect_file_naming_convention, bindM. rewrite Hf. cbn [of_option].
  now rewrite Hext.
Qed.

Lemma select_convention_none self fname w :
  filename (objects w self) = Some fname ->
  1 < len (isz_segments w self) ->
  endswith fname ".isz" = true ->
  path_exists fs (name_generator_1 fname 1) = false ->
  path_exists fs (name_generator_2 fname 1) = false ->
  path_exists fs (name_generator_3 fname 1) = false ->
  select_convention fs self w = (Raise NamingConventionNotFound, w).
Proof.
  intros Hf Hn Hext H1 H2 H3. unfold select_convention, bindM, getM.
  apply Z.ltb_lt in Hn. rewrite Hn.
  unfold detect_file_naming_convention, bindM. rewrite Hf. cbn [of_option].
  rewrite Hext. cbn [try_name_generators call_namegen]. now rewrite H1, H2, H3.
Qed.

Lemma read_segments_phases self w w1 :
  read_segment_table self w = (Ok tt, w1) ->
  read_segments fs self w =
    match select_convention fs self w1 with
    | (Ok _, w2) => (check_segment_names fs w2 self, w2)
    | (Raise e, w2) => (Raise e, w2)
    end.
Proof.
  intros Ht. unfold read_segments, bindM at 1. rewrite Ht.
  unfold resolve_segment_names, select_convention, bindM, getM.
  destruct (1 <? len (isz_segments w1 self)).
  - destruct (detect_file_naming_convention fs self w1) as [[[]|e] w2]; reflexivity.
  - reflexivity.
Qed.

(** C9: the three naming rules strip the last 4, 11 and 12 characters of the
    base name and insert [.iNN], [.partNN.isz] and [.partNNN.isz] (segment
    [k] is numbered [k] by the first rule, which leaves segment 0 the base
    name, and [k + 1] by the other two).  Once the segment table is parsed
    into [n] descriptors, a table of more than one makes the detection try
    the three rules in order and keep the first whose name for segment 1
    exists; it fails when the base name does not end in [.isz] or when none
    of the three names exists; then, whichever rule was kept (the unchanged
    name for [n <= 1]), every index 0..n-1 must name an existing file, else
    the error names the first missing index. *)
Theorem read_segments_naming :
  (forall kept tail k,
     strips 4 kept tail -> 1 <= k <= 99 ->
     name_generator_1 (kept ++ tail) k = (kept ++ ".i" ++ two_digits k)%string) /\
  (forall fname, name_generator_1 fname 0 = fname) /\
  (forall kept tail k,
     strips 11 kept tail -> 0 <= k <= 98 ->
     name_generator_2 (kept ++ tail) k
     = (kept ++ ".part" ++ two_digits (k + 1) ++ ".isz")%string) /\
  (forall kept tail k,
     strips 12 kept tail -> 0 <= k <= 998 ->
     name_generator_3 (kept ++ tail) k
     = (kept ++ ".part" ++ three_digits (k + 1) ++ ".isz")%string) /\
  (forall fname k, name_generator_no_change fname k = fname) /\
  (forall self w w1 fname,
     read_segment_table self w = (Ok tt, w1) ->
     filename (objects w1 self) = Some fname ->
     (1 < len (isz_segments w1 self) ->
      endswith fname ".isz" = false ->
      read_segments fs self w = (Raise IszExtensionRequired, w1)) /\
     (1 < len (isz_segments w1 self) ->
      endswith fname ".isz" = true ->
      path_exists fs (name_generator_1 fname 1) = false ->
      path_exists fs (name_generator_2 fname 1) = false ->
      path_exists fs (name_generator_3 fname 1) = false ->
      read_segments fs self w = (Raise NamingConventionNotFound, w1)) /\
     (forall ng,
        convention_selected fs fname (len (isz_segments w1 self)) ng ->
        ((forall i, 0 <= i < len (isz_segments w1 self) ->
            path_exists fs (call_namegen ng fname i) = true) ->
         read_segments fs self w = (Ok tt, set_name_generator self ng w1)) /\
        (forall i,
           0 <= i < len (isz_segments w1 self) ->
           path_exists fs (call_namegen ng fname i) = false ->
           (forall j, 0 <= j < i -> path_exists fs (call_namegen ng fname j) = true) ->
           read_segments fs self w
           = (Raise (SegmentNotFound i), set_name_generator self ng w1)))).
Proof.
  split; [|split; [|split; [|split; [|split]]]].
  - intros kept tail k Hs Hk. unfold name_generator_1.
    replace (k =? 0) with false by lia. cbn [negb].
    now rewrite (drop_last_strips 4 kept tail Hs), fmt_0d_two_digits by lia.
  - reflexivity.
  - intros kept tail k Hs Hk. unfold name_generator_2.
    now rewrite (drop_last_strips 11 kept tail Hs), fmt_0d_two_digits by lia.
  - intros kept tail k Hs Hk. unfold name_generator_3.
    now rewrite (drop_last_strips 12 kept tail Hs), fmt_0d_three_digits by lia.
  - reflexivity.
  - intros self w w1 fname Ht Hf. rewrite (read_segments_phases self w w1 Ht).
    split; [|split].
    + intros Hn Hext. now rewrite (select_convention_no_extension self fname w1 Hf Hn Hext).
    + intros Hn Hext H1 H2 H3.
      now rewrite (select_convention_none self fname w1 Hf Hn Hext H1 H2 H3).
    + intros ng Hsel. rewrite (select_convention_selected self fname w1 ng Hf Hsel).
      split.
      * intros Hall. now rewrite (check_segment_names_present self ng fname w1 Hf Hall).
      * intros i Hi Hmiss Hbefore.
        now rewrite (check_segment_names_missing self ng fname w1 i Hf Hi Hmiss Hbefore).
Qed.

End SegmentNames.

(* ================================================================= *)
(** ** The block locator *)

Lemma bindIO_ret_l {A B} (a : A) (k : A -> IO B) : bindIO (Ok a, []) k = k a.
Proof. unfold bindIO. now destruct (k a). Qed.

Lemma bindIO_raise_l {A B} (e : exn) (t : list event) (k : A -> IO B) :
  bindIO (Raise e, t) k = (Raise e, t).
Proof. reflexivity. Qed.

Lemma slice_cons {A} (l : list A) (off n : nat) (x : A) :
  nth_error l off = Some x -> slice l off (S n) = x :: slice l (S off) n.
Proof.
  unfold slice. revert off. induction l as [|y rest IH]; intros off H.
  - destruct off; discriminate.
  - destruct off as [|off]; cbn in *.
    + now injection H as ->.
    + now apply IH.
Qed.

Lemma block_offset_sum (ptrs : list pointer) (n : nat) :
  forall first block_id cur_offset,
    n = Z.to_nat (block_id - first) ->
    0 <= first -> block_id <= len ptrs ->
    block_offset ptrs (range first block_id) cur_offset
    = Ok (cur_offset + preceding_stored_size ptrs first block_id).
Proof.
  unfold preceding_stored_size.
  induction n as [|n IH]; intros first block_id cur_offset Hn Hf Hb.
  - rewrite range_nil by lia. rewrite <- Hn. cbn. f_equal. lia.
  - rewrite range_cons by lia. cbn [block_offset].
    rewrite py_index_nonneg by lia.
    destruct (nth_error ptrs (Z.to_nat first)) as [[t sz]|] eqn:E.
    + cbn [of_option bindR]. rewrite (IH (first + 1) block_id) by lia.
      rewrite <- Hn. rewrite (slice_cons ptrs _ n _ E).
      replace (Z.to_nat (block_id - (first + 1))) with n by lia.
      replace (Z.to_nat (first + 1)) with (S (Z.to_nat first)) by lia.
      cbn [filter fst snd]. destruct (t =? Zeros); cbn [negb map fold_right snd];
        [reflexivity|apply f_equal; lia].
    + apply nth_error_None in E. unfold len in Hb. lia.
Qed.

Section Locator.
Variable fs : string -> option bytes.

Lemma scan_segments_located w self block_id block_size (segs : list ISZ_sdt) :
  forall (seg_id : nat) (segment : ISZ_sdt) (base : Z),
    located segs block_id seg_id segment ->
    scan_segments fs w self block_id block_size segs base =
      bindIO (liftIO (block_offset (chunk_pointers w self)
                        (range (first_chunck_number segment) block_id)
                        (chunk_offset segment)))
             (fun cur_offset =>
                read_block fs w self block_id block_size (base + Z.of_nat seg_id)
                           segment cur_offset).
Proof.
  induction segs as [|s rest IH]; intros seg_id segment base (Hnth & Hin & Hfirst).
  - destruct seg_id; discriminate.
  - destruct seg_id as [|seg_id]; cbn [nth_error] in Hnth.
    + injection Hnth as ->. cbn [scan_segments]. unfold in_segment in Hin.
      replace (first_chunck_number segment <=? block_id) with true by lia.
      replace (block_id <=? first_chunck_number segment + number_of_chunks segment - 1)
        with true by lia.
      cbn [andb]. now rewrite Z.add_0_r.
    + cbn [scan_segments].
      assert (Hs : ~ in_segment s block_id) by (apply (Hfirst O s); [lia|reflexivity]).
      unfold in_segment in Hs.
      destruct ((first_chunck_number s <=? block_id)
                && (block_id <=? first_chunck_number s + number_of_chunks s - 1)) eqn:E.
      * apply andb_prop in E. lia.
      * rewrite (IH seg_id segment (base + 1)).
        -- now replace (base + 1 + Z.of_nat seg_id) with (base + Z.of_nat (S seg_id)) by lia.
        -- split; [exact Hnth|split; [exact Hin|]].
           intros j s' Hj Hs'. apply (Hfirst (S j) s'); [lia|exact Hs'].
Qed.

Lemma get_block_located w self block_id block_type block_size seg_id segment :
  located (isz_segments w self) block_id seg_id segment ->
  0 <= first_chunck_number segment ->
  nth_error (chunk_pointers w self) (Z.to_nat block_id) = Some (block_type, block_size) ->
  get_block fs w self block_id =
    read_block fs w self block_id block_size (Z.of_nat seg_id) segment
      (chunk_offset segment
       + preceding_stored_size (chunk_pointers w self) (first_chunck_number segment) block_id).
Proof.
  intros Hloc Hfirst Hptr. unfold get_block.
  assert (Hin : in_segment segment block_id) by apply Hloc. unfold in_segment in Hin.
  rewrite py_index_nonneg by lia. rewrite Hptr. cbn [of_option]. unfold liftIO.
  rewrite bindIO_ret_l.
  rewrite (scan_segments_located w self block_id block_size _ seg_id segment 0 Hloc).
  rewrite (block_offset_sum _ _ _ _ _ eq_refl Hfirst).
  - unfold liftIO. now rewrite bindIO_ret_l.
  - assert (Z.to_nat block_id < length (chunk_pointers w self))%nat
      by (apply nth_error_Some; congruence).
    unfold len. lia.
Qed.

Lemma read_data_first_event w self seg_id name content offset size :
  get_segment_name w self seg_id = Ok name ->
  fs name = Some content ->
  read_data fs w self seg_id offset size
  = (file_read content offset size, [EvRead name offset size]).
Proof.
  intros Hn Hc. unfold read_data, liftIO. rewrite Hn, bindIO_ret_l, Hc.
  cbn [of_option]. rewrite bindIO_ret_l. unfold emit, bindIO.
  reflexivity.
Qed.

(** C1: for a block id in the range of a segment (the one the scan stops
    at), the locator reads at that segment's [chunk_offset] plus the sum of
    the declared sizes of the blocks before it in the segment whose tag is
    not Zeros: it continues with [read_block] at that offset, and its first
    read of the segment file is at that offset.  For blocks
    [Zeros(100), Data(50), Data(30)] the offset of block 2 is
    [data_start + 50]. *)
Theorem get_block_offset :
  (forall w self block_id block_type block_size seg_id segment,
     located (isz_segments w self) block_id seg_id segment ->
     0 <= first_chunck_number segment ->
     nth_error (chunk_pointers w self) (Z.to_nat block_id) = Some (block_type, block_size) ->
     let offset :=
       chunk_offset segment
       + preceding_stored_size (chunk_pointers w self) (first_chunck_number segment) block_id in
     get_block fs w self block_id =
       read_block fs w self block_id block_size (Z.of_nat seg_id) segment offset /\
     (forall name content,
        get_segment_name w self (Z.of_nat seg_id) = Ok name ->
        fs name = Some content ->
        exists size r rest,
          get_block fs w self block_id = (r, EvRead name offset size :: rest))) /\
  (forall data_start,
     block_offset [(Zeros, 100); (Data, 50); (Data, 30)] (range 0 2) data_start
     = Ok (data_start + 50)).
Proof.
  split.
  - intros w self block_id block_type block_size seg_id segment Hloc Hfirst Hptr offset.
    pose proof (get_block_located w self block_id block_type block_size seg_id segment
                  Hloc Hfirst Hptr) as E.
    fold offset in E. split; [exact E|].
    intros name content Hn Hc. rewrite E. unfold read_block.
    rewrite (read_data_first_event w self _ name content _ _ Hn Hc).
    match goal with |- context [file_read content offset ?sz] =>
      exists sz; destruct (file_read content offset sz) as [d|e]
    end.
    + unfold bindIO at 1.
      match goal with |- context [let (r, t2) := ?m in _] => destruct m as [r t2] end.
      now exists r, t2.
    + now exists (Raise e), [].
  - intros data_start. change (range 0 2) with [0; 1]. reflexivity.
Qed.

End Locator.

(* ================================================================= *)
(** ** Reading a block, across a segment boundary if need be *)

Lemma bindIO_ok {A B} (m : IO A) (k : A -> IO B) (b : B) (t : list event) :
  bindIO m k = (Ok b, t) ->
  exists a t1 t2, m = (Ok a, t1) /\ k a = (Ok b, t2) /\ t = t1 ++ t2.
Proof.
  destruct m as [[a|e] t1]; cbn [bindIO]; [|discriminate].
  destruct (k a) as [r t2] eqn:E. intros H. injection H as -> <-.
  now exists a, t1, t2.
Qed.

Lemma file_read_ok (content : bytes) (offset size : Z) :
  0 <= offset -> 0 <= size ->
  file_read content offset size
  = Ok (firstn (Z.to_nat size) (skipn (Z.to_nat offset) content)).
Proof.
  intros Ho Hs. unfold file_read.
  replace (offset <? 0) with false by lia.
  replace (size <? -1) with false by lia.
  now replace (size =? -1) with false by lia.
Qed.

Section ReadBlock.
Variable fs : string -> option bytes.

Lemma read_block_ok_len w self block_id block_size seg_id segment cur_offset data t :
  read_block fs w self block_id block_size seg_id segment cur_offset = (Ok data, t) ->
  len data = block_size.
Proof.
  unfold read_block. intros H.
  apply bindIO_ok in H. destruct H as (d1 & t1 & t2 & _ & H & _).
  apply bindIO_ok in H. destruct H as (d & t3 & t4 & _ & H & _).
  destruct (len d =? block_size) eqn:E; cbn [negb] in H; [|discriminate].
  injection H as <- _. now apply Z.eqb_eq.
Qed.

Lemma scan_segments_ok_len w self block_id block_size (segs : list ISZ_sdt) :
  forall seg_id data t,
    scan_segments fs w self block_id block_size segs seg_id = (Ok data, t) ->
    len data = block_size.
Proof.
  induction segs as [|s rest IH]; intros seg_id data t H; cbn [scan_segments] in H.
  - discriminate.
  - destruct ((first_chunck_number s <=? block_id)
              && (block_id <=? first_chunck_number s + number_of_chunks s - 1)).
    + apply bindIO_ok in H. destruct H as (off & t1 & t2 & _ & H & _).
      eapply read_block_ok_len; eassumption.
    + eapply IH; eassumption.
Qed.

Lemma get_block_ok_len w self block_id block_type block_size data t :
  py_index (chunk_pointers w self) block_id = Some (block_type, block_size) ->
  get_block fs w self block_id = (Ok data, t) ->
  len data = block_size.
Proof.
  intros Hp H. unfold get_block in H. rewrite Hp in H. cbn [of_option] in H.
  unfold liftIO in H. rewrite bindIO_ret_l in H.
  eapply scan_segments_ok_len; eassumption.
Qed.

Lemma read_block_single w self block_id block_size seg_id segment offset name content :
  get_segment_name w self seg_id = Ok name ->
  fs name = Some content ->
  0 <= offset -> 0 <= block_size ->
  block_id <> first_chunck_number segment + number_of_chunks segment - 1
  \/ left_size segment = 0 ->
  read_block fs w self block_id block_size seg_id segment offset =
    ((if len (firstn (Z.to_nat block_size) (skipn (Z.to_nat offset) content)) =? block_size
      then Ok (firstn (Z.to_nat block_size) (skipn (Z.to_nat offset) content))
      else Raise (UnableToReadBlock block_id)),
     [EvRead name offset block_size]).
Proof.
  intros Hn Hc Ho Hs Hcase. unfold read_block.
  set (last := first_chunck_number segment + number_of_chunks segment - 1) in *.
  assert (Esize : (if block_id =? last then block_size - left_size segment else block_size)
                  = block_size).
  { destruct (Z.eqb_spec block_id last); [|reflexivity]. lia. }
  assert (Esplit : (block_id =? last) && negb (left_size segment =? 0) = false).
  { destruct Hcase as [H|H].
    - apply Z.eqb_neq in H. now rewrite H.
    - rewrite H. cbn. apply andb_false_r. }
  rewrite Esize, Esplit.
  rewrite (read_data_first_event fs w self seg_id name content _ _ Hn Hc).
  rewrite file_read_ok by assumption.
  unfold bindIO, retIO, raiseIO.
  destruct (len _ =? block_size); reflexivity.
Qed.

Lemma read_block_split w self block_id block_size seg_id segment offset
      name content name2 content2 :
  get_segment_name w self seg_id = Ok name ->
  fs name = Some content ->
  get_segment_name w self (seg_id + 1) = Ok name2 ->
  fs name2 = Some content2 ->
  0 <= offset ->
  block_id = first_chunck_number segment + number_of_chunks segment - 1 ->
  0 < left_size segment <= block_size ->
  read_block fs w self block_id block_size seg_id segment offset =
    ((if len (firstn (Z.to_nat (block_size - left_size segment))
                     (skipn (Z.to_nat offset) content)
              ++ firstn (Z.to_nat (left_size segment)) (skipn 64 content2)) =? block_size
      then Ok (firstn (Z.to_nat (block_size - left_size segment))
                      (skipn (Z.to_nat offset) content)
               ++ firstn (Z.to_nat (left_size segment)) (skipn 64 content2))
      else Raise (UnableToReadBlock block_id)),
     [EvRead name offset (block_size - left_size segment);
      EvRead name2 64 (left_size segment)]).
Proof.
  intros Hn Hc Hn2 Hc2 Ho Hlast Hleft. unfold read_block.
  rewrite <- Hlast. rewrite Z.eqb_refl.
  replace (left_size segment =? 0) with false by lia. cbn [andb negb].
  rewrite (read_data_first_event fs w self seg_id name content _ _ Hn Hc).
  rewrite (read_data_first_event fs w self (seg_id + 1) name2 content2 _ _ Hn2 Hc2).
  rewrite !file_read_ok by lia.
  unfold bindIO, retIO, raiseIO. change (Z.to_nat 64) with 64%nat.
  destruct (len _ =? block_size); reflexivity.
Qed.

(** C2: a block that is not its segment's last, or whose segment has no
    leftover, is read in one piece of its declared size; the last block of a
    segment with a leftover is read as [declared size - left_size] bytes of
    its own segment file followed by [left_size] bytes of the next segment's
    file from byte 64 on, in this order.  In both cases a result whose
    length is not the declared size is the error naming the block, and
    whatever [get_block] returns has exactly the declared size. *)
Theorem get_block_reads :
  (forall w self block_id block_type block_size seg_id segment name content,
     located (isz_segments w self) block_id seg_id segment ->
     0 <= first_chunck_number segment ->
     nth_error (chunk_pointers w self) (Z.to_nat block_id) = Some (block_type, block_size) ->
     get_segment_name w self (Z.of_nat seg_id) = Ok name ->
     fs name = Some content ->
     let offset :=
       chunk_offset segment
       + preceding_stored_size (chunk_pointers w self) (first_chunck_number segment) block_id in
     let last_block_id := first_chunck_number segment + number_of_chunks segment - 1 in
     0 <= offset ->
     (block_id <> last_block_id \/ left_size segment = 0 ->
      0 <= block_size ->
      let data := firstn (Z.to_nat block_size) (skipn (Z.to_nat offset) content) in
      get_block fs w self block_id =
        ((if len data =? block_size then Ok data else Raise (UnableToReadBlock block_id)),
         [EvRead name offset block_size])) /\
     (block_id = last_block_id ->
      0 < left_size segment <= block_size ->
      forall name2 content2,
        get_segment_name w self (Z.of_nat seg_id + 1) = Ok name2 ->
        fs name2 = Some content2 ->
        let data :=
          firstn (Z.to_nat (block_size - left_size segment)) (skipn (Z.to_nat offset) content)
          ++ firstn (Z.to_nat (left_size segment)) (skipn 64 content2) in
        get_block fs w self block_id =
          ((if len data =? block_size then Ok data else Raise (UnableToReadBlock block_id)),
           [EvRead name offset (block_size - left_size segment);
            EvRead name2 64 (left_size segment)]))) /\
  (forall w self block_id block_type block_size data t,
     py_index (chunk_pointers w self) block_id = Some (block_type, block_size) ->
     get_block fs w self block_id = (Ok data, t) ->
     len data = block_size).
Proof.
  split.
  - intros w self block_id block_type block_size seg_id segment name content
           Hloc Hfirst Hptr Hn Hc offset last_block_id Hoff.
    rewrite (get_block_located fs w self block_id block_type block_size seg_id segment
               Hloc Hfirst Hptr).
    fold offset. split.
    + intros Hcase Hsize data. subst data.
      now apply read_block_single.
    + intros Hlast Hleft name2 content2 Hn2 Hc2 data. subst data.
      now apply read_block_split.
  - intros w self block_id block_type block_size data t Hp H.
    eapply get_block_ok_len; eassumption.
Qed.

End ReadBlock.

(* ================================================================= *)
(** ** The decompression dispatcher *)

Lemma restore_bzip2_header_ok (data : bytes) :
  (3 <= length data)%nat ->
  restore_bzip2_header data
  = Ok (map byte_of_ascii ["B"; "Z"; "h"]%char ++ skipn 3 data).
Proof.
  destruct data as [|a [|b [|c rest]]]; cbn [length]; try lia.
  reflexivity.
Qed.

Section Dispatcher.
Variable fs : string -> option bytes.
Variables zlib_decompress bz2_decompress : bytes -> option bytes.

(** C5: [decompress_block] dispatches on the block's method tag.  Zeros: a
    buffer of [size] zero bytes, with no read at all.  Raw-Data: the
    locator's bytes as they are.  Zlib: the zlib decompression of the
    located bytes.  Bzip2: the located bytes with their first three bytes
    replaced by 'B', 'Z', 'h', then decompressed by bzip2.  A failure of the
    locator is the failure of the dispatcher. *)
Theorem decompress_block_dispatch w self block_id data_type size :
  py_index (chunk_pointers w self) block_id = Some (data_type, size) ->
  (data_type = Zeros -> 0 <= size ->
   decompress_block fs zlib_decompress bz2_decompress w self block_id
   = (Ok (Some (repeat x00 (Z.to_nat size))), [])) /\
  (data_type = Data -> forall data t,
   get_block fs w self block_id = (Ok data, t) ->
   decompress_block fs zlib_decompress bz2_decompress w self block_id
   = (Ok (Some data), t)) /\
  (data_type = Zlib -> forall data t,
   get_block fs w self block_id = (Ok data, t) ->
   decompress_block fs zlib_decompress bz2_decompress w self block_id
   = (match zlib_decompress data with
      | Some out => Ok (Some out)
      | None => Raise CodecError
      end, t)) /\
  (data_type = Bzip2 -> forall data t,
   get_block fs w self block_id = (Ok data, t) ->
   (3 <= length data)%nat ->
   decompress_block fs zlib_decompress bz2_decompress w self block_id
   = (match bz2_decompress (map byte_of_ascii ["B"; "Z"; "h"]%char ++ skipn 3 data) with
      | Some out => Ok (Some out)
      | None => Raise CodecError
      end, t)) /\
  (data_type <> Zeros -> forall e t,
   get_block fs w self block_id = (Raise e, t) ->
   decompress_block fs zlib_decompress bz2_decompress w self block_id = (Raise e, t)).
Proof.
  intros Hp. unfold decompress_block. rewrite Hp. cbn [of_option]. unfold liftIO.
  rewrite bindIO_ret_l.
  split; [|split; [|split; [|split]]].
  - intros -> Hs. cbn [Zeros Z.eqb]. now replace (size <? 0) with false by lia.
  - intros -> data t Hg. rewrite Hg. cbn. now rewrite app_nil_r.
  - intros -> data t Hg. rewrite Hg. cbn.
    destruct (zlib_decompress data); cbn; now rewrite app_nil_r.
  - intros -> data t Hg Hlen. rewrite Hg. cbn [Bzip2 Zeros Data Zlib Z.eqb Pos.eqb].
    cbn [bindIO]. rewrite (restore_bzip2_header_ok data Hlen).
    destruct (bz2_decompress _); cbn; now rewrite app_nil_r.
  - intros Hnz e t Hg. apply Z.eqb_neq in Hnz. rewrite Hnz, Hg. reflexivity.
Qed.

End Dispatcher.

(* ================================================================= *)
(** ** Verification of the compressed data *)

Section VerifyCompressed.
Variable fs : string -> option bytes.
Variable zlib_crc32 : bytes -> Z -> Z.

Lemma verify_isz_file_unfold w self :
  verify_isz_file fs zlib_crc32 w self =
    bindIO (forIO (range 0 (len (chunk_pointers w self))) (verify_body fs zlib_crc32 w self) 0)
           (fun crc => retIO (crc_final crc =? checksum2 (isz_header w self))).
Proof. reflexivity. Qed.

Lemma verify_body_zeros w self i crc :
  0 <= i < len (chunk_pointers w self) ->
  is_stored (chunk_pointers w self) i = false ->
  verify_body fs zlib_crc32 w self i crc = (Ok crc, []).
Proof.
  intros Hi Hs. unfold verify_body, is_stored in *.
  rewrite py_index_nonneg in * by lia.
  destruct (nth_error (chunk_pointers w self) (Z.to_nat i)) as [[t sz]|] eqn:E.
  - cbn [of_option]. unfold liftIO. rewrite bindIO_ret_l.
    change (t =? 0) with (t =? Zeros). now rewrite Hs.
  - apply nth_error_None in E. unfold len in Hi. lia.
Qed.

Lemma verify_body_stored w self i crc r t :
  is_stored (chunk_pointers w self) i = true ->
  get_block fs w self i = (r, t) ->
  verify_body fs zlib_crc32 w self i crc =
    (match r with
     | Ok data => Ok (crc_step zlib_crc32 data crc)
     | Raise e => Raise e
     end, t).
Proof.
  intros Hs Hg. unfold verify_body, is_stored in *.
  destruct (py_index (chunk_pointers w self) i) as [[ty sz]|] eqn:E; [|discriminate].
  cbn [of_option]. unfold liftIO. rewrite bindIO_ret_l.
  change (ty =? 0) with (ty =? Zeros). rewrite Hs, Hg.
  destruct r as [data|e]; [|reflexivity].
  unfold bindIO.
  rewrite (get_block_ok_len fs w self i ty sz data t E Hg), Z.eqb_refl.
  cbn. now rewrite app_nil_r.
Qed.

(** The loop over the ids still to visit, when every stored block is read. *)
Lemma verify_loop_ok w self (ids : list Z) :
  forall (ds : list bytes) (crc : Z),
    (forall i, In i ids -> 0 <= i < len (chunk_pointers w self)) ->
    Forall2 (fun i d => fst (get_block fs w self i) = Ok d)
            (filter (is_stored (chunk_pointers w self)) ids) ds ->
    forIO ids (verify_body fs zlib_crc32 w self) crc =
      (Ok (running_crc zlib_crc32 ds crc),
       flat_map (fun i => snd (get_block fs w self i))
                (filter (is_stored (chunk_pointers w self)) ids)).
Proof.
  induction ids as [|i rest IH]; intros ds crc Hids Hds.
  - cbn in Hds. inversion Hds. reflexivity.
  - cbn [forIO filter] in *.
    assert (Hi : 0 <= i < len (chunk_pointers w self)) by (apply Hids; now left).
    assert (Hrest : forall j, In j rest -> 0 <= j < len (chunk_pointers w self))
      by (intros j Hj; apply Hids; now right).
    destruct (is_stored (chunk_pointers w self) i) eqn:Es.
    + inversion Hds as [|i' d rest' ds' Hd Hds' E1 E2]. subst.
      destruct (get_block fs w self i) as [r t] eqn:Eg. cbn [fst] in Hd. subst r.
      rewrite (verify_body_stored w self i crc (Ok d) t Es Eg).
      cbn [bindIO]. rewrite (IH ds' _ Hrest Hds').
      cbn [flat_map running_crc fold_left]. rewrite Eg. reflexivity.
    + rewrite (verify_body_zeros w self i crc Hi Es), bindIO_ret_l.
      now apply IH.
Qed.

(** The loop when a stored block fails to be read. *)
Lemma verify_loop_raise w self (ids : list Z) :
  forall (ds : list bytes) (crc : Z) before k after e,
    (forall i, In i ids -> 0 <= i < len (chunk_pointers w self)) ->
    filter (is_stored (chunk_pointers w self)) ids = before ++ k :: after ->
    Forall2 (fun i d => fst (get_block fs w self i) = Ok d) before ds ->
    fst (get_block fs w self k) = Raise e ->
    fst (forIO ids (verify_body fs zlib_crc32 w self) crc) = Raise e.
Proof.
  induction ids as [|i rest IH]; intros ds crc before k after e Hids Hf Hds Hk.
  - cbn in Hf. destruct before; discriminate.
  - cbn [forIO filter] in *.
    assert (Hi : 0 <= i < len (chunk_pointers w self)) by (apply Hids; now left).
    assert (Hrest : forall j, In j rest -> 0 <= j < len (chunk_pointers w self))
      by (intros j Hj; apply Hids; now right).
    destruct (is_stored (chunk_pointers w self) i) eqn:Es.
    + destruct (get_block fs w self i) as [r t] eqn:Eg.
      rewrite (verify_body_stored w self i crc r t Es Eg).
      destruct before as [|b before']; cbn [app] in Hf; injection Hf as -> Hf.
      * rewrite Eg in Hk. cbn [fst] in Hk. subst r. reflexivity.
      * inversion Hds as [|b' d rest' ds' Hd Hds' E1 E2]. subst.
        rewrite Eg in Hd. cbn [fst] in Hd. subst r. cbn [bindIO].
        pose proof (IH ds' (crc_step zlib_crc32 d crc) before' k after e Hrest Hf Hds' Hk) as R.
        destruct (forIO rest (verify_body fs zlib_crc32 w self) (crc_step zlib_crc32 d crc)) as [r' t'].
        exact R.
    + rewrite (verify_body_zeros w self i crc Hi Es), bindIO_ret_l.
      eapply IH; eassumption.
Qed.

(** C3: [verify_isz_file] visits the block ids 0..count-1 in order, skips
    the Zeros blocks (no read is made for them), reads every other block
    through the locator without decompressing it, folds the blocks read into
    a CRC32 running from 0, and returns whether the complemented accumulator
    (mod 2^32) equals [checksum2] -- [false], not an exception, when they
    differ.  A block the locator fails to read (its length differs from the
    declared size) makes the verification raise that error. *)
Theorem verify_isz_file_spec w self :
  (forall ds,
     Forall2 (fun i d => fst (get_block fs w self i) = Ok d)
             (filter (is_stored (chunk_pointers w self))
                     (range 0 (len (chunk_pointers w self)))) ds ->
     verify_isz_file fs zlib_crc32 w self =
       (Ok (Z.land (Z.lnot (running_crc zlib_crc32 ds 0)) 0xffffffff
            =? checksum2 (isz_header w self)),
        flat_map (fun i => snd (get_block fs w self i))
                 (filter (is_stored (chunk_pointers w self))
                         (range 0 (len (chunk_pointers w self))))) /\
     (Z.land (Z.lnot (running_crc zlib_crc32 ds 0)) 0xffffffff
        <> checksum2 (isz_header w self) ->
      fst (verify_isz_file fs zlib_crc32 w self) = Ok false)) /\
  (forall before k after ds e,
     filter (is_stored (chunk_pointers w self)) (range 0 (len (chunk_pointers w self)))
       = before ++ k :: after ->
     Forall2 (fun i d => fst (get_block fs w self i) = Ok d) before ds ->
     fst (get_block fs w self k) = Raise e ->
     fst (verify_isz_file fs zlib_crc32 w self) = Raise e).
Proof.
  assert (Hids : forall i, In i (range 0 (len (chunk_pointers w self))) ->
                           0 <= i < len (chunk_pointers w self))
    by (intros i Hi; now apply in_range in Hi).
  rewrite verify_isz_file_unfold. split.
  - intros ds Hds. rewrite (verify_loop_ok w self _ ds 0 Hids Hds).
    cbn [bindIO retIO fst]. rewrite app_nil_r. unfold crc_final. split; [reflexivity|].
    intros Hne. apply Z.eqb_neq in Hne. now rewrite Hne.
  - intros before k after ds e Hf Hds Hk.
    pose proof (verify_loop_raise w self _ ds 0 before k after e Hids Hf Hds Hk) as R.
    destruct (forIO _ _ _) as [r t]. cbn [fst] in R. subst r. reflexivity.
Qed.

End VerifyCompressed.

(* ================================================================= *)
(** ** Verification of the uncompressed data, and extraction *)

Lemma reads_app (t1 t2 : list event) : reads (t1 ++ t2) = reads t1 ++ reads t2.
Proof. apply filter_app. Qed.

Lemma written_app (name : string) (t1 t2 : list event) :
  written name (t1 ++ t2) = written name t1 ++ written name t2.
Proof.
  induction t1 as [|ev rest IH]; cbn [app written]; [reflexivity|].
  destruct ev; try exact IH.
  destruct (String.eqb name0 name); [|exact IH].
  now rewrite IH, app_assoc.
Qed.

Lemma written_reads (name : string) (t : list event) :
  reads t = t -> written name t = [].
Proof.
  induction t as [|ev rest IH]; intros H; [reflexivity|].
  unfold reads in H. cbn [filter] in H.
  destruct ev; cbn [is_read] in H.
  - injection H as H. cbn [written]. now apply IH.
  - exfalso. pose proof (filter_length_le is_read rest) as L.
    rewrite H in L. cbn [length] in L. lia.
  - exfalso. pose proof (filter_length_le is_read rest) as L.
    rewrite H in L. cbn [length] in L. lia.
  - exfalso. pose proof (filter_length_le is_read rest) as L.
    rewrite H in L. cbn [length] in L. lia.
Qed.

Lemma reads_only_lift {A} (r : result A) : reads_only (liftIO r).
Proof. reflexivity. Qed.

Lemma reads_only_ret {A} (a : A) : reads_only (retIO a).
Proof. reflexivity. Qed.

Lemma reads_only_raise {A} (e : exn) : reads_only (@raiseIO A e).
Proof. reflexivity. Qed.

Lemma reads_only_bind {A B} (m : IO A) (k : A -> IO B) :
  reads_only m -> (forall a, reads_only (k a)) -> reads_only (bindIO m k).
Proof.
  unfold reads_only. destruct m as [[a|e] t1]; cbn [bindIO snd]; intros Hm Hk.
  - specialize (Hk a). destruct (k a) as [r t2]. cbn [snd] in *.
    now rewrite reads_app, Hm, Hk.
  - exact Hm.
Qed.

Lemma bindIO_ext {A B} (m : IO A) (k1 k2 : A -> IO B) :
  (forall a, k1 a = k2 a) -> bindIO m k1 = bindIO m k2.
Proof. intros H. destruct m as [[a|e] t]; cbn [bindIO]; [now rewrite H|reflexivity]. Qed.

Lemma forIO_ext {A S} (l : list A) (f g : A -> S -> IO S) :
  (forall a s, f a s = g a s) -> forall s, forIO l f s = forIO l g s.
Proof.
  intros H. induction l as [|a rest IH]; intros s; cbn [forIO]; [reflexivity|].
  rewrite H. destruct (g a s) as [[s'|e] t]; cbn [bindIO]; [|reflexivity].
  now rewrite IH.
Qed.

(* ================================================================= *)
(** ** Extraction to a file that is no segment file *)

Lemma read_data_fs_ext (fs1 fs2 : string -> option bytes) w self seg_id offset size :
  (forall name, get_segment_name w self seg_id = Ok name -> fs1 name = fs2 name) ->
  read_data fs1 w self seg_id offset size = read_data fs2 w self seg_id offset size.
Proof.
  intros H. unfold read_data.
  destruct (get_segment_name w self seg_id) as [name|e]; [|reflexivity].
  unfold liftIO. rewrite !bindIO_ret_l. now rewrite (H name eq_refl).
Qed.

Lemma read_block_fs_ext (fs1 fs2 : string -> option bytes) w self block_id block_size
      seg_id segment cur_offset :
  (forall s name, seg_id <= s <= seg_id + 1 ->
     get_segment_name w self s = Ok name -> fs1 name = fs2 name) ->
  read_block fs1 w self block_id block_size seg_id segment cur_offset
  = read_block fs2 w self block_id block_size seg_id segment cur_offset.
Proof.
  intros H. unfold read_block.
  rewrite (read_data_fs_ext fs1 fs2 w self seg_id) by (intros name; apply H; lia).
  apply bindIO_ext. intros data.
  rewrite (read_data_fs_ext fs1 fs2 w self (seg_id + 1)) by (intros name; apply H; lia).
  reflexivity.
Qed.

Lemma scan_segments_fs_ext (fs1 fs2 : string -> option bytes) w self block_id block_size
      (segs : list ISZ_sdt) :
  forall seg_id,
    (forall s name, seg_id <= s <= seg_id + len segs ->
       get_segment_name w self s = Ok name -> fs1 name = fs2 name) ->
    scan_segments fs1 w self block_id block_size segs seg_id
    = scan_segments fs2 w self block_id block_size segs seg_id.
Proof.
  induction segs as [|segment rest IH]; intros seg_id H; cbn [scan_segments];
    [reflexivity|].
  assert (Hl : len (segment :: rest) = len rest + 1) by (unfold len; cbn [length]; lia).
  destruct (_ && _).
  - apply bindIO_ext. intros off. apply read_block_fs_ext.
    intros s name Hs. apply H. pose proof (Zle_0_nat (length rest)). unfold len in *. lia.
  - apply IH. intros s name Hs. apply H. lia.
Qed.

Lemma get_block_fs_ext (fs1 fs2 : string -> option bytes) w self block_id :
  (forall s name, 0 <= s <= len (isz_segments w self) ->
     get_segment_name w self s = Ok name -> fs1 name = fs2 name) ->
  get_block fs1 w self block_id = get_block fs2 w self block_id.
Proof.
  intros H. unfold get_block. apply bindIO_ext. intros [ty sz].
  now apply scan_segments_fs_ext.
Qed.

Lemma decompress_block_fs_ext (fs1 fs2 : string -> option bytes) zlib_decompress
      bz2_decompress w self block_id :
  (forall s name, 0 <= s <= len (isz_segments w self) ->
     get_segment_name w self s = Ok name -> fs1 name = fs2 name) ->
  decompress_block fs1 zlib_decompress bz2_decompress w self block_id
  = decompress_block fs2 zlib_decompress bz2_decompress w self block_id.
Proof.
  intros H. unfold decompress_block. apply bindIO_ext. intros [ty sz].
  now rewrite (get_block_fs_ext fs1 fs2 w self block_id H).
Qed.

Section ExtractionToAFile.
Variable fs : string -> option bytes.
Variable zlib_crc32 : bytes -> Z -> Z.
Variables zlib_decompress bz2_decompress : bytes -> option bytes.
Variable flushed : list bytes -> nat.

(** The blocks decompress as before the destination was opened. *)
Lemma decompress_block_while_extracting w self filename writes block_id :
  not_a_segment_file w self filename ->
  decompress_block (fs_while_extracting fs flushed filename writes)
    zlib_decompress bz2_decompress w self block_id
  = decompress_block fs zlib_decompress bz2_decompress w self block_id.
Proof.
  intros H. apply decompress_block_fs_ext. intros s name Hs Hn.
  unfold fs_while_extracting.
  destruct (String.eqb_spec name filename) as [->|]; [|reflexivity].
  now apply H in Hs.
Qed.

Lemma extract_loop_stream w self filename (ids : list Z) :
  not_a_segment_file w self filename ->
  forall crc writes,
    match forIO ids (extract_body fs zlib_crc32 zlib_decompress bz2_decompress flushed
                       w self filename) (crc, writes) with
    | (Ok st, t) => (Ok (fst st), t)
    | (Raise e, t) => (Raise e, t)
    end
    = forIO ids (stream_body fs zlib_crc32 zlib_decompress bz2_decompress w self filename) crc.
Proof.
  intros H. induction ids as [|i rest IH]; intros crc writes; cbn [forIO]; [reflexivity|].
  unfold extract_body at 1, stream_body at 1.
  rewrite (decompress_block_while_extracting w self filename writes i H).
  destruct (decompress_block fs zlib_decompress bz2_decompress w self i) as [[[d|]|e] t];
    cbn [bindIO emit retIO raiseIO app]; try reflexivity.
  specialize (IH (crc_step zlib_crc32 d crc) (writes ++ [d])).
  destruct (forIO rest (extract_body _ _ _ _ _ _ _ _) _) as [[st|e1] t1];
    destruct (forIO rest (stream_body _ _ _ _ _ _ _) _) as [[c|e2] t2];
    try discriminate; now injection IH as -> ->.
Qed.

(** For a destination that is no segment file, the extraction is the one
    onto a stream of its own. *)
Lemma extract_to_stream w self filename :
  not_a_segment_file w self filename ->
  extract_to fs zlib_crc32 zlib_decompress bz2_decompress flushed w self filename
  = extract_stream fs zlib_crc32 zlib_decompress bz2_decompress w self filename.
Proof.
  intros H. unfold extract_to, extract_stream.
  apply bindIO_ext. intros _.
  pose proof (extract_loop_stream w self filename
                (range 0 (len (chunk_pointers w self))) H 0 []) as E.
  destruct (forIO _ (extract_body _ _ _ _ _ _ _ _) _) as [[st|e1] t1];
    destruct (forIO _ (stream_body _ _ _ _ _ _ _) _) as [[c|e2] t2];
    try discriminate; injection E as <- <-; reflexivity.
Qed.

End ExtractionToAFile.

(* ================================================================= *)
(** ** Verification of the decompressed data, and extraction *)

Section Decompressed.
Variable fs : string -> option bytes.
Variable zlib_crc32 : bytes -> Z -> Z.
Variables zlib_decompress bz2_decompress : bytes -> option bytes.
Variable flushed : list bytes -> nat.

Lemma reads_only_read_data w self seg_id offset size :
  reads_only (read_data fs w self seg_id offset size).
Proof.
  unfold read_data. apply reads_only_bind; [apply reads_only_lift|intros name].
  apply reads_only_bind; [apply reads_only_lift|intros content].
  apply reads_only_bind; [reflexivity|intros _; apply reads_only_lift].
Qed.

Lemma reads_only_read_block w self block_id block_size seg_id segment cur_offset :
  reads_only (read_block fs w self block_id block_size seg_id segment cur_offset).
Proof.
  unfold read_block. apply reads_only_bind; [apply reads_only_read_data|intros data].
  apply reads_only_bind.
  - destruct (_ && _); [|apply reads_only_ret].
    apply reads_only_bind; [apply reads_only_read_data|intros; apply reads_only_ret].
  - intros d. destruct (negb _); [apply reads_only_raise|apply reads_only_ret].
Qed.

Lemma reads_only_get_block w self block_id : reads_only (get_block fs w self block_id).
Proof.
  unfold get_block. apply reads_only_bind; [apply reads_only_lift|intros [ty sz]].
  generalize 0 at 1. induction (isz_segments w self) as [|s rest IH]; intros seg_id;
    cbn [scan_segments].
  - apply reads_only_raise.
  - destruct (_ && _); [|apply IH].
    apply reads_only_bind; [apply reads_only_lift|intros; apply reads_only_read_block].
Qed.

Lemma reads_only_decompress_block w self block_id :
  reads_only (decompress_block fs zlib_decompress bz2_decompress w self block_id).
Proof.
  unfold decompress_block. apply reads_only_bind; [apply reads_only_lift|intros [ty sz]].
  destruct (ty =? Zeros).
  - destruct (sz <? 0); [apply reads_only_raise|apply reads_only_ret].
  - apply reads_only_bind; [apply reads_only_get_block|intros data].
    destruct (ty =? Data); [apply reads_only_ret|].
    destruct (ty =? Zlib).
    + apply reads_only_bind; [apply reads_only_lift|intros; apply reads_only_ret].
    + destruct (ty =? Bzip2); [|apply reads_only_ret].
      apply reads_only_bind; [apply reads_only_lift|intros d].
      apply reads_only_bind; [apply reads_only_lift|intros; apply reads_only_ret].
Qed.

(** Both loops on the same ids from the same accumulator: the same outcome
    and the same reads, whether or not a block fails. *)
Lemma extract_loop_traversal w self filename (ids : list Z) :
  forall crc,
    fst (forIO ids (stream_body fs zlib_crc32 zlib_decompress bz2_decompress w self filename) crc)
    = fst (forIO ids (uncompress_body fs zlib_crc32 zlib_decompress bz2_decompress w self) crc) /\
    reads (snd (forIO ids (stream_body fs zlib_crc32 zlib_decompress bz2_decompress w self filename) crc))
    = snd (forIO ids (uncompress_body fs zlib_crc32 zlib_decompress bz2_decompress w self) crc).
Proof.
  induction ids as [|i rest IH]; intros crc; cbn [forIO]; [now split|].
  unfold stream_body at 1 3, uncompress_body at 1 3.
  pose proof (reads_only_decompress_block w self i) as Hr. unfold reads_only in Hr.
  destruct (decompress_block fs zlib_decompress bz2_decompress w self i) as [[[d|]|e] t].
  - cbn [snd] in Hr. cbn [bindIO emit retIO app].
    destruct (IH (crc_step zlib_crc32 d crc)) as [IH1 IH2].
    destruct (forIO rest (stream_body fs zlib_crc32 zlib_decompress bz2_decompress w self filename) _) as [r1 t1].
    destruct (forIO rest (uncompress_body fs zlib_crc32 zlib_decompress bz2_decompress w self) _) as [r2 t2].
    cbn [fst snd] in *. split; [exact IH1|].
    rewrite !app_nil_r, !reads_app, Hr, IH2.
    unfold reads at 1. cbn [filter is_read]. now rewrite app_nil_r.
  - cbn. rewrite !app_nil_r. now split.
  - cbn. now split.
Qed.

(** The loops when every block decompresses. *)
Lemma uncompress_loop_ok w self (ids : list Z) :
  forall (ds : list bytes) crc,
    Forall2 (fun i d => fst (decompress_block fs zlib_decompress bz2_decompress w self i)
                        = Ok (Some d)) ids ds ->
    fst (forIO ids (uncompress_body fs zlib_crc32 zlib_decompress bz2_decompress w self) crc) = Ok (running_crc zlib_crc32 ds crc).
Proof.
  induction ids as [|i rest IH]; intros ds crc Hds; inversion Hds as [|i' d r' ds' Hd Hds' E1 E2];
    subst; [reflexivity|].
  cbn [forIO]. unfold uncompress_body at 1.
  destruct (decompress_block fs zlib_decompress bz2_decompress w self i) as [r t].
  cbn [fst] in Hd. subst r. cbn [bindIO retIO].
  specialize (IH ds' (crc_step zlib_crc32 d crc) Hds').
  destruct (forIO rest (uncompress_body fs zlib_crc32 zlib_decompress bz2_decompress w self) _) as [r2 t2]. exact IH.
Qed.

Lemma extract_loop_written w self filename (ids : list Z) :
  forall (ds : list bytes) crc,
    Forall2 (fun i d => fst (decompress_block fs zlib_decompress bz2_decompress w self i)
                        = Ok (Some d)) ids ds ->
    written filename (snd (forIO ids (stream_body fs zlib_crc32 zlib_decompress bz2_decompress w self filename) crc)) = concat ds.
Proof.
  induction ids as [|i rest IH]; intros ds crc Hds; inversion Hds as [|i' d r' ds' Hd Hds' E1 E2];
    subst; [reflexivity|].
  cbn [forIO]. unfold stream_body at 1.
  pose proof (reads_only_decompress_block w self i) as Hr. unfold reads_only in Hr.
  destruct (decompress_block fs zlib_decompress bz2_decompress w self i) as [r t].
  cbn [fst snd] in Hd, Hr. subst r. cbn [bindIO emit retIO app].
  specialize (IH ds' (crc_step zlib_crc32 d crc) Hds').
  destruct (forIO rest (stream_body fs zlib_crc32 zlib_decompress bz2_decompress w self filename) _) as [r2 t2]. cbn [snd] in *.
  rewrite !written_app, (written_reads filename t Hr). cbn [written app concat].
  now rewrite String.eqb_refl, app_nil_r, IH.
Qed.

Lemma decompress_block_zeros w self block_id size :
  py_index (chunk_pointers w self) block_id = Some (Zeros, size) ->
  decompress_block fs zlib_decompress bz2_decompress w self block_id
  = if size <? 0 then (Raise ValueError, [])
    else (Ok (Some (repeat x00 (Z.to_nat size))), []).
Proof.
  intros Hp. unfold decompress_block. rewrite Hp. cbn [of_option]. unfold liftIO.
  rewrite bindIO_ret_l. cbn [Zeros Z.eqb]. now destruct (size <? 0).
Qed.

Lemma nth_error_range (n i : Z) :
  0 <= i < n -> nth_error (range 0 n) (Z.to_nat i) = Some i.
Proof.
  intros H. unfold range. rewrite nth_error_map, nth_error_seq.
  replace (Z.to_nat i <? Z.to_nat (n - 0))%nat with true
    by (symmetry; apply Nat.ltb_lt; lia).
  cbn. f_equal. lia.
Qed.

Lemma Forall2_nth_error_l {A B} (P : A -> B -> Prop) (l : list A) (l' : list B) :
  Forall2 P l l' ->
  forall k a, nth_error l k = Some a -> exists b, nth_error l' k = Some b /\ P a b.
Proof.
  induction 1 as [|x y l l' Hxy _ IH]; intros k a Hk.
  - destruct k; discriminate.
  - destruct k as [|k]; cbn [nth_error] in *.
    + injection Hk as <-. now exists y.
    + now apply IH.
Qed.

Lemma verify_uncompress_unfold w self :
  verify_uncompress_isz_file fs zlib_crc32 zlib_decompress bz2_decompress w self =
    bindIO (forIO (range 0 (len (chunk_pointers w self))) (uncompress_body fs zlib_crc32 zlib_decompress bz2_decompress w self) 0)
           (fun crc => retIO (crc_final crc =? checksum1 (isz_header w self))).
Proof. reflexivity. Qed.

Lemma extract_stream_unfold w self filename :
  extract_stream fs zlib_crc32 zlib_decompress bz2_decompress w self filename =
    bindIO (emit (EvCreate filename)) (fun _ =>
    bindIO (forIO (range 0 (len (chunk_pointers w self)))
                  (stream_body fs zlib_crc32 zlib_decompress bz2_decompress w self filename) 0) (fun crc =>
    bindIO (emit (EvClose filename)) (fun _ =>
      if negb (crc_final crc =? checksum1 (isz_header w self)) then raiseIO CRCError
      else retIO tt))).
Proof. reflexivity. Qed.

(** [extract_to] in terms of its loop. *)
Lemma extract_stream_of_loop w self filename :
  extract_stream fs zlib_crc32 zlib_decompress bz2_decompress w self filename =
    match forIO (range 0 (len (chunk_pointers w self))) (stream_body fs zlib_crc32 zlib_decompress bz2_decompress w self filename) 0 with
    | (Ok crc, t) =>
        ((if crc_final crc =? checksum1 (isz_header w self) then Ok tt else Raise CRCError),
         EvCreate filename :: t ++ [EvClose filename])
    | (Raise e, t) => (Raise e, EvCreate filename :: t)
    end.
Proof.
  rewrite extract_stream_unfold.
  destruct (forIO _ _ _) as [[crc|e] t]; [|reflexivity].
  cbn [bindIO emit app].
  destruct (crc_final crc =? checksum1 (isz_header w self)); reflexivity.
Qed.

Lemma reads_create_close filename (t : list event) :
  reads (EvCreate filename :: t ++ [EvClose filename]) = reads t.
Proof.
  unfold reads. cbn [filter is_read]. rewrite filter_app. cbn. apply app_nil_r.
Qed.

Lemma written_create_close filename (t : list event) :
  written filename (EvCreate filename :: t ++ [EvClose filename]) = written filename t.
Proof.
  cbn [written]. rewrite written_app. cbn. apply app_nil_r.
Qed.

(** C4: [verify_uncompress_isz_file] decompresses every block 0..count-1 in
    order -- Zeros blocks included, their zero bytes folded into the running
    CRC32 -- and returns whether the complemented accumulator equals
    [checksum1].  [extract_to] makes the same traversal (same reads, same
    outcome of the blocks), writes each decompressed block to the
    destination in block order, and raises the CRC error after the full
    pass exactly when that CRC differs from [checksum1]; what was written
    stays written.  The destination is a file of its own: it names none of
    the segment files, which line 350 would truncate before they are read. *)
Theorem verify_uncompress_and_extract w self filename :
  not_a_segment_file w self filename ->
  (fst (extract_to fs zlib_crc32 zlib_decompress bz2_decompress flushed w self filename)
   = match fst (verify_uncompress_isz_file fs zlib_crc32 zlib_decompress bz2_decompress w self) with
     | Ok true => Ok tt
     | Ok false => Raise CRCError
     | Raise e => Raise e
     end /\
   reads (snd (extract_to fs zlib_crc32 zlib_decompress bz2_decompress flushed w self filename))
   = snd (verify_uncompress_isz_file fs zlib_crc32 zlib_decompress bz2_decompress w self)) /\
  (forall ds,
     Forall2 (fun i d => fst (decompress_block fs zlib_decompress bz2_decompress w self i)
                         = Ok (Some d))
             (range 0 (len (chunk_pointers w self))) ds ->
     fst (verify_uncompress_isz_file fs zlib_crc32 zlib_decompress bz2_decompress w self)
     = Ok (Z.land (Z.lnot (running_crc zlib_crc32 ds 0)) 0xffffffff
           =? checksum1 (isz_header w self)) /\
     fst (extract_to fs zlib_crc32 zlib_decompress bz2_decompress flushed w self filename)
     = (if Z.land (Z.lnot (running_crc zlib_crc32 ds 0)) 0xffffffff
           =? checksum1 (isz_header w self)
        then Ok tt else Raise CRCError) /\
     written filename
       (snd (extract_to fs zlib_crc32 zlib_decompress bz2_decompress flushed w self filename))
     = concat ds /\
     (forall i size,
        0 <= i ->
        nth_error (chunk_pointers w self) (Z.to_nat i) = Some (Zeros, size) ->
        nth_error ds (Z.to_nat i) = Some (repeat x00 (Z.to_nat size)))).
Proof.
  intros Hdest.
  rewrite (extract_to_stream fs zlib_crc32 zlib_decompress bz2_decompress flushed w self
             filename Hdest).
  split.
  - rewrite extract_stream_of_loop, verify_uncompress_unfold.
    destruct (extract_loop_traversal w self filename
                (range 0 (len (chunk_pointers w self))) 0) as [E1 E2].
    destruct (forIO _ (stream_body fs zlib_crc32 zlib_decompress bz2_decompress w self filename) 0) as [r1 t1].
    destruct (forIO _ (uncompress_body fs zlib_crc32 zlib_decompress bz2_decompress w self) 0) as [r2 t2].
    cbn [fst snd] in E1, E2. subst r2 t2.
    destruct r1 as [crc|e]; cbn [bindIO retIO fst snd].
    + rewrite reads_create_close, app_nil_r.
      split; [|reflexivity].
      now destruct (crc_final crc =? checksum1 (isz_header w self)).
    + split; reflexivity.
  - intros ds Hds.
    pose proof (uncompress_loop_ok w self _ ds 0 Hds) as Hv.
    pose proof (extract_loop_written w self filename _ ds 0 Hds) as Hw.
    destruct (extract_loop_traversal w self filename
                (range 0 (len (chunk_pointers w self))) 0) as [E1 _].
    rewrite Hv in E1.
    rewrite extract_stream_of_loop, verify_uncompress_unfold.
    destruct (forIO _ (stream_body fs zlib_crc32 zlib_decompress bz2_decompress w self filename) 0) as [r1 t1].
    destruct (forIO _ (uncompress_body fs zlib_crc32 zlib_decompress bz2_decompress w self) 0) as [r2 t2].
    cbn [fst snd] in *. subst r1 r2. cbn [bindIO retIO fst snd].
    rewrite written_create_close. unfold crc_final.
    repeat split; try assumption.
    intros i size Hi Hp.
    assert (Hlt : 0 <= i < len (chunk_pointers w self)).
    { split; [exact Hi|]. unfold len.
      assert (Z.to_nat i < length (chunk_pointers w self))%nat
        by (apply nth_error_Some; congruence).
      lia. }
    destruct (Forall2_nth_error_l _ _ _ Hds _ _ (nth_error_range _ _ Hlt)) as [d [Hd Hdec]].
    rewrite Hd. rewrite (decompress_block_zeros w self i size) in Hdec
      by (now rewrite py_index_nonneg).
    destruct (size <? 0); cbn [fst] in Hdec; [discriminate|].
    now injection Hdec as <-.
Qed.

End Decompressed.

(* ================================================================= *)
(** ** Two handles: what an open leaves alone, and what it does not *)

Ltac tables_frame :=
  intros; unfold tables_seen, append_isz_segment, append_chunk_pointer,
    assign_isz_segments, assign_chunk_pointers, set_name_generator, set_filename,
    set_fp, set_header, set_object;
  repeat match goal with
         | |- context [own_isz_segments (objects ?w ?i)] =>
             is_var w; destruct (own_isz_segments (objects w i)) eqn:?
         | |- context [own_chunk_pointers (objects ?w ?i)] =>
             is_var w; destruct (own_chunk_pointers (objects w i)) eqn:?
         end;
  cbn;
  repeat match goal with
         | |- context [Nat.eqb ?a ?a] => rewrite (Nat.eqb_refl a); cbn
         | H : ?a <> ?b |- context [Nat.eqb ?a ?b] =>
             rewrite (proj2 (Nat.eqb_neq a b) H); cbn
         | H : ?x = _ |- context [?x] => rewrite H; cbn
         end;
  try reflexivity.

Section TwoHandles.
Variable fs : string -> option bytes.
Variables self other : nat.
Hypothesis distinct : other <> self.

Lemma keeps_tables_opening (name : string) :
  keeps (tables_seen self other)
    (bindM (modifyM (set_filename self name)) (fun _ =>
     bindM (liftM (of_option (fs name) (FileNotFoundError name))) (fun data =>
     bindM (modifyM (set_fp self (Some (mk_file data 0)))) (fun _ =>
     bindM (read_header self) (fun _ =>
     bindM (getM (fun w => isz_header w self)) (fun hdr =>
       if negb (file_seg_number hdr =? 0) then raiseM NotFirstSegment
       else bindM (read_segments fs self) (fun _ => read_chunk_pointers self))))))).
Proof.
  apply keeps_bind; [apply keeps_modify; tables_frame|intros _].
  apply keeps_bind; [apply keeps_lift|intros data].
  apply keeps_bind; [apply keeps_modify; tables_frame|intros _].
  apply keeps_bind; [apply keeps_read_header; tables_frame|intros _].
  apply keeps_bind; [apply keeps_get|intros hdr].
  destruct (negb (file_seg_number hdr =? 0)); [apply keeps_raise|].
  apply keeps_bind; [apply keeps_read_segments; tables_frame|intros _].
  apply keeps_read_chunk_pointers; tables_frame.
Qed.

(** Opening [self] leaves the segment and chunk pointer sequences of every
    other handle as they were, whether the open succeeds or raises. *)
Lemma open_isz_file_frame (name : string) (w : World) r w' :
  open_isz_file fs self name w = (r, w') ->
  isz_segments w' other = isz_segments w other /\
  chunk_pointers w' other = chunk_pointers w other.
Proof.
  intros H. unfold open_isz_file, close_file in H.
  unfold bindM at 1 2 3, modifyM at 1 2 3 in H.
  apply (keeps_tables_opening name) in H.
  assert (E : tables_seen self other w'
              = Some (objects w other, cls_isz_segments w, cls_chunk_pointers w)).
  { rewrite H. unfold tables_seen, assign_isz_segments, assign_chunk_pointers,
      set_fp, set_object. cbn. rewrite !Nat.eqb_refl. cbn.
    now rewrite (proj2 (Nat.eqb_neq other self) distinct). }
  unfold tables_seen in E.
  destruct (own_isz_segments (objects w' self)); [|discriminate].
  destruct (own_chunk_pointers (objects w' self)); [|discriminate].
  injection E as E1 E2 E3.
  unfold isz_segments, chunk_pointers. now rewrite E1, E2, E3.
Qed.

End TwoHandles.

(* ================================================================= *)
(** ** The segment table loop terminates within its fuel *)

Lemma fp_append_isz_segment self seg w :
  fp (objects (append_isz_segment self seg w) self) = fp (objects w self).
Proof.
  unfold append_isz_segment, assign_isz_segments, set_object.
  destruct (own_isz_segments (objects w self)); cbn; [|reflexivity].
  now rewrite Nat.eqb_refl.
Qed.

Lemma read_segment_step self w f :
  fp (objects w self) = Some f ->
  exists r w',
    read_segment self w = (r, w') /\
    (forall seg, r = Ok seg ->
       (24 <= length (f_data f) - f_pos f)%nat /\
       fp (objects w' self) = Some (mk_file (f_data f) (f_pos f + 24))).
Proof.
  intros Hf. unfold read_segment, bindM, fp_read, liftM. rewrite Hf.
  eexists. eexists. split; [reflexivity|].
  intros seg Hr. unfold sdt_from_buffer_copy, xor_obfuscate in Hr.
  rewrite xor_from_length in Hr.
  destruct (length (slice (f_data f) (f_pos f) (Z.to_nat 24)) <? 24)%nat eqn:E;
    [discriminate|].
  apply Nat.ltb_ge in E. unfold slice in *.
  rewrite length_firstn, length_skipn in *. change (Z.to_nat 24) with 24%nat in *.
  split; [lia|].
  unfold set_fp, set_object. cbn [objects fp]. rewrite Nat.eqb_refl. cbn [fp].
  apply f_equal. apply f_equal.
  rewrite ?length_firstn, ?length_skipn. lia.
Qed.

Lemma read_segments_loop_fuel self (fuel : nat) :
  forall seg w f,
    fp (objects w self) = Some f ->
    (length (f_data f) - f_pos f < 24 * fuel)%nat ->
    fst (read_segments_loop fuel self seg w) <> Raise OutOfFuel.
Proof.
  induction fuel as [|fuel IH]; intros seg w f Hf Hrem; [lia|].
  cbn [read_segments_loop]. destruct (sdt_size seg =? 0); [discriminate|].
  unfold bindM at 1, modifyM.
  pose proof (fp_append_isz_segment self seg w) as Hfp. rewrite Hf in Hfp.
  destruct (read_segment_step self _ f Hfp) as (r & w' & Hr & Hok).
  unfold bindM at 1. rewrite Hr.
  destruct r as [seg'|e].
  - destruct (Hok seg' eq_refl) as [Hlen Hfp'].
    apply (IH seg' w' _ Hfp'). cbn [f_data f_pos]. lia.
  - cbn [fst]. intros C. injection C as ->.
    unfold read_segment, bindM, fp_read, liftM in Hr. rewrite Hfp in Hr.
    unfold sdt_from_buffer_copy in Hr.
    destruct (_ <? _)%nat in Hr; discriminate.
Qed.

(** Parsing the segment table never runs out of fuel: the loop of lines
    221-223 ends, by a terminating record or by the exception of a record
    cut short by the end of the file. *)
Theorem read_segment_table_fuel self w :
  fst (read_segment_table self w) <> Raise OutOfFuel.
Proof.
  unfold read_segment_table, bindM at 1, getM.
  destruct (segment_pointers_offset (isz_header w self) =? 0); [discriminate|].
  unfold bindM at 1, fp_seek.
  destruct (fp (objects w self)) as [f|] eqn:Hf; [|discriminate].
  set (w0 := set_fp self _ w).
  assert (Hf0 : fp (objects w0 self)
                = Some (mk_file (f_data f)
                          (Z.to_nat (segment_pointers_offset (isz_header w self))))).
  { unfold w0, set_fp, set_object. cbn. now rewrite Nat.eqb_refl. }
  destruct (read_segment_step self w0 _ Hf0) as (r & w1 & Hr & Hok).
  unfold bindM at 1. rewrite Hr. destruct r as [seg|e].
  - destruct (Hok seg eq_refl) as [Hlen Hfp1]. cbn [f_data f_pos] in *.
    unfold bindM, getM. rewrite Hfp1. cbn [f_data].
    apply (read_segments_loop_fuel self _ seg w1 _ Hfp1). cbn [f_data f_pos]. lia.
  - cbn [fst]. intros C. injection C as ->.
    unfold read_segment, bindM, fp_read, liftM in Hr. rewrite Hf0 in Hr.
    unfold sdt_from_buffer_copy in Hr.
    destruct (_ <? _)%nat in Hr; discriminate.
Qed.

(* ================================================================= *)
(** ** The sample containers *)

(** C7, as first stated, fails on a header that declares 2^31 blocks: the
    open succeeds, the header has no segment table, and the one descriptor
    synthesized counts -2^31 blocks, not the header's 2^31. *)
Lemma synthetic_descriptor_count_wraps :
  fst (open_isz_file Examples.huge_fs 0 "huge.isz" initial_world) = Ok tt /\
  segment_pointers_offset (isz_header Examples.huge_world 0) = 0 /\
  nblock (isz_header Examples.huge_world 0) = 2147483648 /\
  isz_segments Examples.huge_world 0 = [mk_sdt 0 (-2147483648) 0 64 0].
Proof. vm_compute. repeat split. Qed.

(** C10: the segment and chunk pointer sequences of a handle are its own --
    opening another handle never changes them -- but the header is the one
    object of the class: after handle 0 opens [plain.isz] and handle 1 opens
    [other.isz], the header handle 0 sees is that of [other.isz], and the
    verification of handle 0, which passed, now fails. *)
Theorem handles_share_the_header :
  (forall fs self other name w r w',
     other <> self ->
     open_isz_file fs self name w = (r, w') ->
     isz_segments w' other = isz_segments w other /\
     chunk_pointers w' other = chunk_pointers w other) /\
  fst (open_isz_file Examples.sample_fs 0 "plain.isz" initial_world) = Ok tt /\
  fst (open_isz_file Examples.sample_fs 1 "other.isz" Examples.plain_world) = Ok tt /\
  isz_header Examples.plain_world 0 = firstn 64 Examples.plain_file /\
  isz_header Examples.both_world 0 = firstn 64 Examples.other_file /\
  checksum2 (isz_header Examples.plain_world 0) = 2856550370 /\
  checksum2 (isz_header Examples.both_world 0) = 2670479226 /\
  fst (verify_isz_file Examples.sample_fs Examples.crc32 Examples.plain_world 0) = Ok true /\
  fst (verify_isz_file Examples.sample_fs Examples.crc32 Examples.both_world 0) = Ok false.
Proof.
  split.
  - intros fs self other name w r w' Hd H.
    exact (open_isz_file_frame fs self other Hd name w r w' H).
  - vm_compute. repeat split.
Qed.

Lemma xor_obfuscate_self_inverse_witness :
  exists b',
    nth_error (xor_obfuscate [x49; x73; x5a; x21; x40]) 4 = Some b' /\
    byte_val b' = Z.lxor (byte_val x40) (nth (4 mod 4) code 0).
Proof.
  apply (proj2 (proj2 (proj2 xor_obfuscate_self_inverse))). reflexivity.
Defined.

Lemma disk_block2_located :
  located (isz_segments Examples.disk_world 0) 2 0 Examples.disk_seg0.
Proof.
  split; [vm_compute; reflexivity|].
  split; [unfold in_segment; cbn; lia|].
  intros j s Hj. lia.
Qed.

Lemma get_block_offset_witness :
  get_block Examples.sample_fs Examples.disk_world 0 2
  = read_block Examples.sample_fs Examples.disk_world 0 2 6 0 Examples.disk_seg0 (148 + 4).
Proof.
  refine (proj1 (proj1 (get_block_offset Examples.sample_fs) Examples.disk_world 0%nat 2
                   Data 6 0%nat Examples.disk_seg0 disk_block2_located _ _)).
  - cbn. lia.
  - vm_compute. reflexivity.
Defined.

Lemma get_block_reads_witness :
  get_block Examples.sample_fs Examples.disk_world 0 2
  = (Ok [x05; x06; x07; x08; x09; x0a],
     [EvRead "disk.isz" 152 4; EvRead "disk.i01" 64 2]).
Proof.
  refine (proj2 (proj1 (get_block_reads Examples.sample_fs) Examples.disk_world 0%nat 2
                   Data 6 0%nat Examples.disk_seg0 "disk.isz"%string Examples.disk_isz
                   disk_block2_located _ _ _ _ _)
            _ _ "disk.i01"%string Examples.disk_i01 _ _).
  - cbn. lia.
  - vm_compute. reflexivity.
  - vm_compute. reflexivity.
  - vm_compute. reflexivity.
  - vm_compute. discriminate.
  - reflexivity.
  - cbn. lia.
  - vm_compute. reflexivity.
  - vm_compute. reflexivity.
Defined.

Lemma verify_isz_file_spec_witness :
  verify_isz_file Examples.sample_fs Examples.crc32 Examples.disk_world 0
  = (Ok true,
     [EvRead "disk.isz" 148 4; EvRead "disk.isz" 152 4; EvRead "disk.i01" 64 2;
      EvRead "disk.i01" 66 3]).
Proof.
  refine (proj1 (proj1 (verify_isz_file_spec Examples.sample_fs Examples.crc32
                          Examples.disk_world 0%nat)
                   [[x01; x02; x03; x04]; [x05; x06; x07; x08; x09; x0a]; [x78; x0b; x0c]]
                   _)).
  vm_compute. repeat constructor.
Defined.

Lemma verify_uncompress_and_extract_witness :
  fst (verify_uncompress_isz_file Examples.sample_fs Examples.crc32 Examples.toy_zlib
         Examples.toy_bz2 Examples.disk_world 0) = Ok true /\
  fst (extract_to Examples.sample_fs Examples.crc32 Examples.toy_zlib Examples.toy_bz2
         Examples.flush_8k Examples.disk_world 0 "disk.iso") = Ok tt /\
  written "disk.iso"
    (snd (extract_to Examples.sample_fs Examples.crc32 Examples.toy_zlib Examples.toy_bz2
            Examples.flush_8k Examples.disk_world 0 "disk.iso"))
  = repeat x00 8 ++ [x01; x02; x03; x04; x05; x06; x07; x08; x09; x0a; x0b; x0c].
Proof.
  assert (Hdest : not_a_segment_file Examples.disk_world 0 "disk.iso").
  { intros seg_id Hs.
    assert (Hlen : len (isz_segments Examples.disk_world 0) = 2) by (vm_compute; reflexivity).
    rewrite Hlen in Hs.
    assert (Hcases : seg_id = 0 \/ seg_id = 1 \/ seg_id = 2) by lia.
    destruct Hcases as [-> | [-> | ->]]; vm_compute; discriminate. }
  pose proof (proj2 (verify_uncompress_and_extract Examples.sample_fs Examples.crc32
                       Examples.toy_zlib Examples.toy_bz2 Examples.flush_8k
                       Examples.disk_world 0%nat "disk.iso"%string Hdest)
                [repeat x00 8; [x01; x02; x03; x04]; [x05; x06; x07; x08; x09; x0a];
                 [x0b; x0c]]) as H.
  destruct H as (H1 & H2 & H3 & _).
  - vm_compute. repeat constructor.
  - split; [exact H1|]. split; [exact H2|exact H3].
Defined.

Lemma decompress_block_dispatch_witness :
  decompress_block Examples.sample_fs Examples.toy_zlib Examples.toy_bz2
    Examples.disk_world 0 3
  = (Ok (Some [x0b; x0c]), [EvRead "disk.i01" 66 3]).
Proof.
  refine (proj1 (proj2 (proj2 (decompress_block_dispatch Examples.sample_fs Examples.toy_zlib
                                 Examples.toy_bz2 Examples.disk_world 0%nat 3 Zlib 3 _)))
            eq_refl [x78; x0b; x0c] _ _).
  - vm_compute. reflexivity.
  - vm_compute. reflexivity.
Defined.

Lemma open_synthetic_tables_witness :
  chunk_pointers Examples.plain_world 0 = [(Data, 3)] /\
  isz_segments Examples.plain_world 0 = [mk_sdt 0 1 0 64 0].
Proof.
  pose proof (open_synthetic_tables Examples.sample_fs 0%nat "plain.isz"%string
                initial_world Examples.plain_world) as H.
  destruct H as [H1 H2].
  - vm_compute. reflexivity.
  - split.
    + apply H1. vm_compute. reflexivity.
    + apply H2; vm_compute; reflexivity.
Defined.

Lemma read_chunk_pointers_packed_witness :
  exists w',
    read_chunk_pointers 0 Examples.disk_segments_read = (Ok tt, w') /\
    chunk_pointers w' 0 = [] ++ [(Zeros, 8); (Data, 4); (Data, 6); (Zlib, 3)].
Proof.
  refine (proj1 (proj2 (read_chunk_pointers_packed 0%nat Examples.disk_segments_read _))
            (mk_file Examples.disk_isz 136)
            (xor_obfuscate (slice Examples.disk_isz 136 12)) _ _ _ _).
  - vm_compute. discriminate.
  - vm_compute. reflexivity.
  - vm_compute. reflexivity.
  - vm_compute. reflexivity.
  - vm_compute. reflexivity.
Defined.

Lemma read_segments_naming_witness :
  read_segments Examples.sample_fs 0 Examples.disk_header_read
  = (Ok tt, set_name_generator 0 NG_1 Examples.disk_table_read) /\
  read_segments Examples.parts_fs 0 Examples.parts_header_read
  = (Ok tt, set_name_generator 0 NG_2 Examples.parts_table_read) /\
  name_generator_2 "set.part01.isz" 1 = "set.part02.isz"%string.
Proof.
  split; [|split].
  - refine (proj1 (proj2 (proj2 (proj2 (proj2 (proj2 (proj2 (proj2
              (read_segments_naming Examples.sample_fs))))) 0%nat
              Examples.disk_header_read Examples.disk_table_read "disk.isz"%string _ _))
              NG_1 _) _).
    + vm_compute. reflexivity.
    + vm_compute. reflexivity.
    + vm_compute. repeat split.
    + intros i Hi.
      assert (Hlen : len (isz_segments Examples.disk_table_read 0) = 2)
        by (vm_compute; reflexivity).
      rewrite Hlen in Hi.
      assert (Hcases : i = 0 \/ i = 1) by lia.
      destruct Hcases as [-> | ->]; vm_compute; reflexivity.
  - refine (proj1 (proj2 (proj2 (proj2 (proj2 (proj2 (proj2 (proj2
              (read_segments_naming Examples.parts_fs))))) 0%nat
              Examples.parts_header_read Examples.parts_table_read
              "set.part01.isz"%string _ _))
              NG_2 _) _).
    + vm_compute. reflexivity.
    + vm_compute. reflexivity.
    + vm_compute. repeat split.
    + intros i Hi.
      assert (Hlen : len (isz_segments Examples.parts_table_read 0) = 2)
        by (vm_compute; reflexivity).
      rewrite Hlen in Hi.
      assert (Hcases : i = 0 \/ i = 1) by lia.
      destruct Hcases as [-> | ->]; vm_compute; reflexivity.
  - refine (proj1 (proj2 (proj2 (read_segments_naming Examples.parts_fs)))
              "set"%string ".part01.isz"%string 1 _ _).
    + left. reflexivity.
    + lia.
Defined.

Lemma handles_share_the_header_witness :
  isz_segments Examples.both_world 0 = isz_segments Examples.plain_world 0 /\
  chunk_pointers Examples.both_world 0 = chunk_pointers Examples.plain_world 0.
Proof.
  refine (proj1 handles_share_the_header Examples.sample_fs 1%nat 0%nat "other.isz"%string
            Examples.plain_world (Ok tt) Examples.both_world _ _).
  - discriminate.
  - vm_compute. reflexivity.
Defined.

(* ================================================================= *)
(** ** A block outside every segment *)

Lemma scan_segments_not_found fs w self block_id block_size (segs : list ISZ_sdt) :
  forall seg_id,
    (forall s, In s segs -> ~ in_segment s block_id) ->
    scan_segments fs w self block_id block_size segs seg_id
    = (Raise (SegmentOfBlockNotFound block_id), []).
Proof.
  induction segs as [|s rest IH]; intros seg_id H; cbn [scan_segments]; [reflexivity|].
  assert (Hs : ~ in_segment s block_id) by (apply H; now left).
  unfold in_segment in Hs.
  destruct ((first_chunck_number s <=? block_id)
            && (block_id <=? first_chunck_number s + number_of_chunks s - 1)) eqn:E.
  - apply andb_prop in E. lia.
  - apply IH. intros s' Hs'. apply H. now right.
Qed.

(** A block id that has a chunk pointer but lies in no segment's range makes
    the locator raise the error naming the block, without any read. *)
Theorem get_block_not_found fs w self block_id block_type block_size :
  py_index (chunk_pointers w self) block_id = Some (block_type, block_size) ->
  (forall s, In s (isz_segments w self) -> ~ in_segment s block_id) ->
  get_block fs w self block_id = (Raise (SegmentOfBlockNotFound block_id), []).
Proof.
  intros Hp H. unfold get_block. rewrite Hp. cbn [of_option]. unfold liftIO.
  rewrite bindIO_ret_l. now apply scan_segments_not_found.
Qed.

Lemma get_block_not_found_witness :
  get_block Examples.sample_fs Examples.disk_world 0 (-1)
  = (Raise (SegmentOfBlockNotFound (-1)), []).
Proof.
  refine (get_block_not_found Examples.sample_fs Examples.disk_world 0%nat (-1) Zlib 3 _ _).
  - vm_compute. reflexivity.
  - intros s Hs.
    assert (E : isz_segments Examples.disk_world 0 = [Examples.disk_seg0; Examples.disk_seg1])
      by (vm_compute; reflexivity).
    rewrite E in Hs. unfold in_segment.
    destruct Hs as [<-|[<-|[]]]; cbn; lia.
Defined.

(* ================================================================= *)
(** ** What an open accepts, and what it rejects *)

Lemma bytes_eqb_eq (a b : bytes) : bytes_eqb a b = true <-> a = b.
Proof.
  revert b. induction a as [|x a IH]; intros [|y b]; cbn [bytes_eqb]; split; intros H;
    try reflexivity; try discriminate.
  - apply andb_prop in H. destruct H as [H1 H2].
    apply Byte.byte_dec_bl in H1. apply IH in H2. now subst.
  - injection H as -> ->. rewrite (Byte.byte_dec_lb eq_refl). cbn. now apply IH.
Qed.

Lemma slice_app_l {A} (a b : list A) (off n : nat) :
  (off + n <= length a)%nat -> slice (a ++ b) off n = slice a off n.
Proof.
  intros H. unfold slice. rewrite skipn_app, firstn_app, length_skipn.
  replace (n - (length a - off))%nat with O by lia.
  cbn [firstn]. apply app_nil_r.
Qed.

Lemma slice_firstn {A} (l : list A) (k off n : nat) :
  (off + n <= k)%nat -> slice (firstn k l) off n = slice l off n.
Proof.
  intros H. unfold slice. rewrite skipn_firstn_comm, firstn_firstn.
  f_equal. lia.
Qed.

(** [read_header] in the state in which [open_isz_file] calls it. *)
Lemma read_header_opened self name data w :
  read_header self (opened self name data w) =
    (let d := firstn 64 data in
     let hdr := d ++ skipn (length d) (cls_isz_header w) in
     if negb (len d =? 64) then Raise (HeaderShortRead (len d))
     else if negb (bytes_eqb (signature hdr) isz_magic) then Raise InvalidSignature
     else if negb (version_number hdr =? 1) then Raise VersionNotSupported
     else Ok tt,
     set_header (firstn 64 data ++ skipn (length (firstn 64 data)) (cls_isz_header w))
       (set_fp self (Some (mk_file data (length (firstn 64 data))))
          (opened self name data w))).
Proof.
  unfold read_header, bindM at 1, fp_read.
  assert (Hfp : fp (objects (opened self name data w) self) = Some (mk_file data 0)).
  { unfold opened, set_fp, set_object. cbn. now rewrite Nat.eqb_refl. }
  rewrite Hfp. cbn [f_data f_pos]. unfold slice. cbn [skipn Nat.add].
  change (Z.to_nat 64) with 64%nat.
  unfold bindM at 1, modifyM. cbv zeta.
  destruct (negb (len (firstn 64 data) =? 64)); [reflexivity|].
  unfold bindM, getM, isz_header, raiseM, retM. cbn [cls_isz_header set_header set_fp set_object].
  destruct (negb (bytes_eqb _ isz_magic)); [reflexivity|].
  destruct (negb (_ =? 1)); reflexivity.
Qed.

Lemma field_of_file (data rest : bytes) (off n : nat) :
  (64 <= length data)%nat -> (off + n <= 64)%nat ->
  field (firstn 64 data ++ rest) off n = field (firstn 64 data) off n.
Proof.
  intros Hd Hn. unfold field. rewrite slice_app_l; [reflexivity|].
  rewrite length_firstn. lia.
Qed.

Lemma objects_set_header h w : objects (set_header h w) = objects w.
Proof. reflexivity. Qed.

Lemma objects_set_fp self f w :
  objects (set_fp self f w) self =
    mk_ISZ_File (own_isz_segments (objects w self)) (own_chunk_pointers (objects w self)) f
                (filename (objects w self)) (name_generator (objects w self)).
Proof. unfold set_fp, set_object. cbn [objects]. now rewrite Nat.eqb_refl. Qed.

Lemma objects_set_filename self s w :
  objects (set_filename self s w) self =
    mk_ISZ_File (own_isz_segments (objects w self)) (own_chunk_pointers (objects w self))
                (fp (objects w self)) (Some s) (name_generator (objects w self)).
Proof. unfold set_filename, set_object. cbn [objects]. now rewrite Nat.eqb_refl. Qed.

Lemma objects_assign_isz_segments self l w :
  objects (assign_isz_segments self l w) self =
    mk_ISZ_File (Some l) (own_chunk_pointers (objects w self))
                (fp (objects w self)) (filename (objects w self))
                (name_generator (objects w self)).
Proof. unfold assign_isz_segments, set_object. cbn [objects]. now rewrite Nat.eqb_refl. Qed.

Lemma objects_assign_chunk_pointers self l w :
  objects (assign_chunk_pointers self l w) self =
    mk_ISZ_File (own_isz_segments (objects w self)) (Some l)
                (fp (objects w self)) (filename (objects w self))
                (name_generator (objects w self)).
Proof. unfold assign_chunk_pointers, set_object. cbn [objects]. now rewrite Nat.eqb_refl. Qed.

(** One field of the handle after a stack of assignments, a layer at a time. *)
Ltac handle_fields :=
  repeat (first [ rewrite objects_set_header
                | rewrite objects_set_fp
                | rewrite objects_set_filename
                | rewrite objects_assign_chunk_pointers
                | rewrite objects_assign_isz_segments ];
          cbn [own_isz_segments own_chunk_pointers fp filename name_generator]).

Lemma opened_segments_pointers self name data w h f :
  isz_segments (set_header h (set_fp self f (opened self name data w))) self = [] /\
  chunk_pointers (set_header h (set_fp self f (opened self name data w))) self = [].
Proof.
  unfold opened, isz_segments, chunk_pointers. split; handle_fields; reflexivity.
Qed.

Section OpenOutcome.
Variable fs : string -> option bytes.

Lemma open_isz_file_after_header self name w data :
  fs name = Some data ->
  open_isz_file fs self name w =
    match read_header self (opened self name data w) with
    | (Ok _, w1) =>
        if negb (file_seg_number (isz_header w1 self) =? 0) then (Raise NotFirstSegment, w1)
        else bindM (read_segments fs self) (fun _ => read_chunk_pointers self) w1
    | (Raise e, w1) => (Raise e, w1)
    end.
Proof.
  intros Hd. unfold open_isz_file, close_file, bindM, modifyM, liftM, getM, raiseM.
  rewrite Hd. cbn [of_option].
  change (set_fp self (Some (mk_file data 0)) _) with (opened self name data w).
  destruct (read_header self (opened self name data w)) as [[[]|e] w1]; [|reflexivity].
  destruct (negb (file_seg_number (isz_header w1 self) =? 0)); reflexivity.
Qed.

(** The header checks of a file of at least 64 bytes, on the file's bytes. *)
Lemma read_header_of_file self name data w :
  (64 <= length data)%nat ->
  read_header self (opened self name data w) =
    (if negb (bytes_eqb (firstn 4 data) isz_magic) then Raise InvalidSignature
     else if negb (version_number (firstn 64 data) =? 1) then Raise VersionNotSupported
     else Ok tt,
     set_header (firstn 64 data ++ skipn 64 (cls_isz_header w))
       (set_fp self (Some (mk_file data 64)) (opened self name data w))).
Proof.
  intros Hlen. rewrite read_header_opened. cbv zeta.
  assert (L : length (firstn 64 data) = 64%nat) by (rewrite length_firstn; lia).
  unfold len. rewrite L. cbn [Z.of_nat Z.eqb Pos.eqb negb Pos.of_succ_nat Pos.succ].
  unfold signature. rewrite slice_app_l by lia. rewrite slice_firstn by lia.
  unfold slice at 1. cbn [skipn].
  unfold version_number. rewrite field_of_file by lia. reflexivity.
Qed.

(** Opening rejects, in this order: a missing file; a file shorter than 64
    bytes; a file that does not start with [IsZ!]; a version byte other than
    1; a segment byte other than 0.  In every case no table has been parsed:
    the handle's two sequences are left empty. *)
Theorem open_isz_file_rejects self name w :
  (fs name = None ->
   fst (open_isz_file fs self name w) = Raise (FileNotFoundError name)) /\
  (forall data, fs name = Some data ->
     ((length data < 64)%nat ->
      fst (open_isz_file fs self name w) = Raise (HeaderShortRead (len data))) /\
     ((64 <= length data)%nat -> firstn 4 data <> isz_magic ->
      fst (open_isz_file fs self name w) = Raise InvalidSignature) /\
     ((64 <= length data)%nat -> firstn 4 data = isz_magic ->
      version_number (firstn 64 data) <> 1 ->
      fst (open_isz_file fs self name w) = Raise VersionNotSupported) /\
     ((64 <= length data)%nat -> firstn 4 data = isz_magic ->
      version_number (firstn 64 data) = 1 ->
      file_seg_number (firstn 64 data) <> 0 ->
      fst (open_isz_file fs self name w) = Raise NotFirstSegment)) /\
  (fs name = None
   \/ (exists data, fs name = Some data /\
         ((length data < 64)%nat \/ firstn 4 data <> isz_magic
          \/ version_number (firstn 64 data) <> 1
          \/ file_seg_number (firstn 64 data) <> 0)) ->
   isz_segments (snd (open_isz_file fs self name w)) self = [] /\
   chunk_pointers (snd (open_isz_file fs self name w)) self = []).
Proof.
  assert (Hshort : forall data, fs name = Some data -> (length data < 64)%nat ->
            open_isz_file fs self name w =
              (Raise (HeaderShortRead (len data)),
               set_header (firstn 64 data ++ skipn (length (firstn 64 data)) (cls_isz_header w))
                 (set_fp self (Some (mk_file data (length (firstn 64 data))))
                    (opened self name data w)))).
  { intros data Hd Hlen. rewrite (open_isz_file_after_header self name w data Hd).
    rewrite read_header_opened. cbv zeta. unfold len. rewrite length_firstn.
    replace (Nat.min 64 (length data)) with (length data) by lia.
    replace (Z.of_nat (length data) =? 64) with false by lia. reflexivity. }
  assert (Hlong : forall data, fs name = Some data -> (64 <= length data)%nat ->
            let w1 := set_header (firstn 64 data ++ skipn 64 (cls_isz_header w))
                        (set_fp self (Some (mk_file data 64)) (opened self name data w)) in
            open_isz_file fs self name w =
              if negb (bytes_eqb (firstn 4 data) isz_magic) then (Raise InvalidSignature, w1)
              else if negb (version_number (firstn 64 data) =? 1)
                   then (Raise VersionNotSupported, w1)
              else if negb (file_seg_number (firstn 64 data) =? 0)
                   then (Raise NotFirstSegment, w1)
              else bindM (read_segments fs self) (fun _ => read_chunk_pointers self) w1).
  { intros data Hd Hlen w1. rewrite (open_isz_file_after_header self name w data Hd).
    rewrite (read_header_of_file self name data w Hlen). fold w1.
    destruct (negb (bytes_eqb (firstn 4 data) isz_magic)); [reflexivity|].
    destruct (negb (version_number (firstn 64 data) =? 1)); [reflexivity|].
    unfold isz_header, w1. cbn [cls_isz_header set_header].
    unfold file_seg_number at 1. rewrite field_of_file by lia. reflexivity. }
  assert (Hnone : fs name = None ->
            open_isz_file fs self name w =
              (Raise (FileNotFoundError name),
               set_filename self name
                 (assign_chunk_pointers self []
                    (assign_isz_segments self [] (set_fp self None w))))).
  { intros Hn. unfold open_isz_file, close_file, bindM, modifyM, liftM. now rewrite Hn. }
  split; [|split].
  - intros Hn. now rewrite (Hnone Hn).
  - intros data Hd. repeat split.
    + intros Hlen. now rewrite (Hshort data Hd Hlen).
    + intros Hlen Hsig. rewrite (Hlong data Hd Hlen).
      destruct (bytes_eqb (firstn 4 data) isz_magic) eqn:E; [|reflexivity].
      apply bytes_eqb_eq in E. contradiction.
    + intros Hlen Hsig Hver. rewrite (Hlong data Hd Hlen).
      rewrite (proj2 (bytes_eqb_eq _ _) Hsig). apply Z.eqb_neq in Hver. now rewrite Hver.
    + intros Hlen Hsig Hver Hseg. rewrite (Hlong data Hd Hlen).
      rewrite (proj2 (bytes_eqb_eq _ _) Hsig), Hver. apply Z.eqb_neq in Hseg.
      now rewrite Hseg.
  - intros [Hn | [data [Hd Hcase]]].
    + rewrite (Hnone Hn). cbn [snd]. split; setter_frame.
    + destruct (Nat.lt_ge_cases (length data) 64) as [Hlen|Hlen].
      * rewrite (Hshort data Hd Hlen). cbn [snd]. apply opened_segments_pointers.
      * rewrite (Hlong data Hd Hlen).
        destruct (bytes_eqb (firstn 4 data) isz_magic) eqn:Esig; cbn [negb];
          [|cbn [snd]; apply opened_segments_pointers].
        destruct (version_number (firstn 64 data) =? 1) eqn:Ever; cbn [negb];
          [|cbn [snd]; apply opened_segments_pointers].
        destruct (file_seg_number (firstn 64 data) =? 0) eqn:Eseg; cbn [negb];
          [|cbn [snd]; apply opened_segments_pointers].
        exfalso. apply bytes_eqb_eq in Esig. apply Z.eqb_eq in Ever, Eseg.
        destruct Hcase as [H|[H|[H|H]]]; [lia|contradiction..].
Qed.

End OpenOutcome.

Lemma forR_ok_inv {A} (l : list A) (body : A -> result unit) :
  forR l body = Ok tt -> forall x, In x l -> body x = Ok tt.
Proof.
  induction l as [|y rest IH]; intros H x Hx; [destruct Hx|].
  cbn [forR] in H. destruct (body y) as [[]|e] eqn:E; [|discriminate].
  cbn [bindR] in H. destruct Hx as [<-|Hx]; [exact E|now apply IH].
Qed.

Lemma unpack_loop_ok_inv (self : nat) (table : bytes) (ids : list Z) :
  forall w w',
    forM ids (unpack_loop_body self table) w = (Ok tt, w') ->
    exists added,
      chunk_pointers w' self = chunk_pointers w self ++ added /\
      length added = length ids /\
      Forall pointer_in_bounds added.
Proof.
  induction ids as [|i rest IH]; intros w w' H.
  - injection H as <-. exists []. repeat split; [now rewrite app_nil_r|constructor].
  - cbn [forM] in H. unfold bindM at 1, unpack_loop_body at 1 in H.
    unfold bindM at 1, liftM, modifyM in H.
    destruct (unpack_pointer (slice table (Z.to_nat (i * 3)) 3)) as [p|e] eqn:E;
      [|discriminate].
    destruct (IH _ _ H) as (added & A1 & A2 & A3).
    exists (p :: added). repeat split.
    + rewrite A1, chunk_pointers_append, <- app_assoc. reflexivity.
    + cbn [length]. now rewrite A2.
    + constructor; [eapply unpack_pointer_bounds; eassumption|exact A3].
Qed.

(** What a successful [read_chunk_pointers] appends. *)
Lemma read_chunk_pointers_ok self w w' :
  read_chunk_pointers self w = (Ok tt, w') ->
  exists added,
    chunk_pointers w' self = chunk_pointers w self ++ added /\
    Forall pointer_ok added /\
    len added = (if chunk_pointers_offset (isz_header w self) =? 0 then 1
                 else nblock (isz_header w self)).
Proof.
  intros H.
  destruct (Z.eq_dec (chunk_pointers_offset (isz_header w self)) 0) as [Hz|Hnz].
  - rewrite (read_chunk_pointers_synthetic self w Hz) in H. injection H as <-.
    exists [(Data, size1 (isz_header w self))]. rewrite Hz. repeat split.
    + apply chunk_pointers_append.
    + constructor; [|constructor]. split; cbn [fst snd]; unfold Data;
        [lia|apply le_uint_nonneg].
  - destruct (Z.eq_dec (pointer_length (isz_header w self)) 3) as [Hlen|Hlen].
    + destruct (fp (objects w self)) as [f|] eqn:Hfp.
      * destruct (read_chunk_pointers_unfold self w f Hnz Hlen Hfp) as [w1 [E1 E2]].
        rewrite E2 in H. destruct (unpack_loop_ok_inv _ _ _ _ _ H) as (added & A1 & A2 & A3).
        exists added. rewrite <- E1. split; [exact A1|]. split.
        -- eapply Forall_impl; [|exact A3]. intros p [Hp1 Hp2]. split; [exact Hp1|lia].
        -- apply Z.eqb_neq in Hnz. rewrite Hnz. unfold len. rewrite A2, range_length.
           pose proof (le_uint_nonneg (slice (isz_header w self) 25 4)).
           unfold nblock, field. lia.
      * unfold read_chunk_pointers, bindM at 1, getM in H.
        apply Z.eqb_neq in Hnz. rewrite Hnz, Hlen in H. cbn [Z.eqb Pos.eqb negb] in H.
        unfold bindM at 1, fp_seek in H. rewrite Hfp in H. discriminate.
    + unfold read_chunk_pointers, bindM, getM in H.
      apply Z.eqb_neq in Hnz, Hlen. rewrite Hnz, Hlen in H. discriminate.
Qed.

Section OpenAccepts.
Variable fs : string -> option bytes.

Lemma try_name_generators_ok self fname ngs w w' :
  try_name_generators fs self fname ngs w = (Ok tt, w') ->
  exists ng, w' = set_name_generator self ng w.
Proof.
  induction ngs as [|ng rest IH]; cbn [try_name_generators]; [discriminate|].
  destruct (path_exists fs (call_namegen ng fname 1)); [|exact IH].
  intros H. injection H as <-. now exists ng.
Qed.

Lemma select_convention_ok self w w' :
  select_convention fs self w = (Ok tt, w') ->
  exists ng, w' = set_name_generator self ng w.
Proof.
  unfold select_convention, bindM, getM.
  destruct (1 <? len (isz_segments w self)).
  - unfold detect_file_naming_convention, bindM.
    destruct (filename (objects w self)) as [fname|]; cbn [of_option]; [|discriminate].
    destruct (endswith fname ".isz"); [apply try_name_generators_ok|discriminate].
  - intros H. injection H as <-. now exists NG_no_change.
Qed.

(** After a successful [read_segments] the name generator is set and every
    segment index names an existing file. *)
Lemma read_segments_ok self w w' :
  read_segments fs self w = (Ok tt, w') ->
  (exists ng, name_generator (objects w' self) = Some ng) /\
  (forall i, 0 <= i < len (isz_segments w' self) ->
     exists name, get_segment_name w' self i = Ok name /\ path_exists fs name = true).
Proof.
  intros H. unfold read_segments in H. apply bindM_ok in H. destruct H as ([] & wt & _ & H).
  unfold resolve_segment_names in H. apply bindM_ok in H. destruct H as ([] & ws & Hs & H).
  destruct (select_convention_ok self wt ws Hs) as [ng ->].
  destruct (check_segment_names fs (set_name_generator self ng wt) self) eqn:Hc;
    [|discriminate].
  injection H as -> <-. split.
  - exists ng. unfold set_name_generator, set_object. cbn. now rewrite Nat.eqb_refl.
  - intros i Hi. unfold check_segment_names in Hc.
    pose proof (forR_ok_inv _ _ Hc i (proj2 (in_range _ _ _) Hi)) as Hb.
    cbv beta in Hb.
    destruct (get_segment_name (set_name_generator self ng wt) self i) as [nm|e];
      [|discriminate].
    cbn [bindR] in Hb. exists nm. split; [reflexivity|].
    destruct (path_exists fs nm); [reflexivity|discriminate].
Qed.

(** C7's decomposition of a successful open, with the header it read. *)
Lemma open_isz_file_header_ok self name w w' :
  open_isz_file fs self name w = (Ok tt, w') ->
  length (cls_isz_header w) = 64%nat ->
  exists data w1 w2,
    fs name = Some data /\ (64 <= length data)%nat /\ firstn 4 data = isz_magic /\
    w1 = set_header (firstn 64 data)
           (set_fp self (Some (mk_file data 64)) (opened self name data w)) /\
    version_number (firstn 64 data) = 1 /\
    file_seg_number (firstn 64 data) = 0 /\
    read_segments fs self w1 = (Ok tt, w2) /\
    read_chunk_pointers self w2 = (Ok tt, w').
Proof.
  intros H Hwf.
  destruct (open_isz_file_ok _ _ _ _ _ H) as (data & w1 & w2 & Hd & H1 & Hseg & H2 & H3).
  exists data, w1, w2.
  assert (Hlen : (64 <= length data)%nat).
  { rewrite read_header_opened in H1. cbv zeta in H1.
    destruct (len (firstn 64 data) =? 64) eqn:E; cbn [negb] in H1; [|discriminate].
    apply Z.eqb_eq in E. unfold len in E. rewrite length_firstn in E. lia. }
  rewrite (read_header_of_file self name data w Hlen) in H1.
  assert (Hold : skipn 64 (cls_isz_header w) = [])
    by (apply skipn_all2; lia).
  rewrite Hold, app_nil_r in H1.
  destruct (bytes_eqb (firstn 4 data) isz_magic) eqn:Esig; cbn [negb] in H1; [|discriminate].
  destruct (version_number (firstn 64 data) =? 1) eqn:Ever; cbn [negb] in H1; [|discriminate].
  injection H1 as <-.
  repeat split; try assumption.
  - now apply bytes_eqb_eq.
  - now apply Z.eqb_eq.
Qed.

Lemma open_isz_file_post self name w w' :
  open_isz_file fs self name w = (Ok tt, w') ->
  length (cls_isz_header w) = 64%nat ->
  exists data,
    fs name = Some data /\
    (64 <= length data)%nat /\
    firstn 4 data = isz_magic /\
    isz_header w' self = firstn 64 data /\
    version_number (isz_header w' self) = 1 /\
    file_seg_number (isz_header w' self) = 0 /\
    filename (objects w' self) = Some name /\
    (exists ng, name_generator (objects w' self) = Some ng) /\
    (forall i, 0 <= i < len (isz_segments w' self) ->
       exists segment_name,
         get_segment_name w' self i = Ok segment_name /\
         path_exists fs segment_name = true) /\
    Forall pointer_ok (chunk_pointers w' self) /\
    len (chunk_pointers w' self)
    = (if chunk_pointers_offset (isz_header w' self) =? 0 then 1
       else nblock (isz_header w' self)).
Proof.
  intros H Hwf.
  destruct (open_isz_file_header_ok self name w w' H Hwf)
    as (data & w1 & w2 & Hd & Hlen & Hsig & Hw1 & Hver & Hseg & H2 & H3).
  exists data.
  assert (Hh1 : isz_header w1 self = firstn 64 data) by (subst w1; reflexivity).
  assert (Hh2 : isz_header w2 self = isz_header w1 self).
  { apply (keeps_read_segments (fun w => isz_header w self) self) in H2;
      [exact H2| | |]; setter_frame. }
  assert (Hh3 : isz_header w' self = isz_header w2 self).
  { apply (keeps_read_chunk_pointers (fun w => isz_header w self) self) in H3;
      [exact H3| |]; setter_frame. }
  assert (Hf1 : filename (objects w1 self) = Some name).
  { subst w1. unfold opened, set_header, set_fp, set_filename, set_object. cbn.
    rewrite !Nat.eqb_refl. reflexivity. }
  assert (Hf2 : filename (objects w2 self) = filename (objects w1 self)).
  { apply (keeps_read_segments (fun w => filename (objects w self)) self) in H2;
      [exact H2| | |]; setter_frame. }
  assert (Ho3 : (filename (objects w' self), name_generator (objects w' self))
                = (filename (objects w2 self), name_generator (objects w2 self))).
  { apply (keeps_read_chunk_pointers
             (fun w => (filename (objects w self), name_generator (objects w self))) self)
      in H3; [exact H3| |]; setter_frame. }
  injection Ho3 as Hf3 Hn3.
  assert (Hs3 : isz_segments w' self = isz_segments w2 self).
  { apply (keeps_read_chunk_pointers (fun w => isz_segments w self) self) in H3;
      [exact H3| |]; setter_frame. }
  assert (Hp1 : chunk_pointers w1 self = []).
  { subst w1. apply opened_segments_pointers. }
  assert (Hp2 : chunk_pointers w2 self = chunk_pointers w1 self).
  { apply (keeps_read_segments (fun w => chunk_pointers w self) self) in H2;
      [exact H2| | |]; setter_frame. }
  destruct (read_segments_ok self w1 w2 H2) as [[ng Hng] Hnames].
  destruct (read_chunk_pointers_ok self w2 w' H3) as (added & Ha & Hok & Hcount).
  rewrite Hp2, Hp1 in Ha. cbn [app] in Ha.
  rewrite Hh3, Hh2, Hh1.
  repeat split; try assumption.
  - congruence.
  - exists ng. congruence.
  - intros i Hi. rewrite Hs3 in Hi. destruct (Hnames i Hi) as (nm & Hn1 & Hn2).
    exists nm. split; [|exact Hn2].
    unfold get_segment_name in *. now rewrite Hf3, Hn3.
  - now rewrite Ha.
  - rewrite Ha, Hcount. now rewrite Hh2, Hh1.
Qed.


(** What a successful open guarantees: the file has at least 64 bytes and
    starts with [IsZ!]; the header is exactly the file's first 64 bytes, of
    version 1 and segment number 0; the handle remembers the name and has a
    name generator under which every segment index of the table names an
    existing file; every chunk pointer has a tag in 0..3 and a non-negative
    size; and there are [nblock] chunk pointers when the header has a chunk
    pointer table, one otherwise. *)
Theorem open_isz_file_accepts self name w w' :
  open_isz_file fs self name w = (Ok tt, w') ->
  length (cls_isz_header w) = 64%nat ->
  exists data,
    fs name = Some data /\
    (64 <= length data)%nat /\
    firstn 4 data = isz_magic /\
    isz_header w' self = firstn 64 data /\
    version_number (isz_header w' self) = 1 /\
    file_seg_number (isz_header w' self) = 0 /\
    filename (objects w' self) = Some name /\
    (exists ng, name_generator (objects w' self) = Some ng) /\
    (forall i, 0 <= i < len (isz_segments w' self) ->
       exists segment_name,
         get_segment_name w' self i = Ok segment_name /\
         path_exists fs segment_name = true) /\
    Forall pointer_ok (chunk_pointers w' self) /\
    len (chunk_pointers w' self)
    = (if chunk_pointers_offset (isz_header w' self) =? 0 then 1
       else nblock (isz_header w' self)).
Proof. exact (open_isz_file_post self name w w'). Qed.

End OpenAccepts.

(* ================================================================= *)
(** ** The exceptions a verification can raise *)

Lemma raises_only_ret {A} (P : exn -> bool) (a : A) : raises_only P (retIO a).
Proof. intros e H. discriminate. Qed.

Lemma raises_only_emit (P : exn -> bool) (ev : event) : raises_only P (emit ev).
Proof. intros e H. discriminate. Qed.

Lemma raises_only_raise {A} (P : exn -> bool) (e : exn) :
  P e = true -> raises_only P (@raiseIO A e).
Proof. intros He e' H. now injection H as <-. Qed.

Lemma raises_only_lift {A} (P : exn -> bool) (r : result A) :
  (forall e, r = Raise e -> P e = true) -> raises_only P (liftIO r).
Proof. intros Hr e H. apply Hr. exact H. Qed.

Lemma raises_only_bind {A B} (P : exn -> bool) (m : IO A) (k : A -> IO B) :
  raises_only P m -> (forall a, raises_only P (k a)) -> raises_only P (bindIO m k).
Proof.
  unfold raises_only. destruct m as [[a|e0] t1]; cbn [bindIO fst]; intros Hm Hk e H.
  - specialize (Hk a e). destruct (k a) as [r t2]. apply Hk. exact H.
  - apply Hm. injection H as <-. reflexivity.
Qed.

Lemma raises_only_forIO {A S} (P : exn -> bool) (l : list A) (body : A -> S -> IO S) :
  (forall a s, raises_only P (body a s)) -> forall s, raises_only P (forIO l body s).
Proof.
  intros Hb. induction l as [|a rest IH]; intros s; cbn [forIO].
  - apply raises_only_ret.
  - apply raises_only_bind; [apply Hb|exact IH].
Qed.

Lemma raises_only_weaken {A} (P Q : exn -> bool) (m : IO A) :
  (forall e, P e = true -> Q e = true) -> raises_only P m -> raises_only Q m.
Proof. intros HPQ Hm e H. apply HPQ. now apply Hm. Qed.

Lemma block_offset_raises (ptrs : list pointer) (ids : list Z) :
  forall cur_offset e, block_offset ptrs ids cur_offset = Raise e -> e = IndexError.
Proof.
  induction ids as [|i rest IH]; intros cur_offset e H; cbn [block_offset] in H;
    [discriminate|].
  destruct (py_index ptrs i) as [[ty sz]|]; cbn [of_option bindR] in H.
  - eapply IH; eassumption.
  - now injection H as <-.
Qed.

Lemma file_read_raises (content : bytes) (offset size : Z) (e : exn) :
  file_read content offset size = Raise e -> e = OSError \/ e = ValueError.
Proof.
  unfold file_read. destruct (offset <? 0); [intros H; injection H as <-; now left|].
  destruct (size <? -1); [intros H; injection H as <-; now right|discriminate].
Qed.

Section Raises.
Variable fs : string -> option bytes.
Variable zlib_crc32 : bytes -> Z -> Z.
Variables zlib_decompress bz2_decompress : bytes -> option bytes.

Lemma get_segment_name_raises w self seg_id e :
  get_segment_name w self seg_id = Raise e -> e = AttributeError \/ e = TypeError.
Proof.
  unfold get_segment_name.
  destruct (name_generator (objects w self)); cbn [of_option bindR];
    [|intros H; injection H as <-; now left].
  destruct (filename (objects w self)); cbn [of_option bindR];
    [discriminate|intros H; injection H as <-; now right].
Qed.

Lemma get_segment_name_named w self seg_id :
  named w self -> exists name, get_segment_name w self seg_id = Ok name.
Proof.
  intros [[fname Hf] [ng Hn]]. unfold get_segment_name. rewrite Hf, Hn.
  cbn. eauto.
Qed.

Lemma read_data_raises w self seg_id offset size :
  raises_only locator_exn (read_data fs w self seg_id offset size).
Proof.
  unfold read_data.
  apply raises_only_bind.
  { apply raises_only_lift. intros e H.
    destruct (get_segment_name_raises _ _ _ _ H) as [-> | ->]; reflexivity. }
  intros name. apply raises_only_bind.
  { apply raises_only_lift. intros e H. destruct (fs name); [discriminate|].
    now injection H as <-. }
  intros content. apply raises_only_bind; [apply raises_only_emit|intros _].
  apply raises_only_lift. intros e H.
  destruct (file_read_raises _ _ _ _ H) as [-> | ->]; reflexivity.
Qed.

Lemma read_data_raises_named w self seg_id offset size :
  named w self ->
  raises_only opened_locator_exn (read_data fs w self seg_id offset size).
Proof.
  intros Hn. unfold read_data.
  destruct (get_segment_name_named w self seg_id Hn) as [name ->].
  unfold liftIO. rewrite bindIO_ret_l.
  apply raises_only_bind.
  { apply raises_only_lift. intros e H. destruct (fs name); [discriminate|].
    now injection H as <-. }
  intros content. apply raises_only_bind; [apply raises_only_emit|intros _].
  apply raises_only_lift. intros e H.
  destruct (file_read_raises _ _ _ _ H) as [-> | ->]; reflexivity.
Qed.

(** The locator's exceptions, given those of [read_data]. *)
Lemma get_block_raises_gen (P : exn -> bool) w self block_id :
  P IndexError = true ->
  (forall b, P (UnableToReadBlock b) = true) ->
  (forall b, P (SegmentOfBlockNotFound b) = true) ->
  (forall seg_id offset size, raises_only P (read_data fs w self seg_id offset size)) ->
  raises_only P (get_block fs w self block_id).
Proof.
  intros Hi Hu Hs Hr. unfold get_block.
  apply raises_only_bind.
  { apply raises_only_lift. intros e H. destruct (py_index _ _); [discriminate|].
    now injection H as <-. }
  intros [ty sz]. generalize 0 at 1.
  induction (isz_segments w self) as [|s rest IH]; intros seg_id; cbn [scan_segments].
  - now apply raises_only_raise.
  - destruct (_ && _); [|apply IH].
    apply raises_only_bind.
    { apply raises_only_lift. intros e H. now rewrite (block_offset_raises _ _ _ _ H). }
    intros off. unfold read_block.
    apply raises_only_bind; [apply Hr|intros d].
    apply raises_only_bind.
    + destruct (_ && _); [|apply raises_only_ret].
      apply raises_only_bind; [apply Hr|intros; apply raises_only_ret].
    + intros d'. destruct (negb _); [now apply raises_only_raise|apply raises_only_ret].
Qed.

Lemma get_block_raises w self block_id :
  raises_only locator_exn (get_block fs w self block_id).
Proof.
  apply get_block_raises_gen; try reflexivity. intros. apply read_data_raises.
Qed.

Lemma get_block_raises_named w self block_id :
  named w self -> raises_only opened_locator_exn (get_block fs w self block_id).
Proof.
  intros Hn. apply get_block_raises_gen; try reflexivity.
  intros. now apply read_data_raises_named.
Qed.

Lemma verify_body_raises (P : exn -> bool) w self block_id crc :
  P IndexError = true ->
  raises_only P (get_block fs w self block_id) ->
  raises_only P (verify_body fs zlib_crc32 w self block_id crc).
Proof.
  intros Hi Hg. unfold verify_body.
  destruct (py_index (chunk_pointers w self) block_id) as [[ty sz]|] eqn:Ep;
    cbn [of_option]; [|intros e H; now injection H as <-].
  unfold liftIO. rewrite bindIO_ret_l.
  destruct (negb (ty =? 0)); [|apply raises_only_ret].
  destruct (get_block fs w self block_id) as [[data|e0] t] eqn:Eg.
  - unfold bindIO.
    rewrite (get_block_ok_len fs w self block_id ty sz data t Ep Eg), Z.eqb_refl.
    cbn. intros e H. discriminate.
  - intros e H. apply Hg. cbn [bindIO fst] in *. injection H as <-. reflexivity.
Qed.

(** The test of lines 327-328 never fires: [verify_isz_file] raises no
    'Wrong data size', on any handle; whatever it raises is an exception of
    the block locator. *)
Theorem verify_isz_file_raises w self :
  (forall e, fst (verify_isz_file fs zlib_crc32 w self) = Raise e -> locator_exn e = true) /\
  fst (verify_isz_file fs zlib_crc32 w self) <> Raise WrongDataSize.
Proof.
  assert (H : raises_only locator_exn (verify_isz_file fs zlib_crc32 w self)).
  { unfold verify_isz_file. apply raises_only_bind; [|intros; apply raises_only_ret].
    apply raises_only_forIO. intros i crc.
    apply verify_body_raises; [reflexivity|apply get_block_raises]. }
  split; [exact H|].
  intros C. apply H in C. discriminate.
Qed.

Lemma decompress_block_raises w self block_id :
  named w self ->
  raises_only opened_decompress_exn
    (decompress_block fs zlib_decompress bz2_decompress w self block_id).
Proof.
  intros Hn. unfold decompress_block.
  apply raises_only_bind.
  { apply raises_only_lift. intros e H. destruct (py_index _ _); [discriminate|].
    now injection H as <-. }
  intros [ty sz]. destruct (ty =? Zeros).
  - destruct (sz <? 0); [now apply raises_only_raise|apply raises_only_ret].
  - apply raises_only_bind.
    { eapply raises_only_weaken; [|apply get_block_raises_named; exact Hn].
      intros e He. destruct e; try discriminate; reflexivity. }
    intros data. destruct (ty =? Data); [apply raises_only_ret|].
    destruct (ty =? Zlib).
    + apply raises_only_bind; [|intros; apply raises_only_ret].
      apply raises_only_lift. intros e H. destruct (zlib_decompress data); [discriminate|].
      now injection H as <-.
    + destruct (ty =? Bzip2); [|apply raises_only_ret].
      apply raises_only_bind.
      { apply raises_only_lift. intros e H. unfold restore_bzip2_header in H.
        destruct data as [|a [|b [|c rest]]]; try discriminate; now injection H as <-. }
      intros d. apply raises_only_bind; [|intros; apply raises_only_ret].
      apply raises_only_lift. intros e H. destruct (bz2_decompress d); [discriminate|].
      now injection H as <-.
Qed.

(** With a tag among the four storage methods the dispatcher returns bytes,
    never Python's [None]. *)
Lemma decompress_block_some w self block_id t :
  Forall pointer_ok (chunk_pointers w self) ->
  decompress_block fs zlib_decompress bz2_decompress w self block_id <> (Ok None, t).
Proof.
  intros Hok. unfold decompress_block.
  destruct (py_index (chunk_pointers w self) block_id) as [[ty sz]|] eqn:Ep;
    cbn [of_option]; [|discriminate].
  unfold liftIO. rewrite bindIO_ret_l.
  assert (Hty : 0 <= ty <= 3).
  { assert (Hin : In (ty, sz) (chunk_pointers w self)).
    { unfold py_index in Ep. destruct (0 <=? block_id); [now apply nth_error_In in Ep|].
      destruct (_ <=? _); [now apply nth_error_In in Ep|discriminate]. }
    rewrite Forall_forall in Hok. now destruct (Hok _ Hin). }
  destruct (ty =? Zeros) eqn:E0.
  - destruct (sz <? 0); discriminate.
  - destruct (get_block fs w self block_id) as [[data|e] t0]; [|discriminate].
    cbn [bindIO].
    destruct (ty =? Data) eqn:E1; [discriminate|].
    destruct (ty =? Zlib) eqn:E2.
    + cbn. destruct (zlib_decompress data); discriminate.
    + destruct (ty =? Bzip2) eqn:E3.
      * cbn. destruct (restore_bzip2_header data) as [d|]; cbn; [|discriminate].
        destruct (bz2_decompress d); discriminate.
      * exfalso. unfold Zeros, Data, Zlib, Bzip2 in *. lia.
Qed.

Lemma uncompress_body_raises w self block_id crc :
  named w self -> Forall pointer_ok (chunk_pointers w self) ->
  raises_only opened_decompress_exn
    (uncompress_body fs zlib_crc32 zlib_decompress bz2_decompress w self block_id crc).
Proof.
  intros Hn Hok. unfold uncompress_body.
  pose proof (decompress_block_raises w self block_id Hn) as Hr.
  pose proof (fun t => decompress_block_some w self block_id t Hok) as Hs.
  destruct (decompress_block fs zlib_decompress bz2_decompress w self block_id)
    as [[[d|]|e] t].
  - intros e H. discriminate.
  - exfalso. now apply (Hs t).
  - intros e' H. apply Hr. cbn [bindIO fst] in *. injection H as <-. reflexivity.
Qed.

End Raises.

Section RaisesOpened.
Variable fs : string -> option bytes.
Variable zlib_crc32 : bytes -> Z -> Z.
Variables zlib_decompress bz2_decompress : bytes -> option bytes.
Variable flushed : list bytes -> nat.

Lemma extract_body_raises w self filename block_id st :
  named w self -> Forall pointer_ok (chunk_pointers w self) ->
  raises_only opened_decompress_exn
    (extract_body fs zlib_crc32 zlib_decompress bz2_decompress flushed w self filename
       block_id st).
Proof.
  intros Hn Hok. destruct st as [crc writes]. unfold extract_body.
  set (fs' := fs_while_extracting fs flushed filename writes).
  pose proof (decompress_block_raises fs' zlib_decompress bz2_decompress w self block_id Hn)
    as Hr.
  pose proof (fun t => decompress_block_some fs' zlib_decompress bz2_decompress w self
                         block_id t Hok) as Hs.
  destruct (decompress_block fs' zlib_decompress bz2_decompress w self block_id)
    as [[[d|]|e] t].
  - intros e H. discriminate.
  - exfalso. now apply (Hs t).
  - intros e' H. apply Hr. cbn [bindIO fst] in *. injection H as <-. reflexivity.
Qed.

Lemma open_isz_file_handle self name w w' :
  open_isz_file fs self name w = (Ok tt, w') ->
  named w' self /\ Forall pointer_ok (chunk_pointers w' self).
Proof.
  intros H.
  destruct (open_isz_file_ok _ _ _ _ _ H) as (data & w1 & w2 & Hd & H1 & Hseg & H2 & H3).
  assert (Hf1 : filename (objects w1 self) = Some name).
  { apply (keeps_read_header (fun w => filename (objects w self)) self) in H1;
      [|setter_frame|setter_frame].
    cbv beta in H1. rewrite H1. unfold opened, set_fp, set_filename, set_object. cbn.
    now rewrite !Nat.eqb_refl. }
  assert (Hf2 : filename (objects w2 self) = filename (objects w1 self)).
  { apply (keeps_read_segments (fun w => filename (objects w self)) self) in H2;
      [exact H2| | |]; setter_frame. }
  assert (Ho3 : (filename (objects w' self), name_generator (objects w' self))
                = (filename (objects w2 self), name_generator (objects w2 self))).
  { apply (keeps_read_chunk_pointers
             (fun w => (filename (objects w self), name_generator (objects w self))) self)
      in H3; [exact H3| |]; setter_frame. }
  injection Ho3 as Hf3 Hn3.
  assert (Hp1 : chunk_pointers w1 self = []).
  { apply (keeps_read_header (fun w => chunk_pointers w self) self) in H1;
      [|setter_frame|setter_frame].
    cbv beta in H1. rewrite H1. apply opened_tables. }
  assert (Hp2 : chunk_pointers w2 self = chunk_pointers w1 self).
  { apply (keeps_read_segments (fun w => chunk_pointers w self) self) in H2;
      [exact H2| | |]; setter_frame. }
  destruct (read_segments_ok fs self w1 w2 H2) as [[ng Hng] _].
  destruct (read_chunk_pointers_ok self w2 w' H3) as (added & Ha & Hok & _).
  rewrite Hp2, Hp1 in Ha. cbn [app] in Ha.
  split; [split|].
  - exists name. congruence.
  - exists ng. congruence.
  - now rewrite Ha.
Qed.

(** On a handle that a successful open has set up, the three traversals
    raise none of the interpreter's [TypeError] / [AttributeError] (no block
    decompresses to [None], no attribute is missing) and none of the errors
    of the open: [verify_isz_file] raises only the locator's exceptions,
    [verify_uncompress_isz_file] those and the codecs', [extract_to] those
    and the CRC error. *)
Theorem opened_traversals_raise self name w w' filename :
  open_isz_file fs self name w = (Ok tt, w') ->
  (forall e, fst (verify_isz_file fs zlib_crc32 w' self) = Raise e ->
             opened_locator_exn e = true) /\
  (forall e,
     fst (verify_uncompress_isz_file fs zlib_crc32 zlib_decompress bz2_decompress w' self)
     = Raise e -> opened_decompress_exn e = true) /\
  (forall e,
     fst (extract_to fs zlib_crc32 zlib_decompress bz2_decompress flushed w' self filename)
     = Raise e -> opened_extract_exn e = true) /\
  (forall block_id t,
     decompress_block fs zlib_decompress bz2_decompress w' self block_id <> (Ok None, t)).
Proof.
  intros H. destruct (open_isz_file_handle self name w w' H) as [Hn Hok].
  split; [|split; [|split]].
  - change (raises_only opened_locator_exn (verify_isz_file fs zlib_crc32 w' self)).
    unfold verify_isz_file. apply raises_only_bind; [|intros; apply raises_only_ret].
    apply raises_only_forIO. intros i crc.
    apply verify_body_raises; [reflexivity|now apply get_block_raises_named].
  - change (raises_only opened_decompress_exn
              (verify_uncompress_isz_file fs zlib_crc32 zlib_decompress bz2_decompress w' self)).
    unfold verify_uncompress_isz_file.
    apply raises_only_bind; [|intros; apply raises_only_ret].
    apply raises_only_forIO. intros i crc. now apply uncompress_body_raises.
  - change (raises_only opened_extract_exn
              (extract_to fs zlib_crc32 zlib_decompress bz2_decompress flushed w' self filename)).
    unfold extract_to.
    apply raises_only_bind; [apply raises_only_emit|intros _].
    apply raises_only_bind.
    { eapply raises_only_weaken; [|apply raises_only_forIO; intros i st;
                                    now apply extract_body_raises].
      intros e He. destruct e; try discriminate; reflexivity. }
    intros st. apply raises_only_bind; [apply raises_only_emit|intros _].
    destruct (negb _); [now apply raises_only_raise|apply raises_only_ret].
  - intros block_id t. now apply decompress_block_some.
Qed.

End RaisesOpened.

(* ================================================================= *)
(** ** An extraction that fails on a block *)

Lemma reads_only_in (t : list event) (ev : event) :
  reads t = t -> In ev t -> is_read ev = true.
Proof.
  intros H Hin. rewrite <- H in Hin. unfold reads in Hin.
  apply filter_In in Hin. apply Hin.
Qed.

Section PartialExtraction.
Variable fs : string -> option bytes.
Variable zlib_crc32 : bytes -> Z -> Z.
Variables zlib_decompress bz2_decompress : bytes -> option bytes.
Variable flushed : list bytes -> nat.

Lemma extract_loop_fails w self filename (before : list Z) :
  forall (ds : list bytes) crc k after e,
    Forall2 (fun i d => fst (decompress_block fs zlib_decompress bz2_decompress w self i)
                        = Ok (Some d)) before ds ->
    fst (decompress_block fs zlib_decompress bz2_decompress w self k) = Raise e ->
    exists t,
      forIO (before ++ k :: after)
            (stream_body fs zlib_crc32 zlib_decompress bz2_decompress w self filename) crc
      = (Raise e, t) /\
      written filename t = concat ds /\
      ~ In (EvClose filename) t.
Proof.
  induction before as [|i rest IH]; intros ds crc k after e Hds Hk;
    inversion Hds as [|i' d r' ds' Hd Hds' E1 E2]; subst; cbn [app forIO].
  - unfold stream_body at 1.
    pose proof (reads_only_decompress_block fs zlib_decompress bz2_decompress w self k) as Hr.
    unfold reads_only in Hr.
    destruct (decompress_block fs zlib_decompress bz2_decompress w self k) as [r t].
    cbn [fst snd] in Hk, Hr. subst r. exists t. cbn [bindIO concat].
    split; [reflexivity|]. split; [now apply written_reads|].
    intros Hin. now pose proof (reads_only_in t _ Hr Hin).
  - unfold stream_body at 1.
    pose proof (reads_only_decompress_block fs zlib_decompress bz2_decompress w self i) as Hr.
    unfold reads_only in Hr.
    destruct (decompress_block fs zlib_decompress bz2_decompress w self i) as [r t].
    cbn [fst snd] in Hd, Hr. subst r. cbn [bindIO emit retIO app].
    destruct (IH ds' (crc_step zlib_crc32 d crc) k after e Hds' Hk) as (t' & E & Hw & Hc).
    rewrite E. exists ((t ++ [EvWrite filename d]) ++ t'). split; [reflexivity|].
    split.
    + rewrite !written_app, (written_reads filename t Hr), Hw. cbn [written app concat].
      now rewrite String.eqb_refl, app_nil_r.
    + intros Hin. apply in_app_or in Hin. destruct Hin as [Hin|Hin]; [|now apply Hc].
      apply in_app_or in Hin. destruct Hin as [Hin|[Hin|[]]]; [|discriminate].
      now pose proof (reads_only_in t _ Hr Hin).
Qed.

Lemma uncompress_loop_fails w self (before : list Z) :
  forall (ds : list bytes) crc k after e,
    Forall2 (fun i d => fst (decompress_block fs zlib_decompress bz2_decompress w self i)
                        = Ok (Some d)) before ds ->
    fst (decompress_block fs zlib_decompress bz2_decompress w self k) = Raise e ->
    fst (forIO (before ++ k :: after)
               (uncompress_body fs zlib_crc32 zlib_decompress bz2_decompress w self) crc)
    = Raise e.
Proof.
  intros ds crc k after e Hds Hk.
  destruct (extract_loop_fails w self EmptyString before ds crc k after e Hds Hk)
    as (t & E & _).
  destruct (extract_loop_traversal fs zlib_crc32 zlib_decompress bz2_decompress w self
              EmptyString (before ++ k :: after) crc) as [E1 _].
  rewrite E in E1. now rewrite <- E1.
Qed.

(** When block [k] is the first that fails to decompress, [extract_to] to a
    destination that is none of the segment files raises that block's
    exception having written exactly the blocks before it, in order; the
    destination is not closed (line 359 is not reached), and nothing is
    compared with [checksum1]. *)
Theorem extract_to_partial w self filename k ds e :
  not_a_segment_file w self filename ->
  0 <= k < len (chunk_pointers w self) ->
  Forall2 (fun i d => fst (decompress_block fs zlib_decompress bz2_decompress w self i)
                      = Ok (Some d)) (range 0 k) ds ->
  fst (decompress_block fs zlib_decompress bz2_decompress w self k) = Raise e ->
  fst (extract_to fs zlib_crc32 zlib_decompress bz2_decompress flushed w self filename)
  = Raise e /\
  written filename
    (snd (extract_to fs zlib_crc32 zlib_decompress bz2_decompress flushed w self filename))
  = concat ds /\
  ~ In (EvClose filename)
      (snd (extract_to fs zlib_crc32 zlib_decompress bz2_decompress flushed w self
              filename)) /\
  fst (verify_uncompress_isz_file fs zlib_crc32 zlib_decompress bz2_decompress w self)
  = Raise e.
Proof.
  intros Hdest Hk Hds He.
  rewrite (extract_to_stream fs zlib_crc32 zlib_decompress bz2_decompress flushed w self
             filename Hdest).
  rewrite extract_stream_of_loop, verify_uncompress_unfold.
  rewrite (range_split 0 (len (chunk_pointers w self)) k Hk).
  destruct (extract_loop_fails w self filename (range 0 k) ds 0 k
              (range (k + 1) (len (chunk_pointers w self))) e Hds He) as (t & E & Hw & Hc).
  rewrite E. cbn [fst snd written].
  pose proof (uncompress_loop_fails w self (range 0 k) ds 0 k
                (range (k + 1) (len (chunk_pointers w self))) e Hds He) as Hv.
  destruct (forIO _ (uncompress_body _ _ _ _ _ _) 0) as [r t2]. cbn [fst] in Hv. subst r.
  repeat split; try assumption.
  intros [Hin|Hin]; [discriminate|now apply Hc].
Qed.

End PartialExtraction.

(* ================================================================= *)
(** ** Short files, short blocks, closed handles *)

Section Edges.
Variable fs : string -> option bytes.
Variable zlib_crc32 : bytes -> Z -> Z.
Variables zlib_decompress bz2_decompress : bytes -> option bytes.
Variable flushed : list bytes -> nat.

(** A non-empty block that is read in one piece from a segment file that
    ends before the block does (also one that starts at or after the end of
    the file) makes the locator raise the error naming the block, after the
    one read. *)
Theorem get_block_truncated w self block_id block_type block_size seg_id segment
        name content :
  located (isz_segments w self) block_id seg_id segment ->
  0 <= first_chunck_number segment ->
  nth_error (chunk_pointers w self) (Z.to_nat block_id) = Some (block_type, block_size) ->
  get_segment_name w self (Z.of_nat seg_id) = Ok name ->
  fs name = Some content ->
  block_id <> first_chunck_number segment + number_of_chunks segment - 1
  \/ left_size segment = 0 ->
  0 < block_size ->
  0 <= chunk_offset segment
       + preceding_stored_size (chunk_pointers w self) (first_chunck_number segment) block_id ->
  len content
  < chunk_offset segment
    + preceding_stored_size (chunk_pointers w self) (first_chunck_number segment) block_id
    + block_size ->
  get_block fs w self block_id =
    (Raise (UnableToReadBlock block_id),
     [EvRead name
        (chunk_offset segment
         + preceding_stored_size (chunk_pointers w self) (first_chunck_number segment)
             block_id)
        block_size]).
Proof.
  intros Hloc Hfirst Hptr Hn Hc Hcase Hpos Hoff Hshort.
  rewrite (get_block_located fs w self block_id block_type block_size seg_id segment
             Hloc Hfirst Hptr).
  set (offset := chunk_offset segment + _) in *.
  rewrite (read_block_single fs w self block_id block_size (Z.of_nat seg_id) segment
             offset name content Hn Hc Hoff (Z.lt_le_incl _ _ Hpos) Hcase).
  unfold len in *. rewrite length_firstn, length_skipn. clearbody offset.
  destruct (Z.eqb_spec
              (Z.of_nat (Nat.min (Z.to_nat block_size) (length content - Z.to_nat offset)))
              block_size) as [E|E]; [lia|reflexivity].
Qed.

(** A Bzip2 block of fewer than three bytes fails at the header patch with
    [IndexError]; the codec is not called. *)
Theorem decompress_block_short_bzip2 w self block_id size data t :
  py_index (chunk_pointers w self) block_id = Some (Bzip2, size) ->
  get_block fs w self block_id = (Ok data, t) ->
  size < 3 ->
  decompress_block fs zlib_decompress bz2_decompress w self block_id = (Raise IndexError, t).
Proof.
  intros Hp Hg Hs.
  pose proof (get_block_ok_len fs w self block_id Bzip2 size data t Hp Hg) as Hlen.
  unfold decompress_block. rewrite Hp. cbn [of_option]. unfold liftIO.
  rewrite bindIO_ret_l. cbn [Bzip2 Zeros Data Zlib Z.eqb Pos.eqb]. rewrite Hg.
  cbn [bindIO]. unfold len in Hlen.
  destruct data as [|a [|b [|c rest]]]; cbn [length] in Hlen; try lia;
    cbn; now rewrite app_nil_r.
Qed.

(** [close_file] empties the tables but keeps the header: on a closed handle
    every block id is out of range, the two verifications read nothing and
    compare the CRC of no data, [0xFFFFFFFF], with the checksums of the
    header still loaded, and an extraction creates an empty image. *)
Theorem closed_handle_traversals self w filename :
  isz_header (snd (close_file self w)) self = isz_header w self /\
  (forall block_id,
     get_block fs (snd (close_file self w)) self block_id = (Raise IndexError, [])) /\
  verify_isz_file fs zlib_crc32 (snd (close_file self w)) self
  = (Ok (4294967295 =? checksum2 (isz_header w self)), []) /\
  verify_uncompress_isz_file fs zlib_crc32 zlib_decompress bz2_decompress
    (snd (close_file self w)) self
  = (Ok (4294967295 =? checksum1 (isz_header w self)), []) /\
  extract_to fs zlib_crc32 zlib_decompress bz2_decompress flushed (snd (close_file self w))
    self filename
  = ((if 4294967295 =? checksum1 (isz_header w self) then Ok tt else Raise CRCError),
     [EvCreate filename; EvClose filename]).
Proof.
  assert (Hp : chunk_pointers (snd (close_file self w)) self = []).
  { unfold close_file, bindM, modifyM. cbn [snd]. setter_frame. }
  assert (Hh : isz_header (snd (close_file self w)) self = isz_header w self)
    by reflexivity.
  split; [exact Hh|]. split; [|split; [|split]].
  - intros block_id. unfold get_block. rewrite Hp. unfold py_index. cbn [length Z.of_nat].
    destruct (0 <=? block_id) eqn:E.
    + destruct (Z.to_nat block_id); reflexivity.
    + replace (- 0 <=? block_id) with false by lia. reflexivity.
  - unfold verify_isz_file. rewrite Hp, Hh. reflexivity.
  - unfold verify_uncompress_isz_file. rewrite Hp, Hh. reflexivity.
  - unfold extract_to. rewrite Hp, Hh. cbn [len length Z.of_nat range].
    change (range 0 0) with (@nil Z). cbn [forIO]. unfold crc_final.
    unfold bindIO, emit, retIO, raiseIO. cbn [fst].
    change (Z.land (Z.lnot 0) 4294967295) with 4294967295.
    destruct (4294967295 =? checksum1 (isz_header w self)); reflexivity.
Qed.

End Edges.

(* ================================================================= *)
(** ** An open does not depend on what came before *)

Ltac same_handle_setter :=
  intros;
  match goal with
  | H : same_handle _ _ _ |- _ =>
      destruct H as (?Hh & (?segs & ?Hs1 & ?Hs2) & (?ptrs & ?Hp1 & ?Hp2) & ?Hfp & ?Hfn)
  end;
  unfold same_handle, append_isz_segment, append_chunk_pointer, assign_isz_segments,
    assign_chunk_pointers, set_name_generator, set_filename, set_fp, set_header, set_object;
  repeat match goal with
         | H : ?x = Some _ |- context [?x] => rewrite H
         end;
  cbn; rewrite ?Nat.eqb_refl; cbn;
  repeat split; eauto; try congruence.

Section Agrees.
Variable self : nat.

Lemma agrees_ret {A} (a : A) : agrees self (retM a).
Proof. intros w1 w2 H. now split. Qed.

Lemma agrees_raise {A} (e : exn) : agrees self (@raiseM A e).
Proof. intros w1 w2 H. now split. Qed.

Lemma agrees_lift {A} (r : result A) : agrees self (liftM r).
Proof. intros w1 w2 H. now split. Qed.

Lemma agrees_get {A} (f : World -> A) :
  (forall w1 w2, same_handle self w1 w2 -> f w1 = f w2) -> agrees self (getM f).
Proof. intros Hf w1 w2 H. split; [cbn; f_equal; now apply Hf|exact H]. Qed.

Lemma agrees_read {A} (f : World -> result A) :
  (forall w1 w2, same_handle self w1 w2 -> f w1 = f w2) ->
  agrees self (fun w => (f w, w)).
Proof. intros Hf w1 w2 H. split; [cbn; now apply Hf|exact H]. Qed.

Lemma agrees_modify (f : World -> World) :
  (forall w1 w2, same_handle self w1 w2 -> same_handle self (f w1) (f w2)) ->
  agrees self (modifyM f).
Proof. intros Hf w1 w2 H. split; [reflexivity|now apply Hf]. Qed.

Lemma agrees_bind {A B} (m : M A) (k : A -> M B) :
  agrees self m -> (forall a, agrees self (k a)) -> agrees self (bindM m k).
Proof.
  intros Hm Hk w1 w2 H. unfold bindM.
  destruct (Hm w1 w2 H) as [E R].
  destruct (m w1) as [[a1|e1] w1'], (m w2) as [[a2|e2] w2']; cbn [fst snd] in *;
    try discriminate.
  - injection E as ->. now apply Hk.
  - injection E as ->. now split.
Qed.

Lemma agrees_forM {A} (l : list A) (body : A -> M unit) :
  (forall a, agrees self (body a)) -> agrees self (forM l body).
Proof.
  intros Hb. induction l as [|a rest IH]; cbn [forM].
  - apply agrees_ret.
  - apply agrees_bind; [apply Hb|intros _; exact IH].
Qed.

Lemma agrees_fp_seek (offset : Z) : agrees self (fp_seek self offset).
Proof.
  intros w1 w2 H. unfold fp_seek.
  assert (Hfp : fp (objects w1 self) = fp (objects w2 self)) by apply H.
  rewrite <- Hfp. destruct (fp (objects w1 self)); cbn [fst snd]; split;
    try reflexivity; try exact H.
  revert H. same_handle_setter.
Qed.

Lemma agrees_fp_read (n : Z) : agrees self (fp_read self n).
Proof.
  intros w1 w2 H. unfold fp_read.
  assert (Hfp : fp (objects w1 self) = fp (objects w2 self)) by apply H.
  rewrite <- Hfp. destruct (fp (objects w1 self)); cbn [fst snd]; split;
    try reflexivity; try exact H.
  revert H. same_handle_setter.
Qed.

Lemma same_handle_header w1 w2 :
  same_handle self w1 w2 -> isz_header w1 self = isz_header w2 self.
Proof. intros H. apply H. Qed.

Lemma same_handle_segments w1 w2 :
  same_handle self w1 w2 -> isz_segments w1 self = isz_segments w2 self.
Proof.
  intros (_ & (segs & H1 & H2) & _). unfold isz_segments. now rewrite H1, H2.
Qed.

Lemma same_handle_pointers w1 w2 :
  same_handle self w1 w2 -> chunk_pointers w1 self = chunk_pointers w2 self.
Proof.
  intros (_ & _ & (ptrs & H1 & H2) & _). unfold chunk_pointers. now rewrite H1, H2.
Qed.

Lemma agrees_read_segment : agrees self (read_segment self).
Proof.
  unfold read_segment. apply agrees_bind; [apply agrees_fp_read|intros; apply agrees_lift].
Qed.

Lemma agrees_read_segments_loop (fuel : nat) :
  forall seg, agrees self (read_segments_loop fuel self seg).
Proof.
  induction fuel as [|fuel IH]; intros seg; cbn [read_segments_loop];
    destruct (sdt_size seg =? 0); try apply agrees_ret; try apply agrees_raise.
  apply agrees_bind; [apply agrees_modify; same_handle_setter|intros _].
  apply agrees_bind; [apply agrees_read_segment|exact IH].
Qed.

Lemma agrees_read_segment_table : agrees self (read_segment_table self).
Proof.
  unfold read_segment_table.
  apply agrees_bind; [apply agrees_get; apply same_handle_header|intros hdr].
  destruct (segment_pointers_offset hdr =? 0); [apply agrees_modify; same_handle_setter|].
  apply agrees_bind; [apply agrees_fp_seek|intros _].
  apply agrees_bind; [apply agrees_read_segment|intros seg].
  apply agrees_bind; [|intros fuel; apply agrees_read_segments_loop].
  apply agrees_get. intros w1 w2 H.
  assert (Hfp : fp (objects w1 self) = fp (objects w2 self)) by apply H.
  now rewrite Hfp.
Qed.

Lemma agrees_read_chunk_pointers : agrees self (read_chunk_pointers self).
Proof.
  unfold read_chunk_pointers.
  apply agrees_bind; [apply agrees_get; apply same_handle_header|intros hdr].
  destruct (chunk_pointers_offset hdr =? 0); [apply agrees_modify; same_handle_setter|].
  destruct (negb (pointer_length hdr =? 3)); [apply agrees_raise|].
  apply agrees_bind; [apply agrees_fp_seek|intros _].
  apply agrees_bind; [apply agrees_fp_read|intros data].
  apply agrees_forM. intros i. unfold unpack_loop_body.
  apply agrees_bind; [apply agrees_lift|intros tup].
  apply agrees_modify. same_handle_setter.
Qed.

End Agrees.

Section HistoryIndependence.
Variable fs : string -> option bytes.
Variable zlib_crc32 : bytes -> Z -> Z.
Variables zlib_decompress bz2_decompress : bytes -> option bytes.

Lemma select_convention_eq self w :
  select_convention fs self w =
    match choose_convention fs (filename (objects w self)) (len (isz_segments w self)) with
    | Ok ng => (Ok tt, set_name_generator self ng w)
    | Raise e => (Raise e, w)
    end.
Proof.
  unfold select_convention, choose_convention, bindM, getM.
  destruct (1 <? len (isz_segments w self)); [|reflexivity].
  unfold detect_file_naming_convention, bindM.
  destruct (filename (objects w self)) as [fname|]; cbn [of_option]; [|reflexivity].
  destruct (endswith fname ".isz"); [|reflexivity].
  cbn [try_name_generators call_namegen].
  destruct (path_exists fs (name_generator_1 fname 1)); [reflexivity|].
  destruct (path_exists fs (name_generator_2 fname 1)); [reflexivity|].
  destruct (path_exists fs (name_generator_3 fname 1)); reflexivity.
Qed.

Lemma get_segment_name_ext self w1 w2 seg_id :
  same_tables self w1 w2 -> get_segment_name w1 self seg_id = get_segment_name w2 self seg_id.
Proof.
  intros (_ & _ & _ & Hf & Hn). unfold get_segment_name. now rewrite Hf, Hn.
Qed.

Lemma read_segments_eq self w :
  read_segments fs self w =
    match read_segment_table self w with
    | (Ok _, t) =>
        match choose_convention fs (filename (objects t self))
                (len (isz_segments t self)) with
        | Ok ng => (check_segment_names fs (set_name_generator self ng t) self,
                    set_name_generator self ng t)
        | Raise e => (Raise e, t)
        end
    | (Raise e, t) => (Raise e, t)
    end.
Proof.
  unfold read_segments, bindM at 1.
  destruct (read_segment_table self w) as [[[]|e] t]; [|reflexivity].
  unfold resolve_segment_names, bindM. rewrite select_convention_eq.
  destruct (choose_convention _ _ _); reflexivity.
Qed.

Lemma read_segments_agrees self w1 w2 :
  same_handle self w1 w2 ->
  fst (read_segments fs self w1) = fst (read_segments fs self w2) /\
  same_handle self (snd (read_segments fs self w1)) (snd (read_segments fs self w2)) /\
  (fst (read_segments fs self w1) = Ok tt ->
   name_generator (objects (snd (read_segments fs self w1)) self)
   = name_generator (objects (snd (read_segments fs self w2)) self)).
Proof.
  intros H. rewrite !read_segments_eq.
  destruct (agrees_read_segment_table self w1 w2 H) as [E R].
  destruct (read_segment_table self w1) as [[[]|e1] t1],
           (read_segment_table self w2) as [[[]|e2] t2]; cbn [fst snd] in *;
    try discriminate.
  2: { injection E as ->. split; [reflexivity|]. split; [exact R|discriminate]. }
  assert (Hfn : filename (objects t1 self) = filename (objects t2 self)) by apply R.
  rewrite (same_handle_segments self t1 t2 R), Hfn.
  destruct (choose_convention fs (filename (objects t2 self)) (len (isz_segments t2 self)))
    as [ng|e]; cbn [fst snd].
  - assert (R' : same_handle self (set_name_generator self ng t1)
                                  (set_name_generator self ng t2))
      by (revert R; same_handle_setter).
    assert (Hc : check_segment_names fs (set_name_generator self ng t1) self
                 = check_segment_names fs (set_name_generator self ng t2) self).
    { unfold check_segment_names.
      rewrite (same_handle_segments self _ _ R').
      f_equal. unfold get_segment_name, set_name_generator, set_object. cbn.
      rewrite !Nat.eqb_refl. cbn. now rewrite Hfn. }
    rewrite Hc. split; [reflexivity|]. split; [exact R'|].
    intros _. unfold set_name_generator, set_object. cbn. now rewrite !Nat.eqb_refl.
  - split; [reflexivity|]. split; [exact R|discriminate].
Qed.

Lemma opened_same_handle self name data w1 w2 h :
  same_handle self
    (set_header h (set_fp self (Some (mk_file data 64)) (opened self name data w1)))
    (set_header h (set_fp self (Some (mk_file data 64)) (opened self name data w2))).
Proof.
  unfold same_handle, opened.
  split; [reflexivity|]. split; [|split; [|split]].
  - exists []. split; handle_fields; reflexivity.
  - exists []. split; handle_fields; reflexivity.
  - handle_fields; reflexivity.
  - handle_fields; reflexivity.
Qed.

Lemma open_isz_file_agrees self name w1 w2 :
  length (cls_isz_header w1) = 64%nat ->
  length (cls_isz_header w2) = 64%nat ->
  fst (open_isz_file fs self name w1) = fst (open_isz_file fs self name w2) /\
  (fst (open_isz_file fs self name w1) = Ok tt ->
   same_tables self (snd (open_isz_file fs self name w1))
                    (snd (open_isz_file fs self name w2))).
Proof.
  intros Hwf1 Hwf2.
  destruct (fs name) as [data|] eqn:Hd.
  2: { unfold open_isz_file, close_file, bindM, modifyM, liftM. rewrite Hd. cbn [of_option fst].
       split; [reflexivity|discriminate]. }
  rewrite !(open_isz_file_after_header fs self name _ data Hd).
  destruct (Nat.lt_ge_cases (length data) 64) as [Hlen|Hlen].
  { rewrite !read_header_opened. cbv zeta. unfold len. rewrite length_firstn.
    replace (Nat.min 64 (length data)) with (length data) by lia.
    replace (Z.of_nat (length data) =? 64) with false by lia. cbn [negb fst].
    split; [reflexivity|discriminate]. }
  rewrite !(read_header_of_file self name data _ Hlen).
  rewrite (skipn_all2 (cls_isz_header w1)), (skipn_all2 (cls_isz_header w2)) by lia.
  rewrite app_nil_r.
  destruct (negb (bytes_eqb (firstn 4 data) isz_magic));
    [split; [reflexivity|discriminate]|].
  destruct (negb (version_number (firstn 64 data) =? 1));
    [split; [reflexivity|discriminate]|].
  pose proof (opened_same_handle self name data w1 w2 (firstn 64 data)) as R.
  set (v1 := set_header _ (set_fp _ _ (opened self name data w1))) in *.
  set (v2 := set_header _ (set_fp _ _ (opened self name data w2))) in *.
  assert (Hh : isz_header v1 self = isz_header v2 self) by reflexivity.
  rewrite Hh.
  destruct (negb (file_seg_number (isz_header v2 self) =? 0));
    [split; [reflexivity|discriminate]|].
  unfold bindM.
  destruct (read_segments_agrees self v1 v2 R) as (E & R2 & Hng).
  destruct (read_segments fs self v1) as [[[]|e1] u1],
           (read_segments fs self v2) as [[[]|e2] u2]; cbn [fst snd] in *;
    try discriminate.
  2: { injection E as ->. split; [reflexivity|discriminate]. }
  specialize (Hng eq_refl).
  destruct (agrees_read_chunk_pointers self u1 u2 R2) as [E3 R3].
  assert (K : forall u,
             name_generator (objects (snd (read_chunk_pointers self u)) self)
             = name_generator (objects u self)).
  { intros u.
    apply (keeps_read_chunk_pointers (fun w => name_generator (objects w self)) self)
      with (r := fst (read_chunk_pointers self u));
      [setter_frame|setter_frame|now destruct (read_chunk_pointers self u)]. }
  pose proof (K u1) as K1. pose proof (K u2) as K2.
  split; [exact E3|]. intros _.
  unfold same_tables.
  rewrite (same_handle_header self _ _ R3), (same_handle_segments self _ _ R3),
    (same_handle_pointers self _ _ R3), K1, K2, Hng.
  repeat split. apply R3.
Qed.


Lemma read_data_ext self w1 w2 seg_id offset size :
  same_tables self w1 w2 ->
  read_data fs w1 self seg_id offset size = read_data fs w2 self seg_id offset size.
Proof.
  intros H. unfold read_data. now rewrite (get_segment_name_ext self w1 w2 seg_id H).
Qed.

Lemma read_block_ext self w1 w2 block_id block_size seg_id segment cur_offset :
  same_tables self w1 w2 ->
  read_block fs w1 self block_id block_size seg_id segment cur_offset
  = read_block fs w2 self block_id block_size seg_id segment cur_offset.
Proof.
  intros H. unfold read_block. rewrite (read_data_ext self w1 w2 _ _ _ H).
  apply bindIO_ext. intros data.
  now rewrite (read_data_ext self w1 w2 _ _ _ H).
Qed.

Lemma scan_segments_ext self w1 w2 block_id block_size (segs : list ISZ_sdt) :
  same_tables self w1 w2 ->
  forall seg_id,
    scan_segments fs w1 self block_id block_size segs seg_id
    = scan_segments fs w2 self block_id block_size segs seg_id.
Proof.
  intros H. pose proof H as (_ & _ & Hp & _).
  induction segs as [|s rest IH]; intros seg_id; cbn [scan_segments]; [reflexivity|].
  rewrite Hp, IH. destruct (_ && _); [|reflexivity].
  apply bindIO_ext. intros off. now apply read_block_ext.
Qed.

Lemma get_block_ext self w1 w2 block_id :
  same_tables self w1 w2 -> get_block fs w1 self block_id = get_block fs w2 self block_id.
Proof.
  intros H. pose proof H as (_ & Hs & Hp & _). unfold get_block. rewrite Hs, Hp.
  apply bindIO_ext. intros [ty sz]. now apply scan_segments_ext.
Qed.

Lemma decompress_block_ext self w1 w2 block_id :
  same_tables self w1 w2 ->
  decompress_block fs zlib_decompress bz2_decompress w1 self block_id
  = decompress_block fs zlib_decompress bz2_decompress w2 self block_id.
Proof.
  intros H. pose proof H as (_ & _ & Hp & _). unfold decompress_block.
  now rewrite Hp, (get_block_ext self w1 w2 block_id H).
Qed.

End HistoryIndependence.

Section HistoryTraversals.
Variable fs : string -> option bytes.
Variable zlib_crc32 : bytes -> Z -> Z.
Variables zlib_decompress bz2_decompress : bytes -> option bytes.
Variable flushed : list bytes -> nat.

(** The traversals read nothing of the state but these tables. *)
Lemma traversals_ext self w1 w2 filename :
  same_tables self w1 w2 ->
  verify_isz_file fs zlib_crc32 w1 self = verify_isz_file fs zlib_crc32 w2 self /\
  verify_uncompress_isz_file fs zlib_crc32 zlib_decompress bz2_decompress w1 self
  = verify_uncompress_isz_file fs zlib_crc32 zlib_decompress bz2_decompress w2 self /\
  extract_to fs zlib_crc32 zlib_decompress bz2_decompress flushed w1 self filename
  = extract_to fs zlib_crc32 zlib_decompress bz2_decompress flushed w2 self filename.
Proof.
  intros H. pose proof H as (Hh & _ & Hp & _).
  unfold verify_isz_file, verify_uncompress_isz_file, extract_to.
  rewrite Hh, Hp.
  rewrite (forIO_ext _ (verify_body fs zlib_crc32 w1 self)
             (verify_body fs zlib_crc32 w2 self)).
  2: { intros i crc. unfold verify_body. now rewrite Hp, (get_block_ext fs self w1 w2 i H). }
  rewrite (forIO_ext _
             (uncompress_body fs zlib_crc32 zlib_decompress bz2_decompress w1 self)
             (uncompress_body fs zlib_crc32 zlib_decompress bz2_decompress w2 self)).
  2: { intros i crc. unfold uncompress_body.
       now rewrite (decompress_block_ext fs zlib_decompress bz2_decompress self w1 w2 i H). }
  rewrite (forIO_ext _
             (extract_body fs zlib_crc32 zlib_decompress bz2_decompress flushed w1 self
                filename)
             (extract_body fs zlib_crc32 zlib_decompress bz2_decompress flushed w2 self
                filename)).
  2: { intros i [crc writes]. unfold extract_body.
       now rewrite (decompress_block_ext _ zlib_decompress bz2_decompress self w1 w2 i H). }
  repeat split.
Qed.

(** The outcome of [open_isz_file] depends on the file system and the name
    only: from any two states (whatever this handle or another did before,
    whatever header the class object holds) it returns or raises the same,
    and when it succeeds it leaves the same header, segments, chunk pointers,
    file name and name generator -- hence the same verdicts of the
    verifications. *)
Theorem open_isz_file_history self name w1 w2 filename :
  length (cls_isz_header w1) = 64%nat ->
  length (cls_isz_header w2) = 64%nat ->
  fst (open_isz_file fs self name w1) = fst (open_isz_file fs self name w2) /\
  (fst (open_isz_file fs self name w1) = Ok tt ->
   same_tables self (snd (open_isz_file fs self name w1))
                    (snd (open_isz_file fs self name w2)) /\
   verify_isz_file fs zlib_crc32 (snd (open_isz_file fs self name w1)) self
   = verify_isz_file fs zlib_crc32 (snd (open_isz_file fs self name w2)) self /\
   verify_uncompress_isz_file fs zlib_crc32 zlib_decompress bz2_decompress
     (snd (open_isz_file fs self name w1)) self
   = verify_uncompress_isz_file fs zlib_crc32 zlib_decompress bz2_decompress
       (snd (open_isz_file fs self name w2)) self /\
   extract_to fs zlib_crc32 zlib_decompress bz2_decompress flushed
     (snd (open_isz_file fs self name w1)) self filename
   = extract_to fs zlib_crc32 zlib_decompress bz2_decompress flushed
       (snd (open_isz_file fs self name w2)) self filename).
Proof.
  intros Hwf1 Hwf2.
  destruct (open_isz_file_agrees fs self name w1 w2 Hwf1 Hwf2) as [E Hsame].
  split; [exact E|]. intros Hok. specialize (Hsame Hok).
  split; [exact Hsame|]. now apply traversals_ext.
Qed.

End HistoryTraversals.

(* ================================================================= *)
(** ** The outcomes above, on the sample containers *)

Lemma open_isz_file_rejects_witness :
  fst (open_isz_file Examples.edge_fs 0 "part.i01" initial_world) = Raise NotFirstSegment /\
  fst (open_isz_file Examples.edge_fs 0 "v2.isz" initial_world) = Raise VersionNotSupported /\
  fst (open_isz_file Examples.edge_fs 0 "text.isz" initial_world) = Raise InvalidSignature /\
  fst (open_isz_file Examples.edge_fs 0 "short.isz" initial_world)
  = Raise (HeaderShortRead 40) /\
  fst (open_isz_file Examples.edge_fs 0 "none.isz" initial_world)
  = Raise (FileNotFoundError "none.isz").
Proof.
  split; [|split; [|split; [|split]]].
  - refine (proj2 (proj2 (proj2 (proj1 (proj2 (open_isz_file_rejects Examples.edge_fs 0%nat
              "part.i01"%string initial_world)) Examples.part_i01 _))) _ _ _ _).
    + reflexivity.
    + vm_compute. lia.
    + reflexivity.
    + reflexivity.
    + vm_compute. discriminate.
  - refine (proj1 (proj2 (proj2 (proj1 (proj2 (open_isz_file_rejects Examples.edge_fs 0%nat
              "v2.isz"%string initial_world)) Examples.v2_isz _))) _ _ _).
    + reflexivity.
    + vm_compute. lia.
    + reflexivity.
    + vm_compute. discriminate.
  - refine (proj1 (proj2 (proj1 (proj2 (open_isz_file_rejects Examples.edge_fs 0%nat
              "text.isz"%string initial_world)) Examples.text_isz _)) _ _).
    + reflexivity.
    + vm_compute. lia.
    + vm_compute. discriminate.
  - refine (proj1 (proj1 (proj2 (open_isz_file_rejects Examples.edge_fs 0%nat
              "short.isz"%string initial_world)) Examples.short_isz _) _).
    + reflexivity.
    + vm_compute. lia.
  - refine (proj1 (open_isz_file_rejects Examples.edge_fs 0%nat "none.isz"%string
              initial_world) _).
    reflexivity.
Defined.

Lemma open_isz_file_accepts_witness :
  exists data,
    Examples.sample_fs "disk.isz"%string = Some data /\
    (64 <= length data)%nat /\
    firstn 4 data = isz_magic /\
    isz_header Examples.disk_world 0 = firstn 64 data /\
    version_number (isz_header Examples.disk_world 0) = 1 /\
    file_seg_number (isz_header Examples.disk_world 0) = 0 /\
    filename (objects Examples.disk_world 0) = Some "disk.isz"%string /\
    (exists ng, name_generator (objects Examples.disk_world 0) = Some ng) /\
    (forall i, 0 <= i < len (isz_segments Examples.disk_world 0) ->
       exists segment_name,
         get_segment_name Examples.disk_world 0 i = Ok segment_name /\
         path_exists Examples.sample_fs segment_name = true) /\
    Forall pointer_ok (chunk_pointers Examples.disk_world 0) /\
    len (chunk_pointers Examples.disk_world 0)
    = (if chunk_pointers_offset (isz_header Examples.disk_world 0) =? 0 then 1
       else nblock (isz_header Examples.disk_world 0)).
Proof.
  refine (open_isz_file_accepts Examples.sample_fs 0%nat "disk.isz"%string initial_world
            Examples.disk_world _ _).
  - vm_compute. reflexivity.
  - reflexivity.
Defined.

Lemma opened_traversals_raise_witness :
  opened_locator_exn (UnableToReadBlock 2) = true /\
  opened_decompress_exn IndexError = true /\
  opened_extract_exn IndexError = true.
Proof.
  pose proof (opened_traversals_raise Examples.edge_fs Examples.crc32 Examples.toy_zlib
                Examples.toy_bz2 Examples.flush_8k 0%nat "cut.isz"%string initial_world Examples.cut_world
                "cut.iso"%string) as H.
  destruct H as (H1 & H2 & H3 & _).
  - vm_compute. reflexivity.
  - split; [|split].
    + apply H1. vm_compute. reflexivity.
    + apply H2. vm_compute. reflexivity.
    + apply H3. vm_compute. reflexivity.
Defined.

Lemma extract_to_partial_witness :
  fst (extract_to Examples.edge_fs Examples.crc32 Examples.toy_zlib Examples.toy_bz2
         Examples.flush_8k Examples.cut_world 0 "cut.iso") = Raise IndexError /\
  written "cut.iso"
    (snd (extract_to Examples.edge_fs Examples.crc32 Examples.toy_zlib Examples.toy_bz2
            Examples.flush_8k Examples.cut_world 0 "cut.iso"))
  = concat [[x01; x02]] /\
  ~ In (EvClose "cut.iso")
      (snd (extract_to Examples.edge_fs Examples.crc32 Examples.toy_zlib Examples.toy_bz2
              Examples.flush_8k Examples.cut_world 0 "cut.iso")) /\
  fst (verify_uncompress_isz_file Examples.edge_fs Examples.crc32 Examples.toy_zlib
         Examples.toy_bz2 Examples.cut_world 0) = Raise IndexError.
Proof.
  refine (extract_to_partial Examples.edge_fs Examples.crc32 Examples.toy_zlib
            Examples.toy_bz2 Examples.flush_8k Examples.cut_world 0%nat "cut.iso"%string 1
            [[x01; x02]] IndexError _ _ _ _).
  - intros seg_id _. vm_compute. discriminate.
  - vm_compute. split; [discriminate|reflexivity].
  - vm_compute. repeat constructor.
  - vm_compute. reflexivity.
Defined.

Lemma cut_block2_located :
  located (isz_segments Examples.cut_world 0) 2 0 (mk_sdt 0 3 0 73 0).
Proof.
  split; [vm_compute; reflexivity|].
  split; [unfold in_segment; cbn; lia|].
  intros j s Hj. lia.
Qed.

Lemma get_block_truncated_witness :
  get_block Examples.edge_fs Examples.cut_world 0 2
  = (Raise (UnableToReadBlock 2), [EvRead "cut.isz" 77 4]).
Proof.
  refine (get_block_truncated Examples.edge_fs Examples.cut_world 0%nat 2 Data 4 0%nat
            (mk_sdt 0 3 0 73 0) "cut.isz"%string Examples.cut_isz
            cut_block2_located _ _ _ _ _ _ _ _).
  - cbn. lia.
  - vm_compute. reflexivity.
  - vm_compute. reflexivity.
  - vm_compute. reflexivity.
  - right. reflexivity.
  - lia.
  - vm_compute. discriminate.
  - vm_compute. reflexivity.
Defined.

Lemma decompress_block_short_bzip2_witness :
  decompress_block Examples.edge_fs Examples.toy_zlib Examples.toy_bz2 Examples.cut_world 0 1
  = (Raise IndexError, [EvRead "cut.isz" 75 2]).
Proof.
  refine (decompress_block_short_bzip2 Examples.edge_fs Examples.toy_zlib Examples.toy_bz2
            Examples.cut_world 0%nat 1 2 [x42; x5a] [EvRead "cut.isz"%string 75 2] _ _ _).
  - vm_compute. reflexivity.
  - vm_compute. reflexivity.
  - lia.
Defined.

Lemma open_isz_file_history_witness :
  fst (open_isz_file Examples.sample_fs 0 "disk.isz" initial_world)
  = fst (open_isz_file Examples.sample_fs 0 "disk.isz" Examples.both_world) /\
  (fst (open_isz_file Examples.sample_fs 0 "disk.isz" initial_world) = Ok tt ->
   same_tables 0 (snd (open_isz_file Examples.sample_fs 0 "disk.isz" initial_world))
     (snd (open_isz_file Examples.sample_fs 0 "disk.isz" Examples.both_world)) /\
   verify_isz_file Examples.sample_fs Examples.crc32
     (snd (open_isz_file Examples.sample_fs 0 "disk.isz" initial_world)) 0
   = verify_isz_file Examples.sample_fs Examples.crc32
       (snd (open_isz_file Examples.sample_fs 0 "disk.isz" Examples.both_world)) 0 /\
   verify_uncompress_isz_file Examples.sample_fs Examples.crc32 Examples.toy_zlib
     Examples.toy_bz2 (snd (open_isz_file Examples.sample_fs 0 "disk.isz" initial_world)) 0
   = verify_uncompress_isz_file Examples.sample_fs Examples.crc32 Examples.toy_zlib
       Examples.toy_bz2
       (snd (open_isz_file Examples.sample_fs 0 "disk.isz" Examples.both_world)) 0 /\
   extract_to Examples.sample_fs Examples.crc32 Examples.toy_zlib Examples.toy_bz2 Examples.flush_8k
     (snd (open_isz_file Examples.sample_fs 0 "disk.isz" initial_world)) 0 "disk.iso"
   = extract_to Examples.sample_fs Examples.crc32 Examples.toy_zlib Examples.toy_bz2 Examples.flush_8k
       (snd (open_isz_file Examples.sample_fs 0 "disk.isz" Examples.both_world)) 0
       "disk.iso").
Proof.
  refine (open_isz_file_history Examples.sample_fs Examples.crc32 Examples.toy_zlib
            Examples.toy_bz2 Examples.flush_8k 0%nat "disk.isz"%string initial_world Examples.both_world
            "disk.iso"%string _ _).
  - reflexivity.
  - vm_compute. reflexivity.
Defined.

(* ================================================================= *)
(** ** The explicit segment table, record by record *)

Lemma read_segment_at self w content pos :
  fp (objects w self) = Some (mk_file content pos) ->
  read_segment self w =
    (sdt_from_buffer_copy (xor_obfuscate (slice content pos 24)),
     set_fp self (Some (mk_file content (pos + length (slice content pos 24)))) w).
Proof.
  intros Hf. unfold read_segment, bindM, fp_read, liftM. rewrite Hf. reflexivity.
Qed.

Lemma sdt_from_buffer_copy_ok (content : bytes) (pos : nat) seg :
  sdt_from_buffer_copy (xor_obfuscate (slice content pos 24)) = Ok seg ->
  length (slice content pos 24) = 24%nat /\ (pos + 24 <= length content)%nat.
Proof.
  unfold sdt_from_buffer_copy, xor_obfuscate. rewrite xor_from_length.
  destruct (length (slice content pos 24) <? 24)%nat eqn:E; [discriminate|].
  intros _. apply Nat.ltb_ge in E. unfold slice in *.
  rewrite length_firstn, length_skipn in *. lia.
Qed.

Lemma sdt_from_buffer_copy_short (content : bytes) (pos : nat) :
  (length content < pos + 24)%nat ->
  sdt_from_buffer_copy (xor_obfuscate (slice content pos 24)) = Raise ValueError.
Proof.
  intros H. unfold sdt_from_buffer_copy, xor_obfuscate. rewrite xor_from_length.
  replace (length (slice content pos 24) <? 24)%nat with true; [reflexivity|].
  symmetry. apply Nat.ltb_lt. unfold slice. rewrite length_firstn, length_skipn. lia.
Qed.

Lemma fp_set_fp self f w : fp (objects (set_fp self f w) self) = f.
Proof. unfold set_fp, set_object. cbn [objects]. now rewrite Nat.eqb_refl. Qed.

Lemma read_then_loop_eq self w content pos fuel :
  fp (objects w self) = Some (mk_file content pos) ->
  bindM (read_segment self) (read_segments_loop fuel self) w =
    match sdt_from_buffer_copy (xor_obfuscate (slice content pos 24)) with
    | Ok seg =>
        read_segments_loop fuel self seg
          (set_fp self (Some (mk_file content (pos + length (slice content pos 24)))) w)
    | Raise e =>
        (Raise e,
         set_fp self (Some (mk_file content (pos + length (slice content pos 24)))) w)
    end.
Proof.
  intros Hf. unfold bindM. rewrite (read_segment_at self w content pos Hf).
  destruct (sdt_from_buffer_copy _); reflexivity.
Qed.

Lemma read_segments_loop_stop fuel self seg w :
  sdt_size seg = 0 -> read_segments_loop fuel self seg w = (Ok tt, w).
Proof. intros H. destruct fuel; cbn [read_segments_loop]; rewrite H; reflexivity. Qed.

Lemma read_segments_loop_step fuel self seg w :
  sdt_size seg <> 0 ->
  read_segments_loop (S fuel) self seg w
  = bindM (read_segment self) (read_segments_loop fuel self) (append_isz_segment self seg w).
Proof.
  intros H. apply Z.eqb_neq in H. cbn [read_segments_loop]. rewrite H. reflexivity.
Qed.

(** The loop of lines 220-223 from its first read on: [recs] are the records
    it appends, [r] is what ends it. *)
Lemma read_segments_loop_records self content off (r : result unit) :
  forall recs k fuel w,
    fp (objects w self) = Some (mk_file content (off + 24 * k)) ->
    (length content - (off + 24 * k) < 24 * S fuel)%nat ->
    (forall i s, nth_error recs i = Some s ->
       descriptor_at content off (k + i) = Ok s /\ sdt_size s <> 0) ->
    (exists t, descriptor_at content off (k + length recs) = Ok t /\ sdt_size t = 0 /\
               r = Ok tt)
    \/ ((length content < off + 24 * S (k + length recs))%nat /\ r = Raise ValueError) ->
    fst (bindM (read_segment self) (read_segments_loop fuel self) w) = r /\
    isz_segments (snd (bindM (read_segment self) (read_segments_loop fuel self) w)) self
    = isz_segments w self ++ recs.
Proof.
  induction recs as [|s rest IH]; intros k fuel w Hf Hfuel Hrecs Hend;
    rewrite (read_then_loop_eq self w content _ fuel Hf).
  - cbn [length] in Hend. rewrite Nat.add_0_r in Hend. rewrite app_nil_r.
    destruct Hend as [(t & Ht & Hz & ->)|[Hshort ->]].
    + unfold descriptor_at in Ht. rewrite Ht, (read_segments_loop_stop _ _ _ _ Hz).
      cbn [fst snd]. split; [reflexivity|apply segments_set_fp].
    + rewrite sdt_from_buffer_copy_short by lia. cbn [fst snd].
      split; [reflexivity|apply segments_set_fp].
  - destruct (Hrecs 0%nat s eq_refl) as [Hs Hnz]. rewrite Nat.add_0_r in Hs.
    unfold descriptor_at in Hs.
    destruct (sdt_from_buffer_copy_ok content _ s Hs) as [Hlen Hfit].
    rewrite Hs, Hlen.
    destruct fuel as [|fuel]; [lia|].
    rewrite (read_segments_loop_step _ _ _ _ Hnz).
    set (w1 := append_isz_segment self s (set_fp self _ w)).
    assert (Hf1 : fp (objects w1 self) = Some (mk_file content (off + 24 * S k))).
    { unfold w1. rewrite fp_append_isz_segment, fp_set_fp. do 2 f_equal. lia. }
    destruct (IH (S k) fuel w1 Hf1) as [E1 E2].
    + lia.
    + intros i s' Hi. replace (S k + i)%nat with (k + S i)%nat by lia.
      apply Hrecs. exact Hi.
    + cbn [length] in Hend. replace (S k + length rest)%nat with (k + S (length rest))%nat
        by lia. exact Hend.
    + split; [exact E1|]. rewrite E2. unfold w1.
      rewrite segments_append, segments_set_fp, <- app_assoc. reflexivity.
Qed.

(** With an explicit segment table ([segment_pointers_offset <> 0]) the
    descriptors appended are exactly the 24-byte records from that offset on,
    each de-obfuscated on its own, up to and excluding the first record whose
    size is 0; when the file ends before such a record, the parse raises
    [ValueError], the records before the cut already appended. *)
Theorem read_segment_table_records self w f recs :
  segment_pointers_offset (isz_header w self) <> 0 ->
  fp (objects w self) = Some f ->
  (forall i s, nth_error recs i = Some s ->
     descriptor_at (f_data f) (Z.to_nat (segment_pointers_offset (isz_header w self))) i
     = Ok s /\ sdt_size s <> 0) ->
  ((exists t,
      descriptor_at (f_data f) (Z.to_nat (segment_pointers_offset (isz_header w self)))
        (length recs) = Ok t /\ sdt_size t = 0) ->
   fst (read_segment_table self w) = Ok tt /\
   isz_segments (snd (read_segment_table self w)) self = isz_segments w self ++ recs) /\
  ((length (f_data f)
    < Z.to_nat (segment_pointers_offset (isz_header w self)) + 24 * S (length recs))%nat ->
   fst (read_segment_table self w) = Raise ValueError /\
   isz_segments (snd (read_segment_table self w)) self = isz_segments w self ++ recs).
Proof.
  intros Hoff Hf Hrecs.
  set (off := Z.to_nat (segment_pointers_offset (isz_header w self))) in *.
  set (w0 := set_fp self (Some (mk_file (f_data f) off)) w).
  assert (Hf0 : fp (objects w0 self) = Some (mk_file (f_data f) (off + 24 * 0)))
    by (unfold w0; rewrite fp_set_fp; do 2 f_equal; lia).
  assert (E : read_segment_table self w
              = bindM (read_segment self) (read_segments_loop (length (f_data f)) self) w0).
  { unfold read_segment_table, bindM at 1, getM. apply Z.eqb_neq in Hoff. rewrite Hoff.
    unfold bindM at 1, fp_seek. rewrite Hf. fold off. fold w0.
    unfold bindM. rewrite (read_segment_at self w0 _ _ Hf0).
    destruct (sdt_from_buffer_copy _) as [seg|e]; [|reflexivity].
    unfold getM. now rewrite fp_set_fp. }
  assert (S0 : isz_segments w0 self = isz_segments w self) by apply segments_set_fp.
  rewrite E, <- S0. split.
  - intros (t & Ht & Hz).
    apply (read_segments_loop_records self (f_data f) off (Ok tt) recs 0%nat _ w0 Hf0);
      [lia|exact Hrecs|].
    left. exists t. now repeat split.
  - intros Hshort.
    apply (read_segments_loop_records self (f_data f) off (Raise ValueError) recs 0%nat _ w0
             Hf0); [lia|exact Hrecs|].
    right. split; [exact Hshort|reflexivity].
Qed.

Lemma read_segment_table_records_witness :
  fst (read_segment_table 0 Examples.disk_header_read) = Ok tt /\
  isz_segments (snd (read_segment_table 0 Examples.disk_header_read)) 0
  = isz_segments Examples.disk_header_read 0 ++ [Examples.disk_seg0; Examples.disk_seg1].
Proof.
  refine (proj1 (read_segment_table_records 0%nat Examples.disk_header_read
                   (mk_file Examples.disk_isz 64)
                   [Examples.disk_seg0; Examples.disk_seg1] _ _ _) _).
  - vm_compute. discriminate.
  - vm_compute. reflexivity.
  - intros [|[|[|i]]] s Hi; cbn in Hi; try discriminate;
      injection Hi as <-; split; try (vm_compute; reflexivity); vm_compute; discriminate.
  - exists (mk_sdt 0 0 0 0 0). split; vm_compute; reflexivity.
Defined.

(* ================================================================= *)
(** ** The files of the segments *)

Section SegmentFiles.
Variable fs : string -> option bytes.

(** The generator a successful open leaves is the one lines 225-228 choose
    for the opened name and the final number of descriptors. *)
Lemma open_isz_file_convention self name w w' :
  open_isz_file fs self name w = (Ok tt, w') ->
  exists ng,
    filename (objects w' self) = Some name /\
    name_generator (objects w' self) = Some ng /\
    choose_convention fs (Some name) (len (isz_segments w' self)) = Ok ng.
Proof.
  intros H.
  destruct (open_isz_file_ok _ _ _ _ _ H) as (data & w1 & w2 & Hd & H1 & Hseg & H2 & H3).
  assert (Hf1 : filename (objects w1 self) = Some name).
  { apply (keeps_read_header (fun w => filename (objects w self)) self) in H1;
      [|setter_frame|setter_frame].
    cbv beta in H1. rewrite H1. unfold opened. now handle_fields. }
  assert (Ho3 : (filename (objects w' self), name_generator (objects w' self),
                 isz_segments w' self)
                = (filename (objects w2 self), name_generator (objects w2 self),
                   isz_segments w2 self)).
  { apply (keeps_read_chunk_pointers
             (fun w => (filename (objects w self), name_generator (objects w self),
                        isz_segments w self)) self)
      in H3; [exact H3| |]; setter_frame. }
  injection Ho3 as Hf3 Hn3 Hs3.
  rewrite read_segments_eq in H2.
  destruct (read_segment_table self w1) as [[[]|e] t] eqn:Et; [|discriminate].
  assert (Hft : filename (objects t self) = filename (objects w1 self)).
  { apply (keeps_read_segment_table (fun w => filename (objects w self)) self) in Et;
      [exact Et| |]; setter_frame. }
  rewrite Hft, Hf1 in H2.
  destruct (choose_convention fs (Some name) (len (isz_segments t self))) as [ng|e] eqn:Ec;
    [|discriminate].
  injection H2 as _ <-. exists ng.
  rewrite Hf3, Hn3, Hs3. unfold set_name_generator at 1 2, set_object.
  cbn [objects]. rewrite Nat.eqb_refl. cbn [filename name_generator].
  rewrite segments_set_name_generator. rewrite Hft, Hf1. repeat split. exact Ec.
Qed.

(** Every segment of an opened container has a file of its own: two distinct
    segment indexes of the table get two distinct names, whichever of the
    naming rules the open settled on. *)
Theorem segment_names_distinct self name w w' i j :
  open_isz_file fs self name w = (Ok tt, w') ->
  0 <= i < len (isz_segments w' self) ->
  0 <= j < len (isz_segments w' self) ->
  i <> j ->
  exists name_i name_j,
    get_segment_name w' self i = Ok name_i /\
    get_segment_name w' self j = Ok name_j /\
    name_i <> name_j.
Proof.
  intros H Hi Hj Hij.
  destruct (open_isz_file_convention self name w w' H) as (ng & Hf & Hn & Hc).
  unfold get_segment_name. rewrite Hf, Hn. cbn [of_option bindR].
  eexists. eexists. split; [reflexivity|]. split; [reflexivity|].
  intros E. apply Hij.
  unfold choose_convention in Hc.
  replace (1 <? len (isz_segments w' self)) with true in Hc by lia.
  destruct (endswith name ".isz") eqn:He; [|discriminate].
  apply (call_namegen_inj ng name i j); try lia; try assumption.
  intros ->.
  destruct (path_exists fs (name_generator_1 name 1)); [discriminate|].
  destruct (path_exists fs (name_generator_2 name 1)); [discriminate|].
  destruct (path_exists fs (name_generator_3 name 1)); discriminate.
Qed.

End SegmentFiles.

Section FirstSegment.
Variable fs : string -> option bytes.

(** The data of segment 0 is read from the file under its generated name:
    that is the opened file under the first rule and for a single-file
    container, and under the second (third) rule exactly when the opened
    name ends in [.part01.isz] ([.part001.isz]). *)
Theorem first_segment_name self name w w' :
  open_isz_file fs self name w = (Ok tt, w') ->
  (get_segment_name w' self 0 = Ok name <->
   match name_generator (objects w' self) with
   | Some NG_2 => endswith name ".part01.isz" = true
   | Some NG_3 => endswith name ".part001.isz" = true
   | _ => True
   end).
Proof.
  intros H.
  destruct (open_isz_file_convention fs self name w w' H) as (ng & Hf & Hn & _).
  unfold get_segment_name. rewrite Hf, Hn. cbn [of_option bindR].
  destruct ng; cbn [call_namegen].
  - split; [trivial|reflexivity].
  - unfold name_generator_2. change (fmt_0d 2 (0 + 1)) with "01"%string.
    rewrite (endswith_iff name ".part01.isz"). cbn [String.length append].
    split; [now intros [= E]|now intros ->].
  - unfold name_generator_3. change (fmt_0d 3 (0 + 1)) with "001"%string.
    rewrite (endswith_iff name ".part001.isz"). cbn [String.length append].
    split; [now intros [= E]|now intros ->].
  - split; [trivial|reflexivity].
Qed.

End FirstSegment.

Lemma segment_names_distinct_witness :
  exists name_i name_j,
    get_segment_name Examples.disk_world 0 0 = Ok name_i /\
    get_segment_name Examples.disk_world 0 1 = Ok name_j /\
    name_i <> name_j.
Proof.
  refine (segment_names_distinct Examples.sample_fs 0%nat "disk.isz"%string initial_world
            Examples.disk_world 0 1 _ _ _ _).
  - vm_compute. reflexivity.
  - vm_compute. split; [discriminate|reflexivity].
  - vm_compute. split; [discriminate|reflexivity].
  - discriminate.
Defined.

Lemma first_segment_name_witness :
  get_segment_name Examples.parts_world 0 0 = Ok "set.part01.isz"%string.
Proof.
  refine (proj2 (first_segment_name Examples.parts_fs 0%nat "set.part01.isz"%string
                   initial_world Examples.parts_world _) _).
  - vm_compute. reflexivity.
  - vm_compute. reflexivity.
Defined.

(* ================================================================= *)
(** ** The default destination of [isz2iso] *)

(** Without a destination argument (or with an empty one) [isz2iso] extracts
    to a name that ends in [.iso] and is never the source itself -- [base.iso]
    for a source [base.isz], the source with [.iso] added otherwise; a
    non-empty argument is used as it is. *)
Theorem isz2iso_default_destination (src_isz : string) :
  isz2iso_dest_iso src_isz None <> src_isz /\
  endswith (isz2iso_dest_iso src_isz None) ".iso" = true /\
  (forall base, src_isz = (base ++ ".isz")%string ->
     isz2iso_dest_iso src_isz None = (base ++ ".iso")%string) /\
  (endswith src_isz ".isz" = false ->
   isz2iso_dest_iso src_isz None = (src_isz ++ ".iso")%string) /\
  isz2iso_dest_iso src_isz (Some ""%string) = isz2iso_dest_iso src_isz None /\
  (forall d, d <> ""%string -> isz2iso_dest_iso src_isz (Some d) = d).
Proof.
  unfold isz2iso_dest_iso. split; [|split; [|split; [|split; [|split]]]].
  - destruct (endswith src_isz ".isz") eqn:E.
    + intros C. rewrite (endswith_split _ _ E) in C at 2. cbn [String.length] in C.
      apply string_app_inv_head in C. discriminate.
    + intros C. apply (f_equal String.length) in C. rewrite string_length_app in C.
      cbn [String.length] in C. lia.
  - destruct (endswith src_isz ".isz"); apply endswith_app.
  - intros base ->. rewrite endswith_app.
    pose proof (drop_last_app base ".isz") as E. cbn [String.length] in E. now rewrite E.
  - intros E. now rewrite E.
  - reflexivity.
  - intros d Hd. apply String.eqb_neq in Hd. now rewrite Hd.
Qed.


(* ================================================================= *)
(** ** The checksums are those of the whole streams *)

Section ImageChecksum.
Variable fs : string -> option bytes.
Variable zlib_crc32 : bytes -> Z -> Z.
Variables zlib_decompress bz2_decompress : bytes -> option bytes.
Variable flushed : list bytes -> nat.

(** What [zlib.crc32] promises: a value of 32 bits, and a running checksum
    -- the checksum of a concatenation is the checksum of its second part
    seeded with that of the first; the checksum of no data from 0 is 0. *)
Hypothesis crc32_range : forall data value, 0 <= zlib_crc32 data value <= 0xffffffff.
Hypothesis crc32_app :
  forall a b value, zlib_crc32 (a ++ b) value = zlib_crc32 b (zlib_crc32 a value).
Hypothesis crc32_nil : zlib_crc32 [] 0 = 0.

Lemma land_32_small (x : Z) : 0 <= x <= 0xffffffff -> Z.land x 0xffffffff = x.
Proof.
  intros H. change 0xffffffff with (Z.ones 32). rewrite Z.land_ones by lia.
  apply Z.mod_small. change (2 ^ 32) with 4294967296. change 0xffffffff with 4294967295 in H.
  lia.
Qed.

Lemma running_crc_seeded (ds : list bytes) :
  forall a value,
    running_crc zlib_crc32 ds (zlib_crc32 a value) = zlib_crc32 (a ++ concat ds) value.
Proof.
  induction ds as [|d ds IH]; intros a value; cbn [running_crc fold_left concat].
  - now rewrite app_nil_r.
  - rewrite land_32_small by apply crc32_range.
    rewrite <- crc32_app. fold (running_crc zlib_crc32 ds (zlib_crc32 (a ++ d) value)).
    rewrite IH. now rewrite <- app_assoc.
Qed.

Lemma running_crc_concat (ds : list bytes) :
  running_crc zlib_crc32 ds 0 = zlib_crc32 (concat ds) 0.
Proof.
  rewrite <- crc32_nil at 1. now rewrite running_crc_seeded.
Qed.

(** The loop of lines 354-357, when it comes to its end: the accumulator is
    the running CRC32 of what was written, whatever the blocks were read
    from. *)
Lemma extract_loop_checks w self filename (ids : list Z) :
  forall crc writes st t,
    forIO ids (extract_body fs zlib_crc32 zlib_decompress bz2_decompress flushed w self
                 filename) (crc, writes) = (Ok st, t) ->
    exists ds,
      fst st = running_crc zlib_crc32 ds crc /\ written filename t = concat ds.
Proof.
  induction ids as [|i rest IH]; intros crc writes st t H.
  - cbn [forIO] in H. injection H as <- <-. now exists [].
  - cbn [forIO] in H. unfold extract_body at 1 in H.
    pose proof (reads_only_decompress_block
                  (fs_while_extracting fs flushed filename writes)
                  zlib_decompress bz2_decompress w self i) as Hr.
    unfold reads_only in Hr.
    destruct (decompress_block _ zlib_decompress bz2_decompress w self i)
      as [[[d|]|e] t0]; cbn [bindIO emit retIO raiseIO app snd] in H, Hr; try discriminate.
    destruct (forIO rest _ _) as [[st'|e'] t'] eqn:E'; [|discriminate].
    injection H as <- <-.
    destruct (IH _ _ _ _ E') as (ds & Hc & Hw). exists (d :: ds). split; [exact Hc|].
    rewrite !written_app, (written_reads filename t0 Hr), Hw. cbn [written app concat].
    now rewrite String.eqb_refl, app_nil_r.
Qed.

(** With [zlib.crc32] a running 32-bit checksum, the loops check whole
    streams: [verify_isz_file] compares [checksum2] with the complemented
    CRC32 of the concatenation of the stored blocks,
    [verify_uncompress_isz_file] compares [checksum1] with that of the
    concatenation of the decompressed blocks, and an [extract_to] that
    returns has written an image whose complemented CRC32 is [checksum1]. *)
Theorem checksums_of_whole_streams w self filename :
  (forall ds,
     Forall2 (fun i d => fst (get_block fs w self i) = Ok d)
             (filter (is_stored (chunk_pointers w self))
                     (range 0 (len (chunk_pointers w self)))) ds ->
     fst (verify_isz_file fs zlib_crc32 w self)
     = Ok (crc_final (zlib_crc32 (concat ds) 0) =? checksum2 (isz_header w self))) /\
  (forall ds,
     Forall2 (fun i d => fst (decompress_block fs zlib_decompress bz2_decompress w self i)
                         = Ok (Some d))
             (range 0 (len (chunk_pointers w self))) ds ->
     fst (verify_uncompress_isz_file fs zlib_crc32 zlib_decompress bz2_decompress w self)
     = Ok (crc_final (zlib_crc32 (concat ds) 0) =? checksum1 (isz_header w self))) /\
  (fst (extract_to fs zlib_crc32 zlib_decompress bz2_decompress flushed w self filename)
   = Ok tt ->
   crc_final
     (zlib_crc32
        (written filename
           (snd (extract_to fs zlib_crc32 zlib_decompress bz2_decompress flushed w self
                   filename)))
        0)
   = checksum1 (isz_header w self)).
Proof.
  split; [|split].
  - intros ds Hds. rewrite verify_isz_file_unfold.
    rewrite (verify_loop_ok fs zlib_crc32 w self _ ds 0); [|intros i Hi; now apply in_range in Hi|exact Hds].
    cbn [bindIO retIO fst]. now rewrite running_crc_concat.
  - intros ds Hds. rewrite verify_uncompress_unfold.
    pose proof (uncompress_loop_ok fs zlib_crc32 zlib_decompress bz2_decompress w self _ ds 0
                  Hds) as R.
    destruct (forIO _ _ _) as [r t]. cbn [fst] in R. subst r.
    cbn [bindIO retIO fst]. now rewrite running_crc_concat.
  - unfold extract_to. cbn [bindIO emit].
    destruct (forIO _ _ _) as [[st|e] t] eqn:E; [|discriminate].
    destruct (extract_loop_checks w self filename _ _ _ _ _ E) as (ds & Hc & Hw).
    cbn [bindIO emit app fst snd].
    destruct (crc_final (fst st) =? _) eqn:Eq; cbn [negb raiseIO retIO fst snd];
      [|discriminate].
    intros _. rewrite written_create_close, Hw, <- running_crc_concat, <- Hc.
    now apply Z.eqb_eq.
Qed.

End ImageChecksum.

(** The sample CRC-32 is such a running checksum. *)
Lemma lxor_32_range (a b : Z) :
  0 <= a < 2 ^ 32 -> 0 <= b < 2 ^ 32 -> 0 <= Z.lxor a b < 2 ^ 32.
Proof.
  intros Ha Hb. split; [apply Z.lxor_nonneg; lia|].
  destruct (Z.eq_dec (Z.lxor a b) 0) as [->|Hne]; [reflexivity|].
  assert (0 < Z.lxor a b) by (pose proof (proj2 (Z.lxor_nonneg a b) ltac:(lia)); lia).
  apply Z.log2_lt_pow2; [assumption|].
  pose proof (Z.log2_lxor a b ltac:(lia) ltac:(lia)) as L.
  assert (La : Z.log2 a < 32).
  { destruct (Z.eq_dec a 0) as [->|]; [reflexivity|apply Z.log2_lt_pow2; lia]. }
  assert (Lb : Z.log2 b < 32).
  { destruct (Z.eq_dec b 0) as [->|]; [reflexivity|apply Z.log2_lt_pow2; lia]. }
  lia.
Qed.

Lemma crc32_bit_range (c : Z) : 0 <= c < 2 ^ 32 -> 0 <= Examples.crc32_bit c < 2 ^ 32.
Proof.
  intros H. unfold Examples.crc32_bit.
  assert (Hs : 0 <= Z.shiftr c 1 < 2 ^ 32).
  { rewrite Z.shiftr_div_pow2 by lia. change (2 ^ 1) with 2.
    split; [apply Z.div_pos; lia|]. apply Z.div_lt_upper_bound; lia. }
  destruct (Z.testbit c 0); [|exact Hs].
  apply lxor_32_range; [exact Hs|]. cbn. lia.
Qed.

Lemma crc32_byte_range (c : Z) (b : byte) :
  0 <= c < 2 ^ 32 -> 0 <= Examples.crc32_byte c b < 2 ^ 32.
Proof.
  intros H. unfold Examples.crc32_byte.
  assert (H0 : 0 <= Z.lxor c (byte_val b) < 2 ^ 32).
  { apply lxor_32_range; [exact H|]. pose proof (byte_val_range b).
    change (2 ^ 32) with 4294967296. lia. }
  cbn [Nat.iter nat_rect].
  repeat apply crc32_bit_range. exact H0.
Qed.

Lemma crc32_fold_range (data : bytes) :
  forall c, 0 <= c < 2 ^ 32 -> 0 <= fold_left Examples.crc32_byte data c < 2 ^ 32.
Proof.
  induction data as [|b rest IH]; intros c H; cbn [fold_left]; [exact H|].
  apply IH. now apply crc32_byte_range.
Qed.

Lemma crc32_seed_range (value : Z) :
  0 <= Z.lxor (Z.land value 0xffffffff) 0xffffffff < 2 ^ 32.
Proof.
  apply lxor_32_range; [|cbn; lia].
  change 0xffffffff with (Z.ones 32). rewrite Z.land_ones by lia.
  apply Z.mod_pos_bound. reflexivity.
Qed.

Lemma example_crc32_range (data : bytes) (value : Z) : 0 <= Examples.crc32 data value <= 0xffffffff.
Proof.
  unfold Examples.crc32.
  pose proof (lxor_32_range _ 0xffffffff
                (crc32_fold_range data _ (crc32_seed_range value)) ltac:(cbn; lia)) as H.
  change (2 ^ 32) with 4294967296 in H. change 0xffffffff with 4294967295 in *. lia.
Qed.

Lemma example_crc32_app (a b : bytes) (value : Z) :
  Examples.crc32 (a ++ b) value = Examples.crc32 b (Examples.crc32 a value).
Proof.
  unfold Examples.crc32. rewrite fold_left_app. do 2 f_equal.
  set (x := fold_left Examples.crc32_byte a _).
  assert (Hx : 0 <= x < 2 ^ 32) by apply crc32_fold_range, crc32_seed_range.
  assert (Hy : 0 <= Z.lxor x 0xffffffff < 2 ^ 32) by (apply lxor_32_range; [exact Hx|cbn; lia]).
  change 0xffffffff with (Z.ones 32) at 2. rewrite Z.land_ones by lia.
  rewrite Z.mod_small by exact Hy.
  rewrite Z.lxor_assoc, Z.lxor_nilpotent, Z.lxor_0_r. reflexivity.
Qed.

Lemma checksums_of_whole_streams_witness :
  crc_final
    (Examples.crc32
       (written "disk.iso"
          (snd (extract_to Examples.sample_fs Examples.crc32 Examples.toy_zlib
                  Examples.toy_bz2 Examples.flush_8k Examples.disk_world 0 "disk.iso")))
       0)
  = checksum1 (isz_header Examples.disk_world 0).
Proof.
  refine (proj2 (proj2 (checksums_of_whole_streams Examples.sample_fs Examples.crc32
                          Examples.toy_zlib Examples.toy_bz2 Examples.flush_8k
                          example_crc32_range example_crc32_app _ Examples.disk_world 0%nat
                          "disk.iso"%string))
            _).
  - reflexivity.
  - vm_compute. reflexivity.
Defined.

(* ================================================================= *)
(** ** Extraction onto a segment file *)

Section ExtractionOntoASegment.
Variable fs : string -> option bytes.
Variable zlib_crc32 : bytes -> Z -> Z.
Variables zlib_decompress bz2_decompress : bytes -> option bytes.
Variable flushed : list bytes -> nat.

(** Extracting onto the segment file that holds block 0, a stored block of
    at least one byte read in one piece: line 350 has emptied the file
    before the block is read from it, so [extract_to] raises the error
    naming block 0 after that one read, having written nothing -- and the
    segment file is lost. *)
Theorem extract_to_onto_segment_file w self filename block_type block_size seg_id segment :
  located (isz_segments w self) 0 seg_id segment ->
  0 <= first_chunck_number segment ->
  nth_error (chunk_pointers w self) 0 = Some (block_type, block_size) ->
  block_type <> Zeros ->
  get_segment_name w self (Z.of_nat seg_id) = Ok filename ->
  0 <> first_chunck_number segment + number_of_chunks segment - 1
  \/ left_size segment = 0 ->
  0 < block_size ->
  0 <= chunk_offset segment ->
  extract_to fs zlib_crc32 zlib_decompress bz2_decompress flushed w self filename
  = (Raise (UnableToReadBlock 0),
     [EvCreate filename; EvRead filename (chunk_offset segment) block_size]).
Proof.
  intros Hloc Hfirst Hptr Hty Hname Hcase Hpos Hoff.
  assert (Hf0 : first_chunck_number segment = 0).
  { destruct Hloc as (_ & [Hin _] & _). lia. }
  assert (Hpre : preceding_stored_size (chunk_pointers w self)
                   (first_chunck_number segment) 0 = 0).
  { rewrite Hf0. reflexivity. }
  set (fs' := fs_while_extracting fs flushed filename []).
  assert (Hg : get_block fs' w self 0
               = (Raise (UnableToReadBlock 0),
                  [EvRead filename (chunk_offset segment) block_size])).
  { rewrite (get_block_located fs' w self 0 block_type block_size seg_id segment
               Hloc Hfirst Hptr), Hpre, Z.add_0_r.
    rewrite (read_block_single fs' w self 0 block_size (Z.of_nat seg_id) segment
               (chunk_offset segment) filename [] Hname); try assumption; try lia.
    - rewrite skipn_nil, firstn_nil. unfold len. cbn [length Z.of_nat].
      replace (0 =? block_size) with false by lia. reflexivity.
    - unfold fs', fs_while_extracting. rewrite String.eqb_refl. cbn [concat].
      now rewrite firstn_nil. }
  assert (Hlen : 0 < len (chunk_pointers w self)).
  { unfold len. destruct (chunk_pointers w self); [discriminate|cbn [length]; lia]. }
  unfold extract_to.
  rewrite (range_cons 0 (len (chunk_pointers w self)) Hlen). cbn [forIO].
  unfold extract_body at 1. fold fs'.
  unfold decompress_block. rewrite py_index_nonneg by lia.
  change (Z.to_nat 0) with 0%nat. rewrite Hptr.
  cbn [of_option]. unfold liftIO. rewrite bindIO_ret_l.
  apply Z.eqb_neq in Hty. rewrite Hty, Hg. reflexivity.
Qed.

End ExtractionOntoASegment.

Lemma plain_block0_located :
  located (isz_segments Examples.plain_world 0) 0 0 (mk_sdt 0 1 0 64 0).
Proof.
  split; [vm_compute; reflexivity|].
  split; [unfold in_segment; cbn; lia|].
  intros j s Hj. lia.
Qed.

Lemma extract_to_onto_segment_file_witness :
  extract_to Examples.sample_fs Examples.crc32 Examples.toy_zlib Examples.toy_bz2
    Examples.flush_8k Examples.plain_world 0 "plain.isz"
  = (Raise (UnableToReadBlock 0), [EvCreate "plain.isz"; EvRead "plain.isz" 64 3]).
Proof.
  refine (extract_to_onto_segment_file Examples.sample_fs Examples.crc32 Examples.toy_zlib
            Examples.toy_bz2 Examples.flush_8k Examples.plain_world 0%nat
            "plain.isz"%string Data 3 0%nat (mk_sdt 0 1 0 64 0)
            plain_block0_located _ _ _ _ _ _ _).
  - cbn. lia.
  - vm_compute. reflexivity.
  - discriminate.
  - vm_compute. reflexivity.
  - right. reflexivity.
  - lia.
  - cbn. lia.
Defined.
